(** * SnowPro knowledge-base standardizer: a shallow embedding of
    [InputYMLFormatter/standardize_kb.py] and the properties of its
    field resolver, value normalizers, transformer and validator.

  Modelling conventions.
  - Python [str] is [string]; characters are ASCII.  Code points above
    127 are carried along as uncased, non-blank characters.
  - A parsed YAML tree is a [value]: null, bool, int, str, list or
    mapping.  Mappings are association lists in insertion order.  A
    mapping whose keys are all strings (the Generic Document of the
    specification) is a [VDict]; a mapping as the parser may also build
    it, with keys of any scalar kind (null, bool, int, str), is a
    [VMap].  The [k.lower()] that the program applies to every key
    raises on a key that is no string; this is [mapping_fields].  YAML
    floats and timestamps are not part of the model.
  - Exceptions are explicit: a function that may raise returns a
    [result].
  - The interpreter's limit on the number of digits accepted by
    [int(str)] (4300 by default since Python 3.11) is not modelled. *)

From Stdlib Require Import ZArith List Bool Ascii String Lia Permutation.
From Stdlib Require Import Numbers.DecimalString Numbers.DecimalPos.
Import ListNotations.
Open Scope string_scope.

(** ** Characters *)

Module PyChar.

Definition code (c : ascii) : nat := nat_of_ascii c.

Definition between (lo hi : nat) (c : ascii) : bool :=
  (lo <=? code c)%nat && (code c <=? hi)%nat.

(** [str.isspace] on ASCII: TAB..CR, FS..US and the space.  This is the
    class used by [str.strip], [str.split] and the regex escape [\s]. *)
Definition is_space (c : ascii) : bool :=
  between 9 13 c || between 28 31 c || (code c =? 32)%nat.

(** C-locale [isspace]: the blanks skipped by [int(str)]. *)
Definition is_cspace (c : ascii) : bool :=
  between 9 13 c || (code c =? 32)%nat.

Definition is_upper (c : ascii) : bool := between 65 90 c.
Definition is_lower (c : ascii) : bool := between 97 122 c.
Definition is_digit (c : ascii) : bool := between 48 57 c.

Definition lower (c : ascii) : ascii :=
  if is_upper c then ascii_of_nat (code c + 32) else c.

Definition upper (c : ascii) : ascii :=
  if is_lower c then ascii_of_nat (code c - 32) else c.

(** The regex class [[A-Ea-e]]. *)
Definition is_AE (c : ascii) : bool := between 65 69 c || between 97 101 c.

Definition digit_val (c : ascii) : Z := Z.of_nat (code c - 48).

End PyChar.

(** ** Strings: the [str] methods the program calls *)

Module PyStr.

Definition is_empty (s : string) : bool :=
  match s with EmptyString => true | _ => false end.

Fixpoint lower (s : string) : string :=
  match s with
  | EmptyString => EmptyString
  | String c t => String (PyChar.lower c) (lower t)
  end.

Fixpoint upper (s : string) : string :=
  match s with
  | EmptyString => EmptyString
  | String c t => String (PyChar.upper c) (upper t)
  end.

(** [s.capitalize()]: first character upper-cased, the rest lower-cased. *)
Definition capitalize (s : string) : string :=
  match s with
  | EmptyString => EmptyString
  | String c t => String (PyChar.upper c) (lower t)
  end.

Fixpoint lstrip (s : string) : string :=
  match s with
  | EmptyString => EmptyString
  | String c t => if PyChar.is_space c then lstrip t else s
  end.

Fixpoint rstrip (s : string) : string :=
  match s with
  | EmptyString => EmptyString
  | String c t =>
      let t' := rstrip t in
      if PyChar.is_space c && is_empty t' then EmptyString else String c t'
  end.

(** [s.strip()] *)
Definition strip (s : string) : string := rstrip (lstrip s).

(** [s.lstrip(ch)] and [s.strip(ch)] for a one-character argument. *)
Fixpoint lstrip_char (ch : ascii) (s : string) : string :=
  match s with
  | EmptyString => EmptyString
  | String c t => if Ascii.eqb c ch then lstrip_char ch t else s
  end.

Fixpoint rstrip_char (ch : ascii) (s : string) : string :=
  match s with
  | EmptyString => EmptyString
  | String c t =>
      let t' := rstrip_char ch t in
      if Ascii.eqb c ch && is_empty t' then EmptyString else String c t'
  end.

Definition strip_char (ch : ascii) (s : string) : string :=
  rstrip_char ch (lstrip_char ch s).

(** [s.startswith(p)] *)
Definition startswith (s p : string) : bool := String.prefix p s.

(** [sep.join(l)] *)
Definition join (sep : string) (l : list string) : string :=
  String.concat sep l.

(** [s.split(ch)] for a one-character separator: never empty, keeps
    empty fields. *)
Fixpoint split_char (ch : ascii) (s : string) : list string :=
  match s with
  | EmptyString => [EmptyString]
  | String c t =>
      if Ascii.eqb c ch then EmptyString :: split_char ch t
      else match split_char ch t with
           | [] => [String c EmptyString]
           | w :: ws => String c w :: ws
           end
  end.

(** [s.split()]: the maximal runs of non-blank characters.  [cur] is
    the word being read, if any. *)
Fixpoint split_ws_from (cur : option string) (s : string) : list string :=
  match s with
  | EmptyString => match cur with Some w => [w] | None => [] end
  | String c t =>
      if PyChar.is_space c then
        match cur with
        | Some w => w :: split_ws_from None t
        | None => split_ws_from None t
        end
      else
        match cur with
        | Some w => split_ws_from (Some (w ++ String c EmptyString)) t
        | None => split_ws_from (Some (String c EmptyString)) t
        end
  end.

Definition split_ws (s : string) : list string := split_ws_from None s.

(** [re.sub(r'\s+', '', s)]: every blank removed. *)
Fixpoint remove_ws (s : string) : string :=
  match s with
  | EmptyString => EmptyString
  | String c t => if PyChar.is_space c then remove_ws t else String c (remove_ws t)
  end.

(** [s.replace(old, '')]: the non-overlapping occurrences of [old],
    found left to right, are deleted in one pass.  [skip] counts the
    characters of the current occurrence still to be dropped. *)
Fixpoint remove_from (old : string) (skip : nat) (s : string) : string :=
  match s with
  | EmptyString => EmptyString
  | String c t =>
      match skip with
      | S k => remove_from old k t
      | O =>
          if negb (is_empty old) && String.prefix old s
          then remove_from old (String.length old - 1) t
          else String c (remove_from old 0 t)
      end
  end.

Definition remove_all (old s : string) : string := remove_from old 0 s.

Fixpoint zeros (n : nat) : string :=
  match n with O => EmptyString | S k => String "0" (zeros k) end.

(** [s.zfill(width)]: the padding goes after a leading sign. *)
Definition zfill (width : nat) (s : string) : string :=
  let pad := zeros (width - String.length s) in
  match s with
  | String c t =>
      if Ascii.eqb c "+" || Ascii.eqb c "-" then String c (pad ++ t)
      else pad ++ s
  | EmptyString => pad
  end.

(** [str(n)] for an integer. *)
Definition of_Z (z : Z) : string := NilZero.string_of_int (Z.to_int z).

(** [int(s)], base 10: blanks around, an optional sign, then digits in
    which single underscores may separate digits.  [None] stands for
    [ValueError]. *)
Fixpoint skip_cspace (s : string) : string :=
  match s with
  | String c t => if PyChar.is_cspace c then skip_cspace t else s
  | EmptyString => EmptyString
  end.

Fixpoint all_cspace (s : string) : bool :=
  match s with
  | String c t => PyChar.is_cspace c && all_cspace t
  | EmptyString => true
  end.

(** [acc] is the value read so far; [prev_digit] tells whether the
    previous character was a digit, so that an underscore is legal. *)
Fixpoint int_digits (acc : Z) (prev_digit : bool) (s : string) : option Z :=
  match s with
  | EmptyString => if prev_digit then Some acc else None
  | String c t =>
      if PyChar.is_digit c then
        int_digits (10 * acc + PyChar.digit_val c) true t
      else if Ascii.eqb c "_" then
        if prev_digit then int_digits acc false t else None
      else if prev_digit && all_cspace s then Some acc
      else None
  end.

Definition to_Z (s : string) : option Z :=
  match skip_cspace s with
  | String "+" t => int_digits 0 false t
  | String "-" t => option_map Z.opp (int_digits 0 false t)
  | t => int_digits 0 false t
  end.

End PyStr.


(** ** Parsed documents *)

(** The key of a mapping: any hashable scalar. *)
Inductive key : Type :=
| KStr (s : string)
| KNone
| KBool (b : bool)
| KInt (z : Z).

#[warnings="-register-all"]
Inductive value : Type :=
| VNone
| VBool (b : bool)
| VInt (z : Z)
| VStr (s : string)
| VList (l : list value)
| VDict (d : list (string * value))
| VMap (m : list (key * value)).

(** A Python [dict] with string keys, in insertion order. *)
Definition dict (A : Type) : Type := list (string * A).

Module PyDict.

Fixpoint get {A} (d : dict A) (k : string) : option A :=
  match d with
  | [] => None
  | (k', v) :: r => if String.eqb k' k then Some v else get r k
  end.

(** [d[k] = v]: an existing key keeps its place, a new key goes last. *)
Fixpoint set {A} (d : dict A) (k : string) (v : A) : dict A :=
  match d with
  | [] => [(k, v)]
  | (k', v') :: r => if String.eqb k' k then (k', v) :: r else (k', v') :: set r k v
  end.

Definition mem {A} (d : dict A) (k : string) : bool :=
  match get d k with Some _ => true | None => false end.

End PyDict.

(** Keys of any kind: equality as Python's dictionaries see it, where a
    bool is the integer 0 or 1. *)
Module PyKey.

Definition num (k : key) : option Z :=
  match k with
  | KBool b => Some (if b then 1 else 0)%Z
  | KInt z => Some z
  | _ => None
  end.

Definition eqb (k1 k2 : key) : bool :=
  match k1, k2 with
  | KStr a, KStr b => String.eqb a b
  | KNone, KNone => true
  | _, _ =>
      match num k1, num k2 with
      | Some a, Some b => (a =? b)%Z
      | _, _ => false
      end
  end.

(** [d[k] = v]: an existing equal key keeps its place and its spelling,
    a new key goes last. *)
Fixpoint set {A} (d : list (key * A)) (k : key) (v : A) : list (key * A) :=
  match d with
  | [] => [(k, v)]
  | (k', v') :: r => if eqb k' k then (k', v) :: r else (k', v') :: set r k v
  end.

End PyKey.

Module PyVal.

Definition dquote : ascii := ascii_of_nat 34.
Definition squote : ascii := ascii_of_nat 39.
Definition backslash : ascii := ascii_of_nat 92.

Definition chr (c : ascii) : string := String c EmptyString.

(** [bool(v)] *)
Definition truthy (v : value) : bool :=
  match v with
  | VNone => false
  | VBool b => b
  | VInt z => negb (z =? 0)%Z
  | VStr s => negb (PyStr.is_empty s)
  | VList l => match l with [] => false | _ => true end
  | VDict d => match d with [] => false | _ => true end
  | VMap m => match m with [] => false | _ => true end
  end.

(** [a or b] *)
Definition or_else (a b : value) : value := if truthy a then a else b.

Definition is_list (v : value) : bool :=
  match v with VList _ => true | _ => false end.

Definition type_name (v : value) : string :=
  match v with
  | VNone => "NoneType"
  | VBool _ => "bool"
  | VInt _ => "int"
  | VStr _ => "str"
  | VList _ => "list"
  | VDict _ => "dict"
  | VMap _ => "dict"
  end.

Definition key_type_name (k : key) : string :=
  match k with
  | KStr _ => "str"
  | KNone => "NoneType"
  | KBool _ => "bool"
  | KInt _ => "int"
  end.

Definition is_str_key (k : key) : bool :=
  match k with KStr _ => true | _ => false end.

Fixpoint contains_char (ch : ascii) (s : string) : bool :=
  match s with
  | EmptyString => false
  | String c t => Ascii.eqb c ch || contains_char ch t
  end.

Definition hex_digit (n : nat) : ascii :=
  if (n <? 10)%nat then ascii_of_nat (48 + n) else ascii_of_nat (87 + n).

(** One character of [repr(str)] with quote character [q]. *)
Definition repr_char (q c : ascii) : string :=
  let n := PyChar.code c in
  if Ascii.eqb c backslash then String backslash (chr backslash)
  else if Ascii.eqb c q then String backslash (chr q)
  else if (n =? 9)%nat then String backslash "t"
  else if (n =? 10)%nat then String backslash "n"
  else if (n =? 13)%nat then String backslash "r"
  else if (n <? 32)%nat || (n =? 127)%nat
       then String backslash (String "x" (String (hex_digit (n / 16)) (chr (hex_digit (n mod 16)))))
  else chr c.

Fixpoint repr_chars (q : ascii) (s : string) : string :=
  match s with
  | EmptyString => EmptyString
  | String c t => repr_char q c ++ repr_chars q t
  end.

(** [repr(s)] for a string: single quotes unless the string holds a
    single quote and no double quote. *)
Definition repr_str (s : string) : string :=
  let q := if contains_char squote s && negb (contains_char dquote s)
           then dquote else squote in
  String q (repr_chars q s ++ chr q).

(** [repr(k)] and [str(k)] for a key. *)
Definition repr_key (k : key) : string :=
  match k with
  | KStr s => repr_str s
  | KNone => "None"
  | KBool true => "True"
  | KBool false => "False"
  | KInt z => PyStr.of_Z z
  end.

Definition str_key (k : key) : string :=
  match k with
  | KStr s => s
  | _ => repr_key k
  end.

(** [repr(v)] *)
Fixpoint repr (v : value) : string :=
  match v with
  | VNone => "None"
  | VBool true => "True"
  | VBool false => "False"
  | VInt z => PyStr.of_Z z
  | VStr s => repr_str s
  | VList l => "[" ++ PyStr.join ", " (map repr l) ++ "]"
  | VDict d =>
      "{" ++ PyStr.join ", " (map (fun kv => repr_str (fst kv) ++ ": " ++ repr (snd kv)) d) ++ "}"
  | VMap m =>
      "{" ++ PyStr.join ", " (map (fun kv => repr_key (fst kv) ++ ": " ++ repr (snd kv)) m) ++ "}"
  end.

(** [str(v)] *)
Definition str (v : value) : string :=
  match v with
  | VStr s => s
  | _ => repr v
  end.

End PyVal.

(** ** Exceptions *)

Inductive exn : Type :=
| ValueError (msg : string)
| AttributeError (msg : string).

Inductive result (A : Type) : Type :=
| Ok (a : A)
| Raise (e : exn).

Arguments Ok {A} a.
Arguments Raise {A} e.

Definition bind {A B} (r : result A) (k : A -> result B) : result B :=
  match r with
  | Ok a => k a
  | Raise e => Raise e
  end.

Notation "x <- r ;; k" := (bind r (fun x => k))
  (at level 61, r at next level, right associativity).

(** [d.items()] on a value that is no mapping. *)
Definition no_items (v : value) : exn :=
  AttributeError ("'" ++ PyVal.type_name v ++ "' object has no attribute 'items'").

(** [k.lower()] on a key that is no string. *)
Definition no_lower (k : key) : exn :=
  AttributeError ("'" ++ PyVal.key_type_name k ++ "' object has no attribute 'lower'").

(** The keys of a mapping as the strings that [k.lower()] needs, taken
    in insertion order: the first key that is no string raises. *)
Fixpoint str_keys (m : list (key * value)) : result (dict value) :=
  match m with
  | [] => Ok []
  | (KStr s, v) :: r => r' <- str_keys r ;; Ok ((s, v) :: r')
  | (k, _) :: _ => Raise (no_lower k)
  end.

(** What [{k.lower().strip(): v for k, v in d.items()}] requires of
    [d] before any key is folded: [d.items()] exists on mappings only,
    and [k.lower()] on strings only.  The result is the mapping with its
    keys as strings. *)
Definition mapping_fields (v : value) : result (dict value) :=
  match v with
  | VDict d => Ok d
  | VMap m => str_keys m
  | _ => Raise (no_items v)
  end.

(** ** Constants of the output schema *)

Definition OUT_TOPIC := "Topic Name".
Definition OUT_SUBTOPIC := "Sub Topic Name".
Definition OUT_TOTAL := "Total Question Count".
Definition OUT_QUESTIONS := "all questions".

Definition OUT_Q_NO := "Question No".
Definition OUT_Q_TEXT := "question".
Definition OUT_Q_OPTIONS := "their_options".
Definition OUT_Q_ANSWER := "correct Answer".
Definition OUT_Q_EXPLANATION := "explanation".
Definition OUT_Q_DIFFICULTY := "difficulty level".
Definition OUT_Q_TOPIC := "topic".
Definition OUT_Q_SUBTOPIC := "sub topic".
Definition OUT_Q_EXAM := "exam".

(** The two sets are Python [set]s, whose iteration order is not fixed;
    the lists below fix one order, and [normalize_difficulty_in] and
    [normalize_exam_in] take the order as an argument so that the
    independence of the result from it can be stated. *)
Definition VALID_DIFFICULTIES : list string := ["Easy"; "Medium"; "Hard"].
Definition VALID_EXAMS : list string := ["Core"; "DataEngineer"; "DataAnalyst"; "Architect"].
Definition OPTION_LABELS : list string :=
  ["option A"; "option B"; "option C"; "option D"; "option E"].

(** ** Helpers *)

(** [k.lower().strip()] *)
Definition fold_key (k : string) : string := PyStr.strip (PyStr.lower k).

(** [{k.lower().strip(): v for k, v in d.items()}] *)
Definition lower_map (d : dict value) : dict value :=
  fold_left (fun m kv => PyDict.set m (fold_key (fst kv)) (snd kv)) d [].

(** [lower_map.get(key)]: [None] when the key is missing. *)
Definition get_or_none (m : dict value) (k : string) : value :=
  match PyDict.get m k with Some v => v | None => VNone end.

Fixpoint first_in (m : dict value) (keys : list string) : value :=
  match keys with
  | [] => VNone
  | key :: rest =>
      match get_or_none m (fold_key key) with
      | VNone => first_in m rest
      | val => val
      end
  end.

(** [_first_value] on a mapping whose keys are strings, where it cannot
    fail. *)
Definition _first_value (d : dict value) (keys : list string) : value :=
  first_in (lower_map d) keys.

(** [_first_value] on any parsed value: building [lower_map] calls
    [d.items()] and then [k.lower()] on every key, and either may raise
    before any alias is looked up. *)
Definition first_value_of (d : value) (keys : list string) : result value :=
  fields <- mapping_fields d ;;
  Ok (_first_value fields keys).

Fixpoint first_match (raw : string) (ds : list string) : option string :=
  match ds with
  | [] => None
  | d :: rest =>
      if PyStr.startswith (PyStr.lower raw) (PyStr.lower d) then Some d
      else first_match raw rest
  end.

Definition normalize_difficulty_in (order : list string) (raw : value) : string :=
  if negb (PyVal.truthy raw) then "Medium"
  else
    let raw := PyStr.capitalize (PyStr.strip (PyVal.str raw)) in
    match first_match raw order with
    | Some d => d
    | None => "Medium"
    end.

Definition normalize_difficulty (raw : value) : string :=
  normalize_difficulty_in VALID_DIFFICULTIES raw.

Fixpoint find_exam (order : list string) (tag : string) : option string :=
  match order with
  | [] => None
  | e :: rest =>
      if String.eqb (PyStr.lower e) (PyStr.lower tag) then Some e
      else find_exam rest tag
  end.

Fixpoint matched_exams (order : list string) (tags : list string) : list string :=
  match tags with
  | [] => []
  | tag :: rest =>
      match find_exam order tag with
      | Some e => if PyStr.is_empty e then matched_exams order rest
                  else e :: matched_exams order rest
      | None => matched_exams order rest
      end
  end.

Definition normalize_exam_in (order : list string) (raw : value) : string :=
  if negb (PyVal.truthy raw) then "Core"
  else
    let tags :=
      match raw with
      | VList l => map (fun t => PyStr.strip (PyVal.str t)) l
      | _ => map PyStr.strip (PyStr.split_char "," (PyVal.str raw))
      end in
    match matched_exams order tags with
    | [] => "Core"
    | normalized => PyStr.join ", " normalized
    end.

Definition normalize_exam (raw : value) : string :=
  normalize_exam_in VALID_EXAMS raw.

(** [s.split()[-1]]; the program only takes it of strings with at least
    one word. *)
Definition last_word (s : string) : string := last (PyStr.split_ws s) "".

(** The key of an option, cleaned: blanks removed, lower-cased, every
    occurrence of the word option removed. *)
Definition clean_key (k : string) : string :=
  PyStr.remove_all "option" (PyStr.remove_ws (PyStr.lower k)).

Definition is_letter_key (clean : string) : bool :=
  existsb (String.eqb clean) ["a"; "b"; "c"; "d"; "e"].

(** The first loop of the mapping branch of [normalize_options]; the
    iteration is over the items of the mapping, [raw_options[k]] being
    the value stored under [k]. *)
Definition option_key_map (raw_options : dict value) : dict value :=
  fold_left
    (fun key_map kv =>
       let clean := clean_key (fst kv) in
       if is_letter_key clean then PyDict.set key_map clean (snd kv) else key_map)
    raw_options [].

Definition normalize_options (raw_options : value) : dict string :=
  match raw_options with
  | VDict d =>
      let key_map := option_key_map d in
      fold_left
        (fun result label =>
           let letter := PyStr.lower (last_word label) in
           match PyDict.get key_map letter with
           | Some v => PyDict.set result label (PyStr.strip (PyVal.str v))
           | None => result
           end)
        OPTION_LABELS []
  | VMap m =>
      (* [str(k)] is taken of every key, of whatever kind *)
      let key_map := option_key_map (map (fun kv => (PyVal.str_key (fst kv), snd kv)) m) in
      fold_left
        (fun result label =>
           let letter := PyStr.lower (last_word label) in
           match PyDict.get key_map letter with
           | Some v => PyDict.set result label (PyStr.strip (PyVal.str v))
           | None => result
           end)
        OPTION_LABELS []
  | VList l =>
      fold_left
        (fun result lv => PyDict.set result (fst lv) (PyStr.strip (PyVal.str (snd lv))))
        (combine OPTION_LABELS (firstn 5 l)) []
  | _ => []
  end.

(** *** The three patterns of [normalize_answer] *)

Module Re.

(** A pattern character under [re.I]. *)
Definition ci_eq (c p : ascii) : bool := Ascii.eqb (PyChar.lower c) (PyChar.lower p).

(** The literal [lit], case-insensitively, at the start of [s]: what
    follows it. *)
Fixpoint eat_ci (lit s : string) : option string :=
  match lit with
  | EmptyString => Some s
  | String p lit' =>
      match s with
      | String c t => if ci_eq c p then eat_ci lit' t else None
      | EmptyString => None
      end
  end.

(** [re.fullmatch(r'option [A-Ea-e](,\s*option [A-Ea-e])*', s, re.I)] as
    the automaton of the pattern. *)
Inductive canon_state : Type :=
| InItem (todo : string)  (* inside an item: the rest of its literal, then the letter *)
| AfterItem               (* an item has ended: end of input or a comma *)
| InSep.                  (* after a comma: blanks, then the next item *)

Fixpoint canon_run (st : canon_state) (s : string) : bool :=
  match s with
  | EmptyString => match st with AfterItem => true | _ => false end
  | String c t =>
      match st with
      | InItem (String p todo) => ci_eq c p && canon_run (InItem todo) t
      | InItem EmptyString => PyChar.is_AE c && canon_run AfterItem t
      | AfterItem => Ascii.eqb c "," && canon_run InSep t
      | InSep =>
          if PyChar.is_space c then canon_run InSep t
          else ci_eq c "o" && canon_run (InItem "ption ") t
      end
  end.

Definition fullmatch_canonical (s : string) : bool := canon_run (InItem "option ") s.

(** [re.fullmatch(r'[A-Ea-e]', s)] *)
Definition fullmatch_letter (s : string) : bool :=
  match s with
  | String c EmptyString => PyChar.is_AE c
  | _ => false
  end.

(** [r'option\s*([A-Ea-e])'] with [re.I], anchored at the start of [s]:
    the letter of group 1. *)
Definition match_option_at (s : string) : option ascii :=
  match eat_ci "option" s with
  | Some t =>
      match PyStr.lstrip t with
      | String c _ => if PyChar.is_AE c then Some c else None
      | EmptyString => None
      end
  | None => None
  end.

(** [re.search(r'option\s*([A-Ea-e])', s, re.I)]: the leftmost position
    at which the pattern matches; [m.group(1)]. *)
Fixpoint search_option (s : string) : option ascii :=
  match match_option_at s with
  | Some c => Some c
  | None =>
      match s with
      | String _ t => search_option t
      | EmptyString => None
      end
  end.

End Re.

(** [normalize_answer] on a string already passed through [str] and
    [strip]. *)
Definition normalize_answer_str (raw : string) : string :=
  if Re.fullmatch_canonical raw then
    let parts := map PyStr.strip (PyStr.split_char "," raw) in
    PyStr.join ", " (map (fun p => "option " ++ PyStr.upper (last_word p)) parts)
  else if Re.fullmatch_letter raw then "option " ++ PyStr.upper raw
  else
    match Re.search_option raw with
    | Some c => "option " ++ PyStr.upper (PyVal.chr c)
    | None => raw
    end.

Fixpoint normalize_answer (raw : value) : string :=
  if negb (PyVal.truthy raw) then ""
  else
    match raw with
    | VList l => PyStr.join ", " (map normalize_answer l)
    | _ => normalize_answer_str (PyStr.strip (PyVal.str raw))
    end.

(** [int(str(n).strip().lstrip('0') or '0')]; [None] when it raises
    [ValueError]. *)
Definition question_int (n : value) : option Z :=
  let s := PyStr.lstrip_char "0" (PyStr.strip (PyVal.str n)) in
  PyStr.to_Z (if PyStr.is_empty s then "0" else s).

Definition pad_question_no (n : value) : string :=
  match question_int n with
  | Some z => PyStr.zfill 3 (PyStr.of_Z z)
  | None => PyStr.strip (PyVal.str n)
  end.

(** ** Alias tables *)

Definition TOPIC_KEYS := ["Topic Name"; "topic name"; "Topic"; "topic"].
Definition SUBTOPIC_KEYS := ["Sub Topic Name"; "sub topic name"; "Sub Topic"; "subtopic"; "sub_topic"].
Definition TOTAL_KEYS := ["Total Question Count"; "total question count"; "total_questions"; "question_count"].
Definition QUESTIONS_KEYS := ["all questions"; "all_questions"; "questions"; "Questions"].

Definition Q_NO_KEYS := ["Question No"; "question no"; "question_no"; "Q No"; "id"].
Definition Q_TEXT_KEYS := ["question"; "Question"; "q"; "Q"].
Definition Q_OPTIONS_KEYS := ["their_options"; "their options"; "options"; "Options"].
Definition Q_ANSWER_KEYS := ["correct Answer"; "correct answer"; "correct_answer"; "answer"; "Answer"].
Definition Q_EXPL_KEYS := ["explanation"; "Explanation"].
Definition Q_DIFF_KEYS := ["difficulty level"; "difficulty_level"; "difficulty"; "Difficulty"].
Definition Q_TOPIC_KEYS := ["topic"; "Topic"].
Definition Q_SUBTOPIC_KEYS := ["sub topic"; "sub_topic"; "subtopic"; "Sub Topic"].
Definition Q_EXAM_KEYS := ["exam"; "Exam"; "exams"; "Exams"].

(** ** Core standardisation logic *)

(** The dictionary returned by [standardize_question], one field per key. *)
Record question : Type := mk_question {
  q_no : string;
  q_text : string;
  q_options : dict string;
  q_answer : string;
  q_explanation : string;
  q_difficulty : string;
  q_topic : string;
  q_subtopic : string;
  q_exam : string
}.

(** The dictionary returned by [standardize]. *)
Record kb : Type := mk_kb {
  kb_topic : string;
  kb_subtopic : string;
  kb_total : nat;
  kb_questions : list question
}.

(** The identifier before padding: the resolved id, or the position. *)
Definition q_no_source (d : dict value) (idx : nat) : value :=
  PyVal.or_else (_first_value d Q_NO_KEYS) (VStr (PyStr.of_Z (Z.of_nat idx + 1))).

(** [f'"{q_no}"'] *)
Definition quoted (s : string) : string :=
  String PyVal.dquote (s ++ PyVal.chr PyVal.dquote).

(** [standardize_question].  Its nine calls of [_first_value] fold the
    keys of the same record nine times; what the first call requires of
    the record, [mapping_fields], is what each of them requires, so it is
    taken once (see [standardize_question_calls] for the calls one by
    one). *)
Definition standardize_question (raw_q : value) (idx : nat) : result question :=
  d <- mapping_fields raw_q ;;
  let q_no := pad_question_no (q_no_source d idx) in
  let question := PyVal.or_else (_first_value d Q_TEXT_KEYS) (VStr "") in
  let raw_opts := PyVal.or_else (_first_value d Q_OPTIONS_KEYS) (VDict []) in
  let options := normalize_options raw_opts in
  let answer := normalize_answer (_first_value d Q_ANSWER_KEYS) in
  let explanation := PyVal.or_else (_first_value d Q_EXPL_KEYS) (VStr "") in
  let difficulty := normalize_difficulty (_first_value d Q_DIFF_KEYS) in
  let topic := PyVal.or_else (_first_value d Q_TOPIC_KEYS) (VStr "") in
  let subtopic := PyVal.or_else (_first_value d Q_SUBTOPIC_KEYS) (VStr "") in
  let exam := normalize_exam (_first_value d Q_EXAM_KEYS) in
  Ok {| q_no := quoted q_no;
        q_text := PyStr.strip (PyVal.str question);
        q_options := options;
        q_answer := answer;
        q_explanation := PyStr.strip (PyVal.str explanation);
        q_difficulty := difficulty;
        q_topic := PyStr.strip (PyVal.str topic);
        q_subtopic := PyStr.strip (PyVal.str subtopic);
        q_exam := exam |}.

(** [standardize_question], call by call in the order of the source. *)
Definition standardize_question_calls (raw_q : value) (idx : nat) : result question :=
  no <- first_value_of raw_q Q_NO_KEYS ;;
  let q_no := PyVal.or_else no (VStr (PyStr.of_Z (Z.of_nat idx + 1))) in
  text <- first_value_of raw_q Q_TEXT_KEYS ;;
  let question := PyVal.or_else text (VStr "") in
  opts <- first_value_of raw_q Q_OPTIONS_KEYS ;;
  let raw_opts := PyVal.or_else opts (VDict []) in
  let options := normalize_options raw_opts in
  ans <- first_value_of raw_q Q_ANSWER_KEYS ;;
  let answer := normalize_answer ans in
  expl <- first_value_of raw_q Q_EXPL_KEYS ;;
  let explanation := PyVal.or_else expl (VStr "") in
  diff <- first_value_of raw_q Q_DIFF_KEYS ;;
  let difficulty := normalize_difficulty diff in
  top <- first_value_of raw_q Q_TOPIC_KEYS ;;
  let topic := PyVal.or_else top (VStr "") in
  sub <- first_value_of raw_q Q_SUBTOPIC_KEYS ;;
  let subtopic := PyVal.or_else sub (VStr "") in
  ex <- first_value_of raw_q Q_EXAM_KEYS ;;
  let exam := normalize_exam ex in
  Ok {| q_no := quoted (pad_question_no q_no);
        q_text := PyStr.strip (PyVal.str question);
        q_options := options;
        q_answer := answer;
        q_explanation := PyStr.strip (PyVal.str explanation);
        q_difficulty := difficulty;
        q_topic := PyStr.strip (PyVal.str topic);
        q_subtopic := PyStr.strip (PyVal.str subtopic);
        q_exam := exam |}.

(** [[standardize_question(q, i) for i, q in enumerate(raw_qs)]], the
    enumeration starting at [idx]. *)
Fixpoint standardize_questions (raw_qs : list value) (idx : nat) : result (list question) :=
  match raw_qs with
  | [] => Ok []
  | q :: rest =>
      q' <- standardize_question q idx ;;
      rest' <- standardize_questions rest (S idx) ;;
      Ok (q' :: rest')
  end.

Definition no_questions_error : exn :=
  ValueError "Could not find a list of questions in the input file.".

(** [standardize] on a document whose keys are strings; the keys of any
    other document make its first lookup raise, see [standardize_value]. *)
Definition standardize (data : dict value) : result kb :=
  let topic := PyVal.or_else (_first_value data TOPIC_KEYS) (VStr "Unknown Topic") in
  let subtopic := PyVal.or_else (_first_value data SUBTOPIC_KEYS) (VStr "") in
  let raw_qs := PyVal.or_else (_first_value data QUESTIONS_KEYS) (VList []) in
  match raw_qs with
  | VList l =>
      questions <- standardize_questions l 0 ;;
      Ok {| kb_topic := PyStr.strip (PyVal.str topic);
            kb_subtopic := PyStr.strip (PyVal.str subtopic);
            kb_total := List.length questions;
            kb_questions := questions |}
  | _ => Raise no_questions_error
  end.

(** [standardize] called on any parsed value: its first lookup needs a
    mapping, and lower-cases every key of it. *)
Definition standardize_value (data : value) : result kb :=
  d <- mapping_fields data ;;
  standardize d.

(** [standardize], call by call in the order of the source. *)
Definition standardize_calls (data : value) : result kb :=
  top <- first_value_of data TOPIC_KEYS ;;
  let topic := PyVal.or_else top (VStr "Unknown Topic") in
  sub <- first_value_of data SUBTOPIC_KEYS ;;
  let subtopic := PyVal.or_else sub (VStr "") in
  qs <- first_value_of data QUESTIONS_KEYS ;;
  let raw_qs := PyVal.or_else qs (VList []) in
  match raw_qs with
  | VList l =>
      questions <- standardize_questions l 0 ;;
      Ok {| kb_topic := PyStr.strip (PyVal.str topic);
            kb_subtopic := PyStr.strip (PyVal.str subtopic);
            kb_total := List.length questions;
            kb_questions := questions |}
  | _ => Raise no_questions_error
  end.

(** ** Output formatting *)

(** [format_for_yaml]: the quotes around the question number are
    stripped; the explanation is wrapped in a [str] subclass, which does
    not change its value. *)
Definition format_question (q : question) : question :=
  {| q_no := PyStr.strip_char PyVal.dquote (q_no q);
     q_text := q_text q;
     q_options := q_options q;
     q_answer := q_answer q;
     q_explanation := q_explanation q;
     q_difficulty := q_difficulty q;
     q_topic := q_topic q;
     q_subtopic := q_subtopic q;
     q_exam := q_exam q |}.

Definition format_for_yaml (std : kb) : kb :=
  {| kb_topic := kb_topic std;
     kb_subtopic := kb_subtopic std;
     kb_total := kb_total std;
     kb_questions := map format_question (kb_questions std) |}.

(** A canonical dictionary read back as a generic document. *)
Definition question_to_value (q : question) : value :=
  VDict [ (OUT_Q_NO, VStr (q_no q));
          (OUT_Q_TEXT, VStr (q_text q));
          (OUT_Q_OPTIONS, VDict (map (fun kv => (fst kv, VStr (snd kv))) (q_options q)));
          (OUT_Q_ANSWER, VStr (q_answer q));
          (OUT_Q_EXPLANATION, VStr (q_explanation q));
          (OUT_Q_DIFFICULTY, VStr (q_difficulty q));
          (OUT_Q_TOPIC, VStr (q_topic q));
          (OUT_Q_SUBTOPIC, VStr (q_subtopic q));
          (OUT_Q_EXAM, VStr (q_exam q)) ].

Definition kb_to_document (std : kb) : dict value :=
  [ (OUT_TOPIC, VStr (kb_topic std));
    (OUT_SUBTOPIC, VStr (kb_subtopic std));
    (OUT_TOTAL, VInt (Z.of_nat (kb_total std)));
    (OUT_QUESTIONS, VList (map question_to_value (kb_questions std))) ].

(** ** Validation *)

Definition valid_difficulty (d : string) : bool :=
  existsb (String.eqb d) VALID_DIFFICULTIES.

(** [issues.append(i)] *)
Definition append_issue (issues : list string) (i : string) : list string :=
  (issues ++ [i])%list.

(** The body of the loop of [validate]: [issues] is the list being
    appended to. *)
Definition validate_question (issues : list string) (q : question) : list string :=
  let qno := q_no q in
  let issues :=
    if PyStr.is_empty (q_text q)
    then append_issue issues ("Q" ++ qno ++ ": missing question text") else issues in
  let issues :=
    match q_options q with
    | [] => append_issue issues ("Q" ++ qno ++ ": no options found")
    | _ => issues
    end in
  let issues :=
    if PyStr.is_empty (q_answer q)
    then append_issue issues ("Q" ++ qno ++ ": missing correct answer") else issues in
  let issues :=
    if negb (valid_difficulty (q_difficulty q))
    then append_issue issues
           ("Q" ++ qno ++ ": invalid difficulty '" ++ q_difficulty q ++ "'")
    else issues in
  issues.

(** [validate] with the dictionary it is given as explicit state: the
    second component is the dictionary after the call. *)
Definition validate_st (std : kb) : list string * kb :=
  (fold_left validate_question (kb_questions std) [], std).

Definition validate (std : kb) : list string := fst (validate_st std).

(** ** Conversion before writing *)

(** [to_serializable]: mappings and lists are rebuilt element by
    element, every other value is returned as it is.  The mapping is
    rebuilt by a comprehension, that is by successive assignments. *)
Fixpoint to_serializable (obj : value) : value :=
  match obj with
  | VDict d =>
      VDict (fold_left
               (fun m kv => PyDict.set m (fst kv) (to_serializable (snd kv))) d [])
  | VMap d =>
      VMap (fold_left
              (fun m kv => PyKey.set m (fst kv) (to_serializable (snd kv))) d [])
  | VList l => VList (map to_serializable l)
  | _ => obj
  end.

(** * Properties *)

(** ** Notions used to state the properties *)

(** [p] is a prefix of [s], letter case apart. *)
Definition ci_prefix (p s : string) : bool :=
  PyStr.startswith (PyStr.lower s) (PyStr.lower p).

(** The value [normalize_difficulty] compares with the canonical ones. *)
Definition processed_difficulty (raw : value) : string :=
  PyStr.capitalize (PyStr.strip (PyVal.str raw)).


(** A mapping all of whose keys are strings. *)
Definition string_keyed (v : value) : bool :=
  match v with
  | VDict _ => true
  | VMap m => forallb (fun kv => PyVal.is_str_key (fst kv)) m
  | _ => false
  end.



(** The issues of a list of questions, from an empty list of issues. *)
Definition validate_questions (qs : list question) : list string :=
  fold_left validate_question qs [].

Fixpoint last_char (s : string) : option ascii :=
  match s with
  | EmptyString => None
  | String c t => match last_char t with Some d => Some d | None => Some c end
  end.

(** The entry of the document consulted for an alias is the last one
    whose key, folded, is the folded alias: [binds d alias v] says that
    it carries [v], [unbound d alias] that there is none. *)
Definition binds (d : dict value) (alias : string) (v : value) : Prop :=
  exists pre k post,
    d = (pre ++ (k, v) :: post)%list /\
    fold_key k = fold_key alias /\
    Forall (fun kv => fold_key (fst kv) <> fold_key alias) post.

Definition unbound (d : dict value) (alias : string) : Prop :=
  Forall (fun kv => fold_key (fst kv) <> fold_key alias) d.

(** The value of the last entry of [d] whose folded key is [k]. *)
Fixpoint last_bound (d : dict value) (k : string) : option value :=
  match d with
  | [] => None
  | (k', v) :: r =>
      match last_bound r k with
      | Some w => Some w
      | None => if String.eqb (fold_key k') k then Some v else None
      end
  end.

Fixpoint all_digits (s : string) : bool :=
  match s with
  | EmptyString => true
  | String c t => PyChar.is_digit c && all_digits t
  end.

(** A string that [strip] leaves as it is. *)
Definition trimmed (s : string) : Prop := PyStr.strip s = s.

Definition first_char (s : string) : option ascii :=
  match s with
  | EmptyString => None
  | String c _ => Some c
  end.

(** The value read by [int_digits] along a decimal numeral. *)
Fixpoint uint_val (u : Decimal.uint) (acc : Z) : Z :=
  match u with
  | Decimal.Nil => acc
  | Decimal.D0 l => uint_val l (10 * acc + 0)
  | Decimal.D1 l => uint_val l (10 * acc + 1)
  | Decimal.D2 l => uint_val l (10 * acc + 2)
  | Decimal.D3 l => uint_val l (10 * acc + 3)
  | Decimal.D4 l => uint_val l (10 * acc + 4)
  | Decimal.D5 l => uint_val l (10 * acc + 5)
  | Decimal.D6 l => uint_val l (10 * acc + 6)
  | Decimal.D7 l => uint_val l (10 * acc + 7)
  | Decimal.D8 l => uint_val l (10 * acc + 8)
  | Decimal.D9 l => uint_val l (10 * acc + 9)
  end.

(** The question numbers of a result of [standardize]. *)
Definition question_ids (r : result kb) : list string :=
  match r with
  | Ok std => map q_no (kb_questions std)
  | Raise _ => []
  end.

(** [zfill 3 (str n)] is three digits that read back as [n]. *)
Definition three_digit_ok (k : nat) : bool :=
  let n := Z.of_nat k in
  let s := PyStr.zfill 3 (PyStr.of_Z n) in
  (String.length s =? 3)%nat && all_digits s &&
  match PyStr.to_Z s with Some m => (m =? n)%Z | None => false end.

(** *** Shapes of answers *)

(** [o] reads as the literal [lit], letter case apart. *)
Fixpoint ci_equal (o lit : string) : bool :=
  match o, lit with
  | EmptyString, EmptyString => true
  | String a o', String p lit' => Re.ci_eq a p && ci_equal o' lit'
  | _, _ => false
  end.

Fixpoint all_space (s : string) : bool :=
  match s with
  | EmptyString => true
  | String c t => PyChar.is_space c && all_space t
  end.

(** The canonical label of a letter: the word option, a space, the
    letter in upper case. *)
Definition canonical_label (c : ascii) : string :=
  "option " ++ PyVal.chr (PyChar.upper c).

(** [canonical_list t cs]: [t] is a comma-joined list of items, each the
    word option (any case), one space and a letter A-E (any case), with
    optional blanks after each comma; [cs] are the letters, in order. *)
Inductive canonical_list : string -> list ascii -> Prop :=
| canonical_one (o : string) (c : ascii) :
    ci_equal o "option" = true -> PyChar.is_AE c = true ->
    canonical_list (o ++ " " ++ PyVal.chr c) [c]
| canonical_more (o : string) (c : ascii) (ws t : string) (cs : list ascii) :
    ci_equal o "option" = true -> PyChar.is_AE c = true ->
    all_space ws = true -> canonical_list t cs ->
    canonical_list (o ++ " " ++ PyVal.chr c ++ "," ++ ws ++ t) (c :: cs).

(** [occurs_at s c]: [s] starts with the word option (any case),
    optional blanks and the letter [c] of A-E (any case). *)
Definition occurs_at (s : string) (c : ascii) : Prop :=
  exists o ws post,
    ci_equal o "option" = true /\ all_space ws = true /\ PyChar.is_AE c = true /\
    s = o ++ ws ++ String c post.

(** The three shapes of the specification, for a whole string: a bare
    letter, the word option with optional blanks and a letter, a
    comma-joined list of canonical items. *)
Definition spec_shape (s : string) : bool :=
  Re.fullmatch_letter s ||
  match Re.eat_ci "option" s with
  | Some t => Re.fullmatch_letter (PyStr.lstrip t)
  | None => false
  end ||
  Re.fullmatch_canonical s.

Definition all_ascii : list ascii := map ascii_of_nat (seq 0 256).

(** *** Canonical documents *)

Definition three_digits (s : string) : Prop :=
  String.length s = 3 /\ all_digits s = true.

Definition upper_AE (c : ascii) : bool := PyChar.between 65 69 c.

(** The options present among A to E, in that order. *)
Definition option_entries (vals : list (option string)) : dict string :=
  flat_map (fun lv => match snd lv with Some v => [(fst lv, v)] | None => [] end)
           (combine OPTION_LABELS vals).

Definition canonical_options (o : dict string) : Prop :=
  exists a b c d e,
    o = option_entries [a; b; c; d; e] /\
    Forall (fun v => match v with Some s => trimmed s | None => True end) [a; b; c; d; e].

Definition canonical_answer (a : string) : Prop :=
  a = "" \/
  exists cs, cs <> [] /\ Forall (fun c => upper_AE c = true) cs /\
             a = PyStr.join ", " (map canonical_label cs).

Definition canonical_exam (e : string) : Prop :=
  exists tags, tags <> [] /\ Forall (fun t => In t VALID_EXAMS) tags /\
               e = PyStr.join ", " tags.

(** A question as the canonical schema describes it and as it is
    written out: a three-digit number, trimmed texts, canonical options,
    answer, difficulty and exam tags. *)
Definition canonical_question (q : question) : Prop :=
  three_digits (q_no q) /\
  trimmed (q_text q) /\
  canonical_options (q_options q) /\
  canonical_answer (q_answer q) /\
  trimmed (q_explanation q) /\
  In (q_difficulty q) VALID_DIFFICULTIES /\
  trimmed (q_topic q) /\
  trimmed (q_subtopic q) /\
  canonical_exam (q_exam q).

Definition canonical_kb (std : kb) : Prop :=
  kb_topic std <> "" /\
  trimmed (kb_topic std) /\
  trimmed (kb_subtopic std) /\
  kb_total std = List.length (kb_questions std) /\
  Forall canonical_question (kb_questions std).

(** The same question with its number between double quotes, as
    [standardize_question] stores it. *)
Definition quote_id (q : question) : question :=
  {| q_no := quoted (q_no q);
     q_text := q_text q;
     q_options := q_options q;
     q_answer := q_answer q;
     q_explanation := q_explanation q;
     q_difficulty := q_difficulty q;
     q_topic := q_topic q;
     q_subtopic := q_subtopic q;
     q_exam := q_exam q |}.

Definition quote_ids (std : kb) : kb :=
  {| kb_topic := kb_topic std;
     kb_subtopic := kb_subtopic std;
     kb_total := kb_total std;
     kb_questions := map quote_id (kb_questions std) |}.

Definition digit_chars : list ascii :=
  ["0"; "1"; "2"; "3"; "4"; "5"; "6"; "7"; "8"; "9"]%char.

Definition three_digit_id_ok (a b c : ascii) : bool :=
  let s := String a (String b (String c "")) in
  String.eqb (pad_question_no (VStr s)) s &&
  String.eqb (PyStr.strip_char PyVal.dquote (quoted s)) s.

(** The value of the last entry of [d] whose key, cleaned, is [letter]. *)
Fixpoint last_cleaned (d : dict value) (letter : string) : option value :=
  match d with
  | [] => None
  | (k, v) :: r =>
      match last_cleaned r letter with
      | Some w => Some w
      | None => if String.eqb (clean_key k) letter then Some v else None
      end
  end.

(** Every alias under which [standardize_question] looks a field up. *)
Definition QUESTION_ALIASES : list string :=
  (Q_NO_KEYS ++ Q_TEXT_KEYS ++ Q_OPTIONS_KEYS ++ Q_ANSWER_KEYS ++ Q_EXPL_KEYS ++
   Q_DIFF_KEYS ++ Q_TOPIC_KEYS ++ Q_SUBTOPIC_KEYS ++ Q_EXAM_KEYS)%list.

(** Every alias under which [standardize] looks a field up. *)
Definition DOCUMENT_ALIASES : list string :=
  (TOPIC_KEYS ++ SUBTOPIC_KEYS ++ QUESTIONS_KEYS)%list.

(** A question on which [validate] has nothing to report. *)
Definition complete_question (q : question) : Prop :=
  q_text q <> "" /\ q_options q <> [] /\ q_answer q <> "" /\
  In (q_difficulty q) VALID_DIFFICULTIES.

(** A value as the parser builds it: no mapping, at any depth, holds
    the same key twice. *)
Fixpoint distinct_keys (ks : list key) : Prop :=
  match ks with
  | [] => True
  | k :: r => Forall (fun k' => PyKey.eqb k k' = false) r /\ distinct_keys r
  end.

Fixpoint unique_keys (v : value) : Prop :=
  match v with
  | VDict d =>
      NoDup (map fst d) /\
      fold_right (fun kv P => unique_keys (snd kv) /\ P) True d
  | VMap m =>
      distinct_keys (map fst m) /\
      fold_right (fun kv P => unique_keys (snd kv) /\ P) True m
  | VList l => fold_right (fun x P => unique_keys x /\ P) True l
  | _ => True
  end.

(** ** Difficulty *)

Lemma prefix_cons_inv (a : ascii) (p u : string) :
  String.prefix (String a p) u = true -> exists t, u = String a t.
Proof.
  destruct u as [|b t]; simpl; [discriminate|].
  destruct (ascii_dec a b) as [->|]; [eauto | discriminate].
Qed.

Lemma first_match_some (raw : string) (ds : list string) (d : string) :
  first_match raw ds = Some d -> In d ds /\ ci_prefix d raw = true.
Proof.
  induction ds as [|x ds IH]; simpl; [discriminate|].
  destruct (PyStr.startswith (PyStr.lower raw) (PyStr.lower x)) eqn:E.
  - intros [= <-]. split; [now left | exact E].
  - intros H. destruct (IH H). split; [now right | assumption].
Qed.

Lemma first_match_none (raw : string) (ds : list string) :
  first_match raw ds = None -> forall d, In d ds -> ci_prefix d raw = false.
Proof.
  induction ds as [|x ds IH]; simpl; [contradiction|].
  destruct (PyStr.startswith (PyStr.lower raw) (PyStr.lower x)) eqn:E; [discriminate|].
  intros H d [<-|Hd]; [exact E | now apply IH].
Qed.

(** No input starts with two canonical difficulties: their first letters
    differ. *)
Lemma difficulty_match_unique (raw d d' : string) :
  In d VALID_DIFFICULTIES -> In d' VALID_DIFFICULTIES ->
  ci_prefix d raw = true -> ci_prefix d' raw = true -> d = d'.
Proof.
  unfold ci_prefix, PyStr.startswith.
  intros Hd Hd' H H'.
  simpl in Hd, Hd'.
  destruct Hd as [<-|[<-|[<-|[]]]]; destruct Hd' as [<-|[<-|[<-|[]]]];
    try reflexivity;
    apply prefix_cons_inv in H; destruct H as [t Ht]; rewrite Ht in H';
    simpl in H'; discriminate.
Qed.

(** The result of [normalize_difficulty] does not depend on the order in
    which the set [VALID_DIFFICULTIES] is iterated. *)
Lemma normalize_difficulty_order (order : list string) (raw : value) :
  (forall d, In d order <-> In d VALID_DIFFICULTIES) ->
  normalize_difficulty_in order raw = normalize_difficulty raw.
Proof.
  intros Hset. unfold normalize_difficulty, normalize_difficulty_in.
  destruct (negb (PyVal.truthy raw)); [reflexivity|].
  set (s := PyStr.capitalize (PyStr.strip (PyVal.str raw))).
  destruct (first_match s order) as [d|] eqn:E1;
    destruct (first_match s VALID_DIFFICULTIES) as [d'|] eqn:E2.
  - apply first_match_some in E1, E2. destruct E1 as [I1 M1], E2 as [I2 M2].
    apply Hset in I1. exact (difficulty_match_unique s d d' I1 I2 M1 M2).
  - apply first_match_some in E1. destruct E1 as [I1 M1]. apply Hset in I1.
    rewrite (first_match_none _ _ E2 d I1) in M1. discriminate.
  - apply first_match_some in E2. destruct E2 as [I2 M2]. apply Hset in I2.
    rewrite (first_match_none _ _ E1 d' I2) in M2. discriminate.
  - reflexivity.
Qed.

Lemma normalize_difficulty_valid (raw : value) :
  In (normalize_difficulty raw) VALID_DIFFICULTIES.
Proof.
  unfold normalize_difficulty, normalize_difficulty_in.
  destruct (negb (PyVal.truthy raw)); [simpl; tauto|].
  destruct (first_match _ _) as [d|] eqn:E.
  - now apply first_match_some in E.
  - simpl; tauto.
Qed.

(** C5, as the code has it.  [normalize_difficulty] is total and its
    result is always one of Easy, Medium, Hard.  A falsy input gives
    Medium.  For a truthy input, the trimmed and capitalized text is
    compared with the canonical values: the result is the canonical value
    [D] exactly when [D] is a case-insensitive prefix of that text (the
    canonical value is the prefix, the text may continue after it), or
    when [D] is Medium and no canonical value is such a prefix. *)
Theorem normalize_difficulty_spec (raw : value) :
  In (normalize_difficulty raw) VALID_DIFFICULTIES /\
  (PyVal.truthy raw = false -> normalize_difficulty raw = "Medium") /\
  (PyVal.truthy raw = true ->
   forall D, In D VALID_DIFFICULTIES ->
     (normalize_difficulty raw = D <->
      ci_prefix D (processed_difficulty raw) = true \/
      (D = "Medium" /\
       forall D', In D' VALID_DIFFICULTIES ->
                  ci_prefix D' (processed_difficulty raw) = false))).
Proof.
  split; [apply normalize_difficulty_valid|].
  unfold normalize_difficulty, normalize_difficulty_in, processed_difficulty.
  split.
  - intros ->. reflexivity.
  - intros ->. simpl negb. cbv iota.
    set (s := PyStr.capitalize (PyStr.strip (PyVal.str raw))).
    intros D HD.
    destruct (first_match s VALID_DIFFICULTIES) as [d|] eqn:E.
    + destruct (first_match_some _ _ _ E) as [Id Md]. split.
      * intros <-. now left.
      * intros [M|[-> Hnone]].
        -- exact (difficulty_match_unique s d D Id HD Md M).
        -- rewrite (Hnone d Id) in Md. discriminate.
    + split.
      * intros <-. right. split; [reflexivity|].
        exact (first_match_none _ _ E).
      * intros [M|[-> _]]; [|reflexivity].
        rewrite (first_match_none _ _ E D HD) in M. discriminate.
Qed.

(** C5 as worded fails: the text E is a case-insensitive prefix of Easy,
    yet the result is Medium; and a text that merely starts with a
    canonical value is mapped to it although it is no prefix of it. *)
Lemma normalize_difficulty_prefix_direction :
  PyVal.truthy (VStr "E") = true /\
  processed_difficulty (VStr "E") = "E" /\
  ci_prefix "E" "Easy" = true /\
  normalize_difficulty (VStr "E") = "Medium" /\
  processed_difficulty (VStr "hardest") = "Hardest" /\
  ci_prefix "Hardest" "Hard" = false /\
  normalize_difficulty (VStr "hardest") = "Hard".
Proof. repeat split; reflexivity. Qed.

(** ** The transformer: shape of its result and its failures *)

Lemma standardize_questions_length (l : list value) :
  forall idx qs, standardize_questions l idx = Ok qs -> List.length qs = List.length l.
Proof.
  induction l as [|v l IH]; simpl; intros idx qs H.
  - injection H as <-. reflexivity.
  - destruct (standardize_question v idx) as [q|e]; simpl in H; [|discriminate].
    destruct (standardize_questions l (S idx)) as [qs'|e] eqn:E; simpl in H; [|discriminate].
    injection H as <-. simpl. f_equal. eapply IH; eassumption.
Qed.

Lemma standardize_questions_forall (P : question -> Prop) :
  (forall v idx q, standardize_question v idx = Ok q -> P q) ->
  forall l idx qs, standardize_questions l idx = Ok qs -> Forall P qs.
Proof.
  intros HP. induction l as [|v l IH]; simpl; intros idx qs H.
  - injection H as <-. constructor.
  - destruct (standardize_question v idx) as [q|e] eqn:Eq; simpl in H; [|discriminate].
    destruct (standardize_questions l (S idx)) as [qs'|e] eqn:E; simpl in H; [|discriminate].
    injection H as <-. constructor; [eapply HP | eapply IH]; eassumption.
Qed.

Lemma str_keys_ok (m : list (key * value)) :
  forallb (fun kv => PyVal.is_str_key (fst kv)) m = true <-> exists d, str_keys m = Ok d.
Proof.
  induction m as [|[k v] m IH]; simpl.
  - split; eauto.
  - destruct k; simpl; try (split; [discriminate | intros [d H]; discriminate]).
    rewrite IH. split.
    + intros [d ->]. simpl. eauto.
    + intros [d H]. destruct (str_keys m); simpl in H; [eauto | discriminate].
Qed.

(** The mappings whose fields can be resolved are those whose keys are
    all strings. *)
Lemma string_keyed_fields (v : value) :
  string_keyed v = true <-> exists d, mapping_fields v = Ok d.
Proof.
  destruct v; simpl; try (split; [discriminate | intros [d H]; discriminate]).
  - split; eauto.
  - apply str_keys_ok.
Qed.




(** Taking [mapping_fields] once is the same as the calls one by one. *)
Lemma standardize_question_calls_eq (raw_q : value) (idx : nat) :
  standardize_question_calls raw_q idx = standardize_question raw_q idx.
Proof.
  unfold standardize_question_calls, standardize_question, first_value_of, q_no_source.
  destruct (mapping_fields raw_q); reflexivity.
Qed.

Lemma standardize_calls_eq (data : value) :
  standardize_calls data = standardize_value data.
Proof.
  unfold standardize_calls, standardize_value, standardize, first_value_of.
  destruct (mapping_fields data); reflexivity.
Qed.

Lemma standardize_question_mapping (v : value) (idx : nat) :
  string_keyed v = true -> exists q, standardize_question v idx = Ok q.
Proof.
  intros H. apply string_keyed_fields in H. destruct H as [d Hd].
  unfold standardize_question. rewrite Hd. simpl. eauto.
Qed.


Lemma standardize_question_ok (v : value) (idx : nat) (q : question) :
  standardize_question v idx = Ok q -> string_keyed v = true.
Proof.
  intros H. apply string_keyed_fields. unfold standardize_question in H.
  destruct (mapping_fields v) as [d|e]; simpl in H; [eauto | discriminate].
Qed.

Lemma standardize_questions_total (l : list value) :
  Forall (fun v => string_keyed v = true) l ->
  forall idx, exists qs, standardize_questions l idx = Ok qs.
Proof.
  induction 1 as [|v l Hv _ IH]; intros idx; simpl.
  - eauto.
  - destruct (standardize_question_mapping v idx Hv) as [q ->].
    destruct (IH (S idx)) as [qs ->]. simpl. eauto.
Qed.

Lemma standardize_questions_ok (l : list value) :
  forall idx qs, standardize_questions l idx = Ok qs ->
  Forall (fun v => string_keyed v = true) l.
Proof.
  induction l as [|v l IH]; simpl; intros idx qs H; [constructor|].
  destruct (standardize_question v idx) as [q|e] eqn:Eq; simpl in H; [|discriminate].
  destruct (standardize_questions l (S idx)) as [qs'|e] eqn:E; simpl in H; [|discriminate].
  constructor; [eapply standardize_question_ok | eapply IH]; eassumption.
Qed.


(** The question at each position of the result comes from the record at
    that position, transformed with that position as its index. *)
Lemma standardize_questions_nth (l : list value) :
  forall idx qs i v, standardize_questions l idx = Ok qs -> nth_error l i = Some v ->
  exists q, nth_error qs i = Some q /\ standardize_question v (idx + i) = Ok q.
Proof.
  induction l as [|w l IH]; intros idx qs i v H Hi; [destruct i; discriminate|].
  simpl in H.
  destruct (standardize_question w idx) as [q|e] eqn:Eq; simpl in H; [|discriminate].
  destruct (standardize_questions l (S idx)) as [qs'|e] eqn:E; simpl in H; [|discriminate].
  injection H as <-. destruct i as [|i]; simpl in Hi.
  - injection Hi as <-. exists q. rewrite Nat.add_0_r. split; [reflexivity | assumption].
  - destruct (IH _ _ _ _ E Hi) as (q' & Hq & Hs). exists q'. split; [assumption|].
    now replace (idx + S i)%nat with (S idx + i)%nat by lia.
Qed.

(** What a successful run of [standardize] went through. *)
Lemma standardize_ok_inv (data : dict value) (std : kb) :
  standardize data = Ok std ->
  exists l,
    PyVal.or_else (_first_value data QUESTIONS_KEYS) (VList []) = VList l /\
    standardize_questions l 0 = Ok (kb_questions std) /\
    kb_total std = List.length (kb_questions std).
Proof.
  unfold standardize.
  destruct (PyVal.or_else (_first_value data QUESTIONS_KEYS) (VList [])) as [| | | |l| |];
    try discriminate.
  destruct (standardize_questions l 0) as [qs|e] eqn:E; simpl; [|discriminate].
  intros [= <-]. simpl. eauto.
Qed.

Lemma or_else_list (v : value) (l : list value) :
  v = VList l -> PyVal.or_else v (VList []) = VList l.
Proof. intros ->. destruct l; reflexivity. Qed.










(** ** The validator *)

Lemma validate_question_app (acc : list string) (q : question) :
  validate_question acc q = (acc ++ validate_question [] q)%list.
Proof.
  unfold validate_question, append_issue.
  destruct (PyStr.is_empty (q_text q)), (q_options q), (PyStr.is_empty (q_answer q)),
    (negb (valid_difficulty (q_difficulty q)));
    simpl; repeat rewrite <- app_assoc; simpl; try rewrite app_nil_r; reflexivity.
Qed.

Lemma validate_fold_app (qs : list question) :
  forall acc, fold_left validate_question qs acc = (acc ++ validate_questions qs)%list.
Proof.
  unfold validate_questions.
  induction qs as [|q qs IH]; intros acc; simpl.
  - now rewrite app_nil_r.
  - rewrite (IH (validate_question acc q)), (IH (validate_question [] q)).
    rewrite validate_question_app, app_assoc. reflexivity.
Qed.

Lemma validate_questions_cons (q : question) (qs : list question) :
  validate_questions (q :: qs) = (validate_question [] q ++ validate_questions qs)%list.
Proof. unfold validate_questions at 1. simpl. apply validate_fold_app. Qed.

Lemma validate_questions_app (a b : list question) :
  validate_questions (a ++ b) = (validate_questions a ++ validate_questions b)%list.
Proof.
  induction a as [|q a IH]; simpl; [reflexivity|].
  rewrite !validate_questions_cons, IH, app_assoc. reflexivity.
Qed.

Lemma validate_questions_in (i : string) (qs : list question) :
  In i (validate_questions qs) -> exists q, In q qs /\ In i (validate_question [] q).
Proof.
  induction qs as [|q qs IH]; [contradiction|].
  rewrite validate_questions_cons. intros H. apply in_app_or in H. destruct H as [H|H].
  - exists q. split; [now left | assumption].
  - destruct (IH H) as (q' & Hq' & Hi). exists q'. split; [now right | assumption].
Qed.

Lemma is_empty_false (s : string) : s <> "" -> PyStr.is_empty s = false.
Proof. destruct s; [congruence | reflexivity]. Qed.

(** C9.  A question with a text, an answer, no option and the difficulty
    Extreme contributes exactly two issues, both carrying its number: no
    options found, then invalid difficulty; they stand in the result
    between the issues of the questions before it and of those after it.
    The dictionary handed to [validate] is the same after the call. *)
Theorem validate_extreme_question (std : kb) (pre post : list question) (q : question) :
  kb_questions std = (pre ++ q :: post)%list ->
  q_text q <> "" ->
  q_answer q <> "" ->
  q_options q = [] ->
  q_difficulty q = "Extreme" ->
  validate_question [] q =
    ["Q" ++ q_no q ++ ": no options found";
     "Q" ++ q_no q ++ ": invalid difficulty 'Extreme'"] /\
  validate std =
    (validate_questions pre ++ validate_question [] q ++ validate_questions post)%list /\
  snd (validate_st std) = std.
Proof.
  intros Hqs Ht Ha Ho Hd. split; [|split].
  - unfold validate_question.
    rewrite (is_empty_false _ Ht), (is_empty_false _ Ha), Ho, Hd. reflexivity.
  - unfold validate, validate_st. simpl fst.
    change (validate_questions (kb_questions std) =
            (validate_questions pre ++ validate_question [] q ++ validate_questions post)%list).
    rewrite Hqs, validate_questions_app, validate_questions_cons. reflexivity.
  - reflexivity.
Qed.

Lemma validate_extreme_question_witness :
  let q := {| q_no := "007"; q_text := "Which?"; q_options := [];
              q_answer := "option A"; q_explanation := ""; q_difficulty := "Extreme";
              q_topic := ""; q_subtopic := ""; q_exam := "Core" |} in
  let std := {| kb_topic := "T"; kb_subtopic := ""; kb_total := 1; kb_questions := [q] |} in
  validate_question [] q =
    ["Q007: no options found"; "Q007: invalid difficulty 'Extreme'"] /\
  validate std = ["Q007: no options found"; "Q007: invalid difficulty 'Extreme'"] /\
  snd (validate_st std) = std.
Proof.
  intros q std.
  apply (validate_extreme_question std [] [] q).
  - reflexivity.
  - discriminate.
  - discriminate.
  - reflexivity.
  - reflexivity.
Defined.

Lemma last_char_app (a b : string) : b <> "" -> last_char (a ++ b) = last_char b.
Proof.
  intros Hb. induction a as [|c a IH]; simpl; [reflexivity|].
  rewrite IH. destruct b as [|d b]; [congruence|].
  simpl. destruct (last_char b); reflexivity.
Qed.

Lemma last_char_snoc (a : string) (c : ascii) : last_char (a ++ String c "") = Some c.
Proof. rewrite last_char_app; [reflexivity | discriminate]. Qed.

Lemma last_char_issue (qno suffix : string) :
  suffix <> "" -> last_char ("Q" ++ qno ++ suffix) = last_char suffix.
Proof.
  intros H. change ("Q" ++ qno ++ suffix) with ((String "Q" qno) ++ suffix).
  now apply last_char_app.
Qed.

(** An issue other than the one about the difficulty never reads as one
    about the difficulty: the latter ends with a quote. *)
Lemma issue_forms_differ (q : question) (i : string) :
  valid_difficulty (q_difficulty q) = true ->
  In i (validate_question [] q) ->
  last_char i <> Some "'"%char.
Proof.
  intros Hv. unfold validate_question, append_issue. rewrite Hv.
  destruct (PyStr.is_empty (q_text q)), (q_options q), (PyStr.is_empty (q_answer q));
    cbn [negb app In]; intros H; repeat (destruct H as [<-|H]); try contradiction;
    rewrite last_char_issue by discriminate; simpl; discriminate.
Qed.

Lemma valid_difficulty_in (d : string) :
  In d VALID_DIFFICULTIES -> valid_difficulty d = true.
Proof.
  simpl. intros [<-|[<-|[<-|[]]]]; reflexivity.
Qed.

Lemma standardize_question_difficulty (v : value) (idx : nat) (q : question) :
  standardize_question v idx = Ok q -> In (q_difficulty q) VALID_DIFFICULTIES.
Proof.
  unfold standardize_question. destruct (mapping_fields v) as [d|e]; simpl; [|discriminate].
  intros [= <-]. simpl. apply normalize_difficulty_valid.
Qed.

(** C10.  Every question of a knowledge base returned by [standardize]
    has one of the three canonical difficulties, and no issue that
    [validate] reports on it is an invalid-difficulty issue. *)
Theorem standardize_difficulty_valid (data : dict value) (std : kb) :
  standardize data = Ok std ->
  Forall (fun q => In (q_difficulty q) VALID_DIFFICULTIES) (kb_questions std) /\
  forall issue qno d,
    In issue (validate std) ->
    issue <> "Q" ++ qno ++ ": invalid difficulty '" ++ d ++ "'".
Proof.
  intros H. destruct (standardize_ok_inv _ _ H) as (l & _ & Hqs & _).
  assert (HF : Forall (fun q => In (q_difficulty q) VALID_DIFFICULTIES) (kb_questions std)).
  { eapply standardize_questions_forall; [|exact Hqs].
    intros v idx q. apply standardize_question_difficulty. }
  split; [exact HF|].
  intros issue qno d Hin Heq.
  unfold validate, validate_st in Hin. simpl in Hin.
  apply validate_questions_in in Hin. destruct Hin as (q & Hq & Hi).
  rewrite Forall_forall in HF.
  apply (issue_forms_differ q issue (valid_difficulty_in _ (HF q Hq)) Hi).
  rewrite Heq.
  rewrite last_char_issue by discriminate.
  change (": invalid difficulty '" ++ d ++ "'") with (": invalid difficulty '" ++ (d ++ "'")).
  rewrite last_char_app by (destruct d; discriminate).
  apply last_char_snoc.
Qed.

Lemma standardize_difficulty_valid_witness :
  let std := {| kb_topic := "X"; kb_subtopic := ""; kb_total := 1;
                kb_questions :=
                  [{| q_no := quoted "001"; q_text := "1+1?"; q_options := [];
                      q_answer := "option A"; q_explanation := "";
                      q_difficulty := "Medium"; q_topic := ""; q_subtopic := "";
                      q_exam := "Core" |}] |} in
  Forall (fun q => In (q_difficulty q) VALID_DIFFICULTIES) (kb_questions std) /\
  forall issue qno d,
    In issue (validate std) ->
    issue <> "Q" ++ qno ++ ": invalid difficulty '" ++ d ++ "'".
Proof.
  intros std.
  apply (standardize_difficulty_valid
           [("Topic", VStr "X");
            ("questions", VList [VDict [("q", VStr "1+1?"); ("answer", VStr "A");
                                        ("difficulty", VStr "Extreme")]])] std).
  reflexivity.
Defined.

(** ** The field resolver *)

Lemma get_set_same {A} (m : dict A) (k : string) (v : A) :
  PyDict.get (PyDict.set m k v) k = Some v.
Proof.
  induction m as [|[k' v'] m IH]; simpl.
  - now rewrite String.eqb_refl.
  - destruct (String.eqb k' k) eqn:E; simpl; rewrite E; [reflexivity | exact IH].
Qed.

Lemma get_set_other {A} (m : dict A) (k k' : string) (v : A) :
  k <> k' -> PyDict.get (PyDict.set m k v) k' = PyDict.get m k'.
Proof.
  intros Hne. induction m as [|[k0 v0] m IH]; simpl.
  - apply String.eqb_neq in Hne. now rewrite Hne.
  - destruct (String.eqb k0 k) eqn:E; simpl.
    + apply String.eqb_eq in E. subst k0.
      apply String.eqb_neq in Hne. now rewrite Hne.
    + destruct (String.eqb k0 k'); [reflexivity | exact IH].
Qed.

Lemma get_lower_fold (d : dict value) (k : string) :
  forall m,
    PyDict.get (fold_left (fun m kv => PyDict.set m (fold_key (fst kv)) (snd kv)) d m) k =
    match last_bound d k with Some v => Some v | None => PyDict.get m k end.
Proof.
  induction d as [|[k' v] d IH]; intros m; simpl; [reflexivity|].
  rewrite IH. destruct (last_bound d k); [reflexivity|].
  destruct (String.eqb (fold_key k') k) eqn:E.
  - apply String.eqb_eq in E. subst k. apply get_set_same.
  - apply String.eqb_neq in E. now apply get_set_other.
Qed.

(** The dictionary built by [_first_value] maps a folded key to the value
    of the last entry with that folded key. *)
Lemma get_lower_map (d : dict value) (k : string) :
  PyDict.get (lower_map d) k = last_bound d k.
Proof.
  unfold lower_map. rewrite get_lower_fold. destruct (last_bound d k); reflexivity.
Qed.

Lemma last_bound_none (d : dict value) (a : string) :
  last_bound d (fold_key a) = None <-> unbound d a.
Proof.
  unfold unbound. induction d as [|[k v] d IH]; simpl.
  - split; [constructor | reflexivity].
  - destruct (last_bound d (fold_key a)) eqn:E.
    + split; [discriminate|]. intros H. inversion H; subst.
      apply IH in H3. discriminate.
    + destruct (String.eqb (fold_key k) (fold_key a)) eqn:Ek.
      * split; [discriminate|]. intros H. inversion H; subst. simpl in H2.
        apply String.eqb_eq in Ek. contradiction.
      * split; [|reflexivity]. intros _. constructor.
        -- simpl. now apply String.eqb_neq.
        -- now apply IH.
Qed.

Lemma last_bound_some (d : dict value) (a : string) (v : value) :
  last_bound d (fold_key a) = Some v <-> binds d a v.
Proof.
  unfold binds. revert v. induction d as [|[k w] d IH]; intros v; simpl.
  - split; [discriminate|]. intros (pre & k & post & H & _). destruct pre; discriminate.
  - destruct (last_bound d (fold_key a)) as [u|] eqn:E.
    + split.
      * intros [= ->]. destruct (proj1 (IH v) eq_refl) as (pre & k' & post & -> & Hk & Hp).
        exists ((k, w) :: pre), k', post. auto.
      * intros (pre & k' & post & Hd & Hk & Hp). destruct pre as [|x pre]; simpl in Hd.
        -- inversion Hd; subst. apply last_bound_none in Hp. congruence.
        -- inversion Hd; subst. apply (proj2 (IH v)). eauto 6.
    + pose proof (proj1 (last_bound_none d a) E) as Eu. unfold unbound in Eu.
      destruct (String.eqb (fold_key k) (fold_key a)) eqn:Ek.
      * apply String.eqb_eq in Ek. split.
        -- intros [= ->]. exists [], k, d. auto.
        -- intros (pre & k' & post & Hd & Hk & Hp). destruct pre as [|x pre]; simpl in Hd.
           ++ inversion Hd; subst. reflexivity.
           ++ inversion Hd; subst.
              rewrite Forall_app in Eu. destruct Eu as [_ Eu]. inversion Eu; subst.
              simpl in *. contradiction.
      * apply String.eqb_neq in Ek. split; [discriminate|].
        intros (pre & k' & post & Hd & Hk & Hp). destruct pre as [|x pre]; simpl in Hd.
        -- inversion Hd; subst. contradiction.
        -- inversion Hd; subst.
           rewrite Forall_app in Eu. destruct Eu as [_ Eu]. inversion Eu; subst.
           simpl in *. contradiction.
Qed.

Lemma get_or_none_skip (d : dict value) (a : string) :
  unbound d a \/ binds d a VNone -> get_or_none (lower_map d) (fold_key a) = VNone.
Proof.
  unfold get_or_none. rewrite get_lower_map. intros [H|H].
  - apply last_bound_none in H. now rewrite H.
  - apply last_bound_some in H. now rewrite H.
Qed.

Lemma first_in_skip (d : dict value) (pre rest : list string) :
  (forall a, In a pre -> unbound d a \/ binds d a VNone) ->
  first_in (lower_map d) (pre ++ rest) = first_in (lower_map d) rest.
Proof.
  induction pre as [|a pre IH]; intros H; simpl; [reflexivity|].
  rewrite (get_or_none_skip d a) by (apply H; now left).
  apply IH. intros b Hb. apply H. now right.
Qed.

Lemma first_in_none (d : dict value) (keys : list string) :
  first_in (lower_map d) keys = VNone ->
  forall a, In a keys -> unbound d a \/ binds d a VNone.
Proof.
  induction keys as [|k keys IH]; simpl; [contradiction|].
  unfold get_or_none at 1. rewrite get_lower_map.
  destruct (last_bound d (fold_key k)) as [v|] eqn:E.
  - destruct v; try discriminate.
    intros H a [<-|Ha]; [right; now apply last_bound_some | now apply IH].
  - intros H a [<-|Ha]; [left; now apply last_bound_none | now apply IH].
Qed.

Lemma last_bound_in (d : dict value) (k : string) (v : value) :
  last_bound d k = Some v -> exists k', In (k', v) d /\ fold_key k' = k.
Proof.
  induction d as [|[k0 w] d IH]; simpl; [discriminate|].
  destruct (last_bound d k) as [u|].
  - intros [= ->]. destruct (IH eq_refl) as (k' & Hin & Hk). exists k'. auto.
  - destruct (String.eqb (fold_key k0) k) eqn:E; [|discriminate].
    intros [= ->]. apply String.eqb_eq in E. exists k0. auto.
Qed.

Lemma last_bound_not_in (d : dict value) (k : string) :
  last_bound d k = None -> forall k' v, In (k', v) d -> fold_key k' <> k.
Proof.
  induction d as [|[k0 w] d IH]; simpl; [contradiction|].
  destruct (last_bound d k) as [u|]; [discriminate|].
  destruct (String.eqb (fold_key k0) k) eqn:E; [discriminate|].
  intros _ k' v [[= <- <-]|Hin]; [now apply String.eqb_neq | now apply (IH eq_refl k' v)].
Qed.

Lemma in_nodup_last_bound (d : dict value) (k' : string) (v : value) :
  NoDup (map (fun kv => fold_key (fst kv)) d) ->
  In (k', v) d -> last_bound d (fold_key k') = Some v.
Proof.
  induction d as [|[k0 w] d IH]; simpl; [contradiction|].
  intros Hnd H. inversion Hnd as [|? ? Hnot Hnd']; subst.
  destruct H as [[= -> ->]|Hin].
  - destruct (last_bound d (fold_key k')) as [u|] eqn:E.
    + apply last_bound_in in E. destruct E as (k1 & Hin1 & Hk1).
      exfalso. apply Hnot. rewrite <- Hk1.
      change (fold_key k1) with ((fun kv : string * value => fold_key (fst kv)) (k1, u)).
      now apply in_map.
    + now rewrite String.eqb_refl.
  - now rewrite (IH Hnd' Hin).
Qed.

(** Without two keys folding to the same key, the order of the entries
    does not matter. *)
Lemma last_bound_permutation (d d' : dict value) (k : string) :
  Permutation d d' ->
  NoDup (map (fun kv => fold_key (fst kv)) d) ->
  last_bound d' k = last_bound d k.
Proof.
  intros Hp Hnd.
  assert (Hnd' : NoDup (map (fun kv => fold_key (fst kv)) d')).
  { eapply Permutation_NoDup; [|exact Hnd]. now apply Permutation_map. }
  destruct (last_bound d k) as [v|] eqn:E.
  - apply last_bound_in in E. destruct E as (k' & Hin & <-).
    apply in_nodup_last_bound; [assumption|]. eapply Permutation_in; eassumption.
  - destruct (last_bound d' k) as [v|] eqn:E'; [|reflexivity].
    apply last_bound_in in E'. destruct E' as (k' & Hin & Hk).
    exfalso. apply (last_bound_not_in d k E k' v); [|assumption].
    eapply Permutation_in; [apply Permutation_sym|]; eassumption.
Qed.

(** C6, as the code has it.  The resolver returns the value of the first
    alias, in priority order, that the document binds to a value other
    than null: the entry consulted for an alias is the last one whose
    key equals the alias after lower-casing and trimming.  A bound value
    that is falsy but not null (empty string, zero, false, empty list or
    mapping) is returned.  The result is null exactly when every alias
    is unbound or bound to null.  When no two keys of the document fold
    to the same key, the result does not depend on the order of its
    entries. *)
Theorem first_value_spec (d : dict value) (keys : list string) :
  (forall pre alias post v,
      keys = (pre ++ alias :: post)%list ->
      (forall a, In a pre -> unbound d a \/ binds d a VNone) ->
      binds d alias v -> v <> VNone ->
      _first_value d keys = v) /\
  (_first_value d keys = VNone <->
   forall a, In a keys -> unbound d a \/ binds d a VNone) /\
  (forall d',
      Permutation d d' ->
      NoDup (map (fun kv => fold_key (fst kv)) d) ->
      _first_value d' keys = _first_value d keys).
Proof.
  unfold _first_value. split; [|split].
  - intros pre alias post v -> Hpre Hb Hv.
    rewrite first_in_skip by assumption. simpl.
    unfold get_or_none. rewrite get_lower_map.
    apply last_bound_some in Hb. rewrite Hb. destruct v; congruence.
  - split; [apply first_in_none|].
    intros H. rewrite <- (app_nil_r keys). now rewrite first_in_skip.
  - intros d' Hp Hnd. induction keys as [|k keys IH]; simpl; [reflexivity|].
    unfold get_or_none. rewrite !get_lower_map, (last_bound_permutation d d' _ Hp Hnd).
    now rewrite IH.
Qed.

(** C6 as worded fails: a key that is present with a null value is
    passed over for a later alias; a key bound to null alone gives the
    same result as no key at all; and two keys that fold to the same key
    make the result depend on the order of the document. *)
Lemma first_value_null_and_order :
  _first_value [("Topic Name", VNone); ("topic", VStr "X")] TOPIC_KEYS = VStr "X" /\
  _first_value [("Topic Name", VNone)] TOPIC_KEYS = _first_value [] TOPIC_KEYS /\
  _first_value [("Topic", VStr "A"); ("topic", VStr "B")] TOPIC_KEYS = VStr "B" /\
  _first_value [("topic", VStr "B"); ("Topic", VStr "A")] TOPIC_KEYS = VStr "A" /\
  _first_value [("Topic", VStr "")] TOPIC_KEYS = VStr "".
Proof. repeat split; reflexivity. Qed.

(** ** Trimming *)

Lemma lstrip_id (s : string) :
  (forall c, first_char s = Some c -> PyChar.is_space c = false) -> PyStr.lstrip s = s.
Proof.
  destruct s as [|c t]; simpl; [reflexivity|].
  intros H. now rewrite (H c eq_refl).
Qed.

Lemma rstrip_id (s : string) :
  (forall c, last_char s = Some c -> PyChar.is_space c = false) -> PyStr.rstrip s = s.
Proof.
  induction s as [|a t IH]; simpl; [reflexivity|].
  intros H. destruct (last_char t) as [d|] eqn:E.
  - rewrite IH by exact H. destruct t; [discriminate|]. simpl.
    now rewrite andb_false_r.
  - destruct t as [|b t]; [|simpl in E; destruct (last_char t); discriminate].
    simpl. now rewrite (H a eq_refl).
Qed.

Lemma strip_id (s : string) :
  (forall c, first_char s = Some c -> PyChar.is_space c = false) ->
  (forall c, last_char s = Some c -> PyChar.is_space c = false) ->
  trimmed s.
Proof.
  intros Hf Hl. unfold trimmed, PyStr.strip. rewrite (lstrip_id s Hf). now apply rstrip_id.
Qed.

Lemma digit_not_space (c : ascii) : PyChar.is_digit c = true -> PyChar.is_space c = false.
Proof.
  destruct c as [b0 b1 b2 b3 b4 b5 b6 b7].
  destruct b0, b1, b2, b3, b4, b5, b6, b7; try discriminate; reflexivity.
Qed.

Lemma digit_not_cspace (c : ascii) : PyChar.is_digit c = true -> PyChar.is_cspace c = false.
Proof.
  destruct c as [b0 b1 b2 b3 b4 b5 b6 b7].
  destruct b0, b1, b2, b3, b4, b5, b6, b7; try discriminate; reflexivity.
Qed.

Lemma all_digits_last (s : string) (c : ascii) :
  all_digits s = true -> last_char s = Some c -> PyChar.is_digit c = true.
Proof.
  induction s as [|a t IH]; simpl; [discriminate|].
  intros H. apply andb_prop in H. destruct H as [Ha Ht].
  destruct (last_char t) as [d|]; intros [= <-]; [now apply IH | assumption].
Qed.

Lemma all_digits_trimmed (s : string) : all_digits s = true -> trimmed s.
Proof.
  intros H. apply strip_id.
  - destruct s as [|a t]; simpl; [discriminate|]. intros c [= <-].
    simpl in H. apply andb_prop in H. now apply digit_not_space.
  - intros c Hc. apply digit_not_space. eapply all_digits_last; eassumption.
Qed.

(** ** Decimal numerals: [int(str(n))] is [n] *)

Lemma string_of_uint_digits (u : Decimal.uint) :
  all_digits (NilEmpty.string_of_uint u) = true.
Proof. induction u; simpl; auto. Qed.

Lemma int_digits_uint (u : Decimal.uint) :
  forall acc b,
    (u <> Decimal.Nil \/ b = true) ->
    PyStr.int_digits acc b (NilEmpty.string_of_uint u) = Some (uint_val u acc).
Proof.
  induction u; intros acc b H; simpl;
    try (apply IHu; now right).
  destruct H as [H| ->]; [congruence | reflexivity].
Qed.

Lemma of_uint_cons (u : Decimal.uint) :
  (Pos.of_uint (Decimal.D0 u) = Pos.of_uint u + 0 * 10 ^ DecimalPos.Unsigned.usize u /\
   Pos.of_uint (Decimal.D1 u) = Pos.of_uint u + 1 * 10 ^ DecimalPos.Unsigned.usize u /\
   Pos.of_uint (Decimal.D2 u) = Pos.of_uint u + 2 * 10 ^ DecimalPos.Unsigned.usize u /\
   Pos.of_uint (Decimal.D3 u) = Pos.of_uint u + 3 * 10 ^ DecimalPos.Unsigned.usize u /\
   Pos.of_uint (Decimal.D4 u) = Pos.of_uint u + 4 * 10 ^ DecimalPos.Unsigned.usize u /\
   Pos.of_uint (Decimal.D5 u) = Pos.of_uint u + 5 * 10 ^ DecimalPos.Unsigned.usize u /\
   Pos.of_uint (Decimal.D6 u) = Pos.of_uint u + 6 * 10 ^ DecimalPos.Unsigned.usize u /\
   Pos.of_uint (Decimal.D7 u) = Pos.of_uint u + 7 * 10 ^ DecimalPos.Unsigned.usize u /\
   Pos.of_uint (Decimal.D8 u) = Pos.of_uint u + 8 * 10 ^ DecimalPos.Unsigned.usize u /\
   Pos.of_uint (Decimal.D9 u) = Pos.of_uint u + 9 * 10 ^ DecimalPos.Unsigned.usize u)%N.
Proof.
  rewrite !DecimalPos.Unsigned.of_uint_alt. unfold Decimal.rev. simpl Decimal.revapp.
  rewrite !DecimalPos.Unsigned.of_lu_revapp. simpl DecimalPos.Unsigned.of_lu.
  repeat split; rewrite ?N.mul_0_l, ?N.add_0_r; reflexivity.
Qed.

Lemma uint_val_spec (u : Decimal.uint) :
  forall acc,
    uint_val u acc =
    (acc * 10 ^ Z.of_N (DecimalPos.Unsigned.usize u) + Z.of_N (Pos.of_uint u))%Z.
Proof.
  induction u; intros acc;
    [ simpl; lia | .. ];
    cbn [uint_val]; rewrite IHu;
    destruct (of_uint_cons u) as (E0 & E1 & E2 & E3 & E4 & E5 & E6 & E7 & E8 & E9);
    simpl DecimalPos.Unsigned.usize;
    rewrite N2Z.inj_succ, Z.pow_succ_r by lia;
    first [rewrite E0 | rewrite E1 | rewrite E2 | rewrite E3 | rewrite E4
          | rewrite E5 | rewrite E6 | rewrite E7 | rewrite E8 | rewrite E9];
    rewrite N2Z.inj_add, N2Z.inj_mul, N2Z.inj_pow; simpl Z.of_N; ring.
Qed.

Lemma nzhead_head (u : Decimal.uint) :
  match Decimal.nzhead u with Decimal.D0 _ => False | _ => True end.
Proof. induction u; simpl; auto. Qed.

(** The numeral of a positive number is not empty and does not start
    with a zero. *)
Lemma to_uint_head (p : positive) :
  match Pos.to_uint p with Decimal.Nil | Decimal.D0 _ => False | _ => True end.
Proof.
  pose proof (DecimalPos.Unsigned.to_of (Pos.to_uint p)) as H.
  rewrite DecimalPos.Unsigned.of_to in H. simpl in H.
  pose proof (DecimalPos.Unsigned.to_uint_nonzero p) as Hz.
  pose proof (nzhead_head (Pos.to_uint p)) as Hh.
  unfold Decimal.unorm in H.
  destruct (Decimal.nzhead (Pos.to_uint p)) eqn:E; rewrite H in *;
    first [ congruence | contradiction | exact I ].
Qed.

Lemma to_Z_pos (p : positive) :
  let s := NilEmpty.string_of_uint (Pos.to_uint p) in
  PyStr.strip s = s /\ PyStr.lstrip_char "0" s = s /\ PyStr.is_empty s = false /\
  PyStr.skip_cspace s = s /\ PyStr.int_digits 0 false s = Some (Z.pos p) /\
  (forall t, s <> String "+" t) /\ (forall t, s <> String "-" t) /\
  NilZero.string_of_uint (Pos.to_uint p) = s.
Proof.
  intros s. subst s.
  pose proof (to_uint_head p) as Hh.
  assert (Hv : PyStr.int_digits 0 false (NilEmpty.string_of_uint (Pos.to_uint p)) = Some (Z.pos p)).
  { rewrite int_digits_uint by (left; apply DecimalPos.Unsigned.to_uint_nonnil).
    rewrite uint_val_spec, DecimalPos.Unsigned.of_to. simpl. reflexivity. }
  split; [apply all_digits_trimmed, string_of_uint_digits|].
  destruct (Pos.to_uint p); try contradiction; repeat split; try reflexivity;
    try exact Hv; intros t; discriminate.
Qed.

Lemma question_int_of_Z (z : Z) : question_int (VInt z) = Some z.
Proof.
  unfold question_int. simpl PyVal.str. unfold PyStr.of_Z.
  destruct z as [|p|p]; [reflexivity| |].
  - simpl Z.to_int. simpl NilZero.string_of_int.
    destruct (to_Z_pos p) as (H1 & H2 & H3 & H4 & H5 & H6 & H7 & H8).
    rewrite H8, H1, H2, H3. unfold PyStr.to_Z. rewrite H4.
    destruct (NilEmpty.string_of_uint (Pos.to_uint p)) as [|c t] eqn:E; [discriminate|].
    destruct (Ascii.ascii_dec c "+") as [->|Hp]; [now destruct (H6 t)|].
    destruct (Ascii.ascii_dec c "-") as [->|Hm]; [now destruct (H7 t)|].
    destruct c as [b0 b1 b2 b3 b4 b5 b6 b7].
    destruct b0, b1, b2, b3, b4, b5, b6, b7; try exact H5; congruence.
  - simpl Z.to_int. simpl NilZero.string_of_int.
    destruct (to_Z_pos p) as (H1 & H2 & H3 & H4 & H5 & H6 & H7 & H8).
    rewrite H8.
    pose proof (string_of_uint_digits (Pos.to_uint p)) as Hd.
    remember (NilEmpty.string_of_uint (Pos.to_uint p)) as s eqn:Es.
    assert (Hs : PyStr.strip (String "-" s) = String "-" s).
    { apply strip_id.
      - intros c [= <-]. reflexivity.
      - intros c Hc. apply digit_not_space. simpl in Hc.
        destruct (last_char s) as [d|] eqn:El.
        + injection Hc as <-. eapply all_digits_last; [exact Hd | exact El].
        + destruct s; [discriminate | simpl in El; destruct (last_char s); discriminate]. }
    rewrite Hs. simpl. unfold PyStr.to_Z. simpl. rewrite H5. reflexivity.
Qed.

(** [pad_question_no] of an integer, and of its decimal numeral, is the
    numeral filled with zeros to three characters. *)
Lemma pad_question_no_int (z : Z) :
  pad_question_no (VInt z) = PyStr.zfill 3 (PyStr.of_Z z) /\
  pad_question_no (VStr (PyStr.of_Z z)) = PyStr.zfill 3 (PyStr.of_Z z).
Proof.
  assert (H : pad_question_no (VInt z) = PyStr.zfill 3 (PyStr.of_Z z)).
  { unfold pad_question_no. now rewrite question_int_of_Z. }
  split; [exact H|]. exact H.
Qed.

(** ** Question numbers *)

Lemma three_digit_ok_all : forallb three_digit_ok (seq 0 1000) = true.
Proof. vm_compute. reflexivity. Qed.

(** Below one thousand the padded numeral is exactly three digits. *)
Lemma zfill3_small (n : Z) :
  (0 <= n < 1000)%Z ->
  String.length (PyStr.zfill 3 (PyStr.of_Z n)) = 3 /\
  all_digits (PyStr.zfill 3 (PyStr.of_Z n)) = true /\
  PyStr.to_Z (PyStr.zfill 3 (PyStr.of_Z n)) = Some n.
Proof.
  intros Hn.
  pose proof three_digit_ok_all as H. rewrite forallb_forall in H.
  specialize (H (Z.to_nat n)).
  assert (Hin : In (Z.to_nat n) (seq 0 1000)) by (apply in_seq; lia).
  apply H in Hin. unfold three_digit_ok in Hin.
  rewrite Z2Nat.id in Hin by lia.
  apply andb_prop in Hin. destruct Hin as [Hin H3].
  apply andb_prop in Hin. destruct Hin as [H1 H2].
  apply Nat.eqb_eq in H1.
  destruct (PyStr.to_Z (PyStr.zfill 3 (PyStr.of_Z n))) as [m|]; [|discriminate].
  apply Z.eqb_eq in H3. subst m. auto.
Qed.

(** C4, as the code has it.  The question number of a standardized
    question is the padded number between two double quotes.  When the
    identifier (the resolved one, or the position) reads as an integer
    [n], the padded number is the numeral of [n] filled with zeros to
    three characters: exactly three digits that denote [n] when
    [0 <= n < 1000].  When it does not read as an integer, it is passed
    on trimmed. *)
Theorem question_id_shape (raw_q : value) (idx : nat) (q : question) :
  standardize_question raw_q idx = Ok q ->
  exists d,
    mapping_fields raw_q = Ok d /\
    q_no q = quoted (pad_question_no (q_no_source d idx)) /\
    (forall n,
        question_int (q_no_source d idx) = Some n ->
        pad_question_no (q_no_source d idx) = PyStr.zfill 3 (PyStr.of_Z n) /\
        ((0 <= n < 1000)%Z ->
         String.length (pad_question_no (q_no_source d idx)) = 3 /\
         all_digits (pad_question_no (q_no_source d idx)) = true /\
         PyStr.to_Z (pad_question_no (q_no_source d idx)) = Some n)) /\
    (question_int (q_no_source d idx) = None ->
     pad_question_no (q_no_source d idx) = PyStr.strip (PyVal.str (q_no_source d idx))).
Proof.
  unfold standardize_question. destruct (mapping_fields raw_q) as [d|e]; simpl; [|discriminate].
  intros [= <-]. exists d. split; [reflexivity|]. split; [reflexivity|].
  unfold pad_question_no. split.
  - intros n ->. split; [reflexivity|]. apply zfill3_small.
  - intros ->. reflexivity.
Qed.

Lemma question_id_shape_witness :
  exists d,
    mapping_fields (VDict [("id", VInt 7)]) = Ok d /\
    quoted "007" = quoted (pad_question_no (q_no_source d 4)) /\
    (forall n,
        question_int (q_no_source d 4) = Some n ->
        pad_question_no (q_no_source d 4) = PyStr.zfill 3 (PyStr.of_Z n) /\
        ((0 <= n < 1000)%Z ->
         String.length (pad_question_no (q_no_source d 4)) = 3 /\
         all_digits (pad_question_no (q_no_source d 4)) = true /\
         PyStr.to_Z (pad_question_no (q_no_source d 4)) = Some n)) /\
    (question_int (q_no_source d 4) = None ->
     pad_question_no (q_no_source d 4) = PyStr.strip (PyVal.str (q_no_source d 4))).
Proof.
  apply (question_id_shape (VDict [("id", VInt 7)]) 4
           {| q_no := quoted "007"; q_text := ""; q_options := []; q_answer := "";
              q_explanation := ""; q_difficulty := "Medium"; q_topic := "";
              q_subtopic := ""; q_exam := "Core" |}).
  reflexivity.
Defined.

(** C4 as worded fails: the stored number carries its quotes, a number
    above 999 keeps all its digits, a negative one its sign, and an
    identifier that is not a number is passed on. *)
Lemma question_id_not_three_digits :
  question_ids (standardize
    [("questions", VList [VDict [("q", VStr "x")];
                          VDict [("id", VInt 1234)];
                          VDict [("id", VInt (-5))];
                          VDict [("id", VStr "abc")]])]) =
    [quoted "001"; quoted "1234"; quoted "-05"; quoted "abc"] /\
  String.length (quoted "001") = 5 /\
  all_digits (quoted "001") = false.
Proof. repeat split; reflexivity. Qed.

Lemma standardize_question_fallback (raw_q : value) (d : dict value) (idx : nat) :
  mapping_fields raw_q = Ok d ->
  PyVal.truthy (_first_value d Q_NO_KEYS) = false ->
  exists q,
    standardize_question raw_q idx = Ok q /\
    q_no q = quoted (pad_question_no (VInt (Z.of_nat idx + 1))) /\
    q_no q = quoted (PyStr.zfill 3 (PyStr.of_Z (Z.of_nat idx + 1))).
Proof.
  intros Hd Hf. unfold standardize_question. rewrite Hd. simpl. eexists. split; [reflexivity|].
  simpl q_no. unfold q_no_source, PyVal.or_else. rewrite Hf.
  destruct (pad_question_no_int (Z.of_nat idx + 1)) as [H1 H2].
  rewrite H2, H1. split; reflexivity.
Qed.

(** C7, as the code has it.  [standardize] hands each record of the
    question list to [standardize_question] together with its index in
    the list, counted from zero.  When the id of the record at index [i]
    resolves to nothing or to a falsy value, the question at index [i]
    of the result has as its number the padded form of [i + 1], the
    position counted from one: the numeral of [i + 1] filled with zeros
    to three characters, between double quotes.  The record at index 0
    gets 001 and the record at index 1 gets 002, whatever the records
    before it carry. *)
Theorem fallback_id_is_position
  (data : value) (d : dict value) (l : list value) (std : kb)
  (i : nat) (raw_q : value) (dq : dict value) :
  mapping_fields data = Ok d ->
  _first_value d QUESTIONS_KEYS = VList l ->
  standardize_value data = Ok std ->
  nth_error l i = Some raw_q ->
  mapping_fields raw_q = Ok dq ->
  PyVal.truthy (_first_value dq Q_NO_KEYS) = false ->
  exists q,
    nth_error (kb_questions std) i = Some q /\
    standardize_question raw_q i = Ok q /\
    q_no q = quoted (pad_question_no (VInt (Z.of_nat i + 1))) /\
    q_no q = quoted (PyStr.zfill 3 (PyStr.of_Z (Z.of_nat i + 1))) /\
    (i = 0 -> q_no q = quoted "001") /\
    (i = 1 -> q_no q = quoted "002").
Proof.
  intros Hd Hl Hs Hi Hq Hf.
  unfold standardize_value in Hs. rewrite Hd in Hs. simpl in Hs.
  destruct (standardize_ok_inv _ _ Hs) as (l' & Hl' & Hqs & _).
  rewrite (or_else_list _ _ Hl) in Hl'. injection Hl' as <-.
  destruct (standardize_questions_nth _ _ _ _ _ Hqs Hi) as (q & Hn & Hsq).
  simpl in Hsq.
  destruct (standardize_question_fallback raw_q dq i Hq Hf) as (q' & Hsq' & H1 & H2).
  rewrite Hsq in Hsq'. injection Hsq' as <-.
  exists q. repeat split; try assumption.
  - intros ->. exact H2.
  - intros ->. exact H2.
Qed.

Lemma fallback_id_is_position_witness :
  exists q,
    nth_error
      [ {| q_no := quoted "005"; q_text := ""; q_options := []; q_answer := "";
           q_explanation := ""; q_difficulty := "Medium"; q_topic := "";
           q_subtopic := ""; q_exam := "Core" |};
        {| q_no := quoted "002"; q_text := "1+1?"; q_options := []; q_answer := "";
           q_explanation := ""; q_difficulty := "Medium"; q_topic := "";
           q_subtopic := ""; q_exam := "Core" |} ] 1 = Some q /\
    standardize_question (VDict [("q", VStr "1+1?"); ("id", VInt 0)]) 1 = Ok q /\
    q_no q = quoted (pad_question_no (VInt (Z.of_nat 1 + 1))) /\
    q_no q = quoted (PyStr.zfill 3 (PyStr.of_Z (Z.of_nat 1 + 1))) /\
    (1 = 0 -> q_no q = quoted "001") /\
    (1 = 1 -> q_no q = quoted "002").
Proof.
  apply (fallback_id_is_position
           (VDict [("questions",
                    VList [VDict [("id", VInt 5)];
                           VDict [("q", VStr "1+1?"); ("id", VInt 0)]])])
           [("questions",
             VList [VDict [("id", VInt 5)]; VDict [("q", VStr "1+1?"); ("id", VInt 0)]])]
           [VDict [("id", VInt 5)]; VDict [("q", VStr "1+1?"); ("id", VInt 0)]]
           {| kb_topic := "Unknown Topic"; kb_subtopic := ""; kb_total := 2;
              kb_questions :=
                [ {| q_no := quoted "005"; q_text := ""; q_options := []; q_answer := "";
                     q_explanation := ""; q_difficulty := "Medium"; q_topic := "";
                     q_subtopic := ""; q_exam := "Core" |};
                  {| q_no := quoted "002"; q_text := "1+1?"; q_options := []; q_answer := "";
                     q_explanation := ""; q_difficulty := "Medium"; q_topic := "";
                     q_subtopic := ""; q_exam := "Core" |} ] |}
           1
           (VDict [("q", VStr "1+1?"); ("id", VInt 0)])
           [("q", VStr "1+1?"); ("id", VInt 0)]);
    reflexivity.
Defined.

(** C7 as worded fails: the record at index zero without an id gets the
    padded form of one, not of its index zero; and the first record
    without an id, when it stands at index one, gets the padded form of
    two. *)
Lemma fallback_id_counts_from_one :
  _first_value [("q", VStr "1+1?")] Q_NO_KEYS = VNone /\
  question_ids (standardize_value
    (VDict [("questions", VList [VDict [("q", VStr "1+1?")]])])) = [quoted "001"] /\
  quoted (pad_question_no (VInt 0)) = quoted "000" /\
  quoted "001" <> quoted "000" /\
  question_ids (standardize_value
    (VDict [("questions", VList [VDict [("id", VInt 5)]; VDict []])])) =
    [quoted "005"; quoted "002"].
Proof. repeat split; try reflexivity. discriminate. Qed.

(** ** Characters, by enumeration *)

Lemma in_all_ascii (a : ascii) : In a all_ascii.
Proof.
  unfold all_ascii. rewrite <- (ascii_nat_embedding a).
  apply in_map, in_seq. pose proof (nat_ascii_bounded a). lia.
Qed.

Lemma forall_ascii (P : ascii -> bool) :
  forallb P all_ascii = true -> forall a, P a = true.
Proof.
  intros H a. rewrite forallb_forall in H. apply H, in_all_ascii.
Qed.

Lemma forall_ascii2 (P : ascii -> ascii -> bool) :
  forallb (fun a => forallb (P a) all_ascii) all_ascii = true ->
  forall a b, P a b = true.
Proof.
  intros H a b. apply (forall_ascii (P a)). revert a. now apply forall_ascii.
Qed.

Lemma AE_cases (c : ascii) :
  PyChar.is_AE c = true ->
  In c ["A"; "B"; "C"; "D"; "E"; "a"; "b"; "c"; "d"; "e"]%char.
Proof.
  intros H.
  assert (E : existsb (Ascii.eqb c) ["A"; "B"; "C"; "D"; "E"; "a"; "b"; "c"; "d"; "e"]%char = true).
  { revert H. generalize c. intros a.
    pose proof (forall_ascii
      (fun a => implb (PyChar.is_AE a)
                  (existsb (Ascii.eqb a) ["A"; "B"; "C"; "D"; "E"; "a"; "b"; "c"; "d"; "e"]%char))
      eq_refl a) as Ha.
    simpl in Ha. intros Hc. rewrite Hc in Ha. exact Ha. }
  apply existsb_exists in E. destruct E as (x & Hx & Ex).
  apply Ascii.eqb_eq in Ex. now subst.
Qed.

Lemma AE_not_space (c : ascii) : PyChar.is_AE c = true -> PyChar.is_space c = false.
Proof.
  intros H. apply AE_cases in H. simpl in H.
  repeat (destruct H as [<-|H]; [reflexivity|]). contradiction.
Qed.

(** A character that matches a lower-case letter of a pattern under
    [re.I] is that letter or its capital. *)
Lemma ci_eq_cases (a p : ascii) :
  PyChar.is_lower p = true -> Re.ci_eq a p = true -> a = p \/ a = PyChar.upper p.
Proof.
  intros Hp Ha.
  pose proof (forall_ascii2
    (fun a p => implb (PyChar.is_lower p && Re.ci_eq a p)
                  (Ascii.eqb a p || Ascii.eqb a (PyChar.upper p)))) as H.
  assert (H0 : forallb (fun a => forallb
            ((fun a p => implb (PyChar.is_lower p && Re.ci_eq a p)
                           (Ascii.eqb a p || Ascii.eqb a (PyChar.upper p))) a) all_ascii)
            all_ascii = true) by (vm_compute; reflexivity).
  specialize (H H0 a p). simpl in H. rewrite Hp, Ha in H. simpl in H.
  apply orb_prop in H. destruct H as [H|H]; apply Ascii.eqb_eq in H; auto.
Qed.

Lemma ci_eq_space (a : ascii) : Re.ci_eq a " " = true -> a = " "%char.
Proof.
  pose proof (forall_ascii (fun a => implb (Re.ci_eq a " ") (Ascii.eqb a " ")) eq_refl a) as H.
  simpl in H. intros Ha. rewrite Ha in H. now apply Ascii.eqb_eq.
Qed.

(** ** The patterns of [normalize_answer] *)

Lemma append_assoc (a b c : string) : (a ++ b) ++ c = a ++ (b ++ c).
Proof. induction a as [|x a IH]; simpl; [reflexivity | now rewrite IH]. Qed.

Lemma append_nil_r (a : string) : a ++ "" = a.
Proof. induction a as [|x a IH]; simpl; [reflexivity | now rewrite IH]. Qed.

Lemma eat_ci_complete (lit : string) :
  forall o t, ci_equal o lit = true -> Re.eat_ci lit (o ++ t) = Some t.
Proof.
  induction lit as [|p lit IH]; intros o t H; destruct o as [|a o]; simpl in *;
    try discriminate; [reflexivity|].
  apply andb_prop in H. destruct H as [Ha Ho]. rewrite Ha. now apply IH.
Qed.

Lemma eat_ci_sound (lit : string) :
  forall s t, Re.eat_ci lit s = Some t -> exists o, ci_equal o lit = true /\ s = o ++ t.
Proof.
  induction lit as [|p lit IH]; intros s t H; simpl in H.
  - injection H as <-. exists "". auto.
  - destruct s as [|a s]; [discriminate|].
    destruct (Re.ci_eq a p) eqn:Ea; [|discriminate].
    destruct (IH _ _ H) as (o & Ho & ->).
    exists (String a o). simpl. rewrite Ea, Ho. auto.
Qed.

Lemma lstrip_app_space (ws r : string) :
  all_space ws = true -> PyStr.lstrip (ws ++ r) = PyStr.lstrip r.
Proof.
  induction ws as [|a ws IH]; simpl; [reflexivity|].
  intros H. apply andb_prop in H. destruct H as [Ha Hw]. rewrite Ha. now apply IH.
Qed.

Lemma lstrip_sound (s : string) :
  exists ws, all_space ws = true /\ s = ws ++ PyStr.lstrip s.
Proof.
  induction s as [|a s IH]; simpl.
  - exists "". auto.
  - destruct (PyChar.is_space a) eqn:Ea.
    + destruct IH as (ws & Hw & Hs). exists (String a ws). simpl.
      rewrite Ea, Hw. split; [reflexivity | now f_equal].
    + exists "". auto.
Qed.

Lemma lstrip_nonspace (c : ascii) (r : string) :
  PyChar.is_space c = false -> PyStr.lstrip (String c r) = String c r.
Proof. intros H. simpl. now rewrite H. Qed.

(** The anchored pattern matches exactly the strings that start with an
    occurrence, and group 1 is the letter of the occurrence. *)
Lemma match_option_at_iff (s : string) (c : ascii) :
  Re.match_option_at s = Some c <-> occurs_at s c.
Proof.
  unfold Re.match_option_at, occurs_at. split.
  - destruct (Re.eat_ci "option" s) as [t|] eqn:E; [|discriminate].
    destruct (eat_ci_sound _ _ _ E) as (o & Ho & ->).
    destruct (lstrip_sound t) as (ws & Hw & Ht).
    destruct (PyStr.lstrip t) as [|a post]; [discriminate|].
    destruct (PyChar.is_AE a) eqn:Ea; [|discriminate].
    intros [= <-]. exists o, ws, post. rewrite <- Ht. auto.
  - intros (o & ws & post & Ho & Hw & Hc & ->).
    rewrite (eat_ci_complete _ _ _ Ho), (lstrip_app_space _ _ Hw).
    rewrite (lstrip_nonspace _ _ (AE_not_space _ Hc)). now rewrite Hc.
Qed.

Lemma match_option_at_none (s : string) :
  Re.match_option_at s = None <-> forall c, ~ occurs_at s c.
Proof.
  split.
  - intros H c Hc. apply match_option_at_iff in Hc. congruence.
  - intros H. destruct (Re.match_option_at s) as [c|] eqn:E; [|reflexivity].
    apply match_option_at_iff in E. now destruct (H c).
Qed.

Lemma search_option_cons (a : ascii) (s : string) :
  Re.search_option (String a s) =
  match Re.match_option_at (String a s) with
  | Some c => Some c
  | None => Re.search_option s
  end.
Proof. reflexivity. Qed.

(** [re.search] returns the letter of the leftmost occurrence. *)
Lemma search_option_leftmost (pre s : string) (c : ascii) :
  occurs_at s c ->
  (forall p1 p2 c', pre = p1 ++ p2 -> p2 <> "" -> ~ occurs_at (p2 ++ s) c') ->
  Re.search_option (pre ++ s) = Some c.
Proof.
  intros Hc. induction pre as [|a pre IH]; intros Hleft.
  - apply match_option_at_iff in Hc. simpl append.
    destruct s as [|a s]; [discriminate Hc|].
    now rewrite search_option_cons, Hc.
  - assert (Hn : Re.match_option_at (String a pre ++ s) = None).
    { apply match_option_at_none. intros c'. apply (Hleft "" (String a pre)); [reflexivity | discriminate]. }
    simpl append in *. rewrite search_option_cons, Hn. apply IH.
    intros p1 p2 c' -> Hp2. apply (Hleft (String a p1) p2); [reflexivity | assumption].
Qed.

Lemma search_option_none (s : string) :
  (forall pre s' c, s = pre ++ s' -> ~ occurs_at s' c) ->
  Re.search_option s = None.
Proof.
  induction s as [|a s IH]; intros H; [reflexivity|].
  assert (Hn : Re.match_option_at (String a s) = None).
  { apply match_option_at_none. intros c. now apply (H "" (String a s)). }
  rewrite search_option_cons, Hn. apply IH.
  intros pre s' c ->. now apply (H (String a pre) s').
Qed.

Lemma search_option_some (s : string) (c : ascii) :
  Re.search_option s = Some c -> exists pre s', s = pre ++ s' /\ occurs_at s' c.
Proof.
  induction s as [|a s IH]; [discriminate|].
  rewrite search_option_cons.
  destruct (Re.match_option_at (String a s)) as [c'|] eqn:E.
  - intros [= <-]. exists "", (String a s). split; [reflexivity|].
    now apply match_option_at_iff.
  - intros H. destruct (IH H) as (pre & s' & -> & Hc).
    exists (String a pre), s'. auto.
Qed.


Lemma ci_option_variants (o : string) :
  ci_equal o "option" = true ->
  exists a1 a2 a3 a4 a5 a6,
    o = String a1 (String a2 (String a3 (String a4 (String a5 (String a6 ""))))) /\
    (a1 = "o" \/ a1 = "O")%char /\ (a2 = "p" \/ a2 = "P")%char /\
    (a3 = "t" \/ a3 = "T")%char /\ (a4 = "i" \/ a4 = "I")%char /\
    (a5 = "o" \/ a5 = "O")%char /\ (a6 = "n" \/ a6 = "N")%char.
Proof.
  destruct o as [|a1 [|a2 [|a3 [|a4 [|a5 [|a6 [|a7 o]]]]]]]; simpl; try discriminate;
    try (rewrite ?andb_false_r; discriminate).
  intros H.
  repeat (apply andb_prop in H; let H' := fresh "E" in destruct H as [H' H]).
  exists a1, a2, a3, a4, a5, a6. split; [reflexivity|].
  repeat split;
    match goal with
    | |- ?a = ?p \/ _ => apply (ci_eq_cases a p); [reflexivity | assumption]
    end.
Qed.

Ltac option_cases o H :=
  let a1 := fresh "a" in let a2 := fresh "a" in let a3 := fresh "a" in
  let a4 := fresh "a" in let a5 := fresh "a" in let a6 := fresh "a" in
  destruct (ci_option_variants o H)
    as (a1 & a2 & a3 & a4 & a5 & a6 & -> &
        [-> | ->] & [-> | ->] & [-> | ->] & [-> | ->] & [-> | ->] & [-> | ->]).

Ltac letter_cases c H :=
  let H' := fresh "H" in
  pose proof (AE_cases c H) as H'; simpl in H';
  repeat (destruct H' as [<- | H']); [ .. | contradiction ].

Lemma split_char_cons (ch : ascii) (s : string) :
  exists w ws, PyStr.split_char ch s = w :: ws.
Proof.
  induction s as [|a s IH]; simpl; [eauto|].
  destruct (Ascii.eqb a ch); [eauto|].
  destruct IH as (w & ws & ->). eauto.
Qed.

(** What the program computes along the word option. *)
Lemma option_word_facts (o : string) :
  ci_equal o "option" = true ->
  (forall r w ws, PyStr.split_char "," r = w :: ws ->
                  PyStr.split_char "," (o ++ r) = (o ++ w) :: ws) /\
  (forall r, PyStr.lstrip (o ++ r) = o ++ r) /\
  (forall r, PyStr.rstrip (o ++ r) = o ++ PyStr.rstrip r) /\
  (forall r, PyStr.split_ws (o ++ r) = PyStr.split_ws_from (Some o) r) /\
  (forall r, exists a r', o ++ r = String a r' /\ PyChar.is_space a = false /\ a <> ","%char) /\
  (forall r, Re.canon_run (Re.InItem "option ") (o ++ r) = Re.canon_run (Re.InItem " ") r) /\
  (forall r, Re.fullmatch_letter (o ++ r) = false).
Proof.
  intros Ho. option_cases o Ho;
    (split; [intros r w ws E; simpl; rewrite E; reflexivity|]);
    (split; [intros r; reflexivity|]); (split; [intros r; reflexivity|]);
    (split; [intros r; reflexivity|]);
    (split; [intros r; eexists; eexists; split; [reflexivity|]; split; [reflexivity | discriminate]|]);
    (split; intros r; reflexivity).
Qed.

(** What the program computes along the space and the letter of an item. *)
Lemma option_letter_facts (c : ascii) :
  PyChar.is_AE c = true ->
  (forall rest, PyStr.split_char "," (" " ++ String c (String "," rest)) =
                (" " ++ PyVal.chr c) :: PyStr.split_char "," rest) /\
  PyStr.split_char "," (" " ++ PyVal.chr c) = [" " ++ PyVal.chr c] /\
  PyStr.rstrip (" " ++ PyVal.chr c) = " " ++ PyVal.chr c /\
  (forall w, PyStr.split_ws_from (Some w) (" " ++ PyVal.chr c) = [w; PyVal.chr c]) /\
  (forall rest, Re.canon_run (Re.InItem " ") (" " ++ String c rest) =
                Re.canon_run Re.AfterItem rest).
Proof.
  intros Hc. letter_cases c Hc; repeat split; intros; reflexivity.
Qed.

(** What the program computes on one item: it holds no comma, it is
    trimmed, and its last word is its letter. *)
Lemma item_facts (o : string) (c : ascii) :
  ci_equal o "option" = true -> PyChar.is_AE c = true ->
  (forall rest, PyStr.split_char "," (o ++ " " ++ String c (String "," rest)) =
                (o ++ " " ++ PyVal.chr c) :: PyStr.split_char "," rest) /\
  PyStr.split_char "," (o ++ " " ++ PyVal.chr c) = [o ++ " " ++ PyVal.chr c] /\
  PyStr.strip (o ++ " " ++ PyVal.chr c) = o ++ " " ++ PyVal.chr c /\
  last_word (o ++ " " ++ PyVal.chr c) = PyVal.chr c /\
  (forall rest, Re.canon_run (Re.InItem "option ") (o ++ " " ++ String c rest) =
                Re.canon_run Re.AfterItem rest).
Proof.
  intros Ho Hc.
  destruct (option_word_facts o Ho) as (W1 & W2 & W3 & W4 & _ & W6 & _).
  destruct (option_letter_facts c Hc) as (L1 & L2 & L3 & L4 & L5).
  split; [|split; [|split; [|split]]].
  - intros rest. apply W1, L1.
  - apply W1, L2.
  - unfold PyStr.strip. now rewrite W2, W3, L3.
  - unfold last_word. now rewrite W4, L4.
  - intros rest. now rewrite W6, L5.
Qed.


Lemma space_not_comma (a : ascii) : PyChar.is_space a = true -> Ascii.eqb a "," = false.
Proof.
  pose proof (forall_ascii (fun a => implb (PyChar.is_space a) (negb (Ascii.eqb a ","))) eq_refl a) as H.
  simpl in H. intros Ha. rewrite Ha in H. simpl in H. now destruct (Ascii.eqb a ",").
Qed.

Lemma space_not_AE (a : ascii) : PyChar.is_space a = true -> PyChar.is_AE a = false.
Proof.
  intros Ha. destruct (PyChar.is_AE a) eqn:E; [|reflexivity].
  apply AE_not_space in E. congruence.
Qed.

Lemma canon_sep_skip (ws t : string) :
  all_space ws = true -> Re.canon_run Re.InSep (ws ++ t) = Re.canon_run Re.InSep t.
Proof.
  induction ws as [|a ws IH]; simpl; [reflexivity|].
  intros H. apply andb_prop in H. destruct H as [Ha Hw]. rewrite Ha. now apply IH.
Qed.

Lemma canon_sep_item (a : ascii) (r : string) :
  PyChar.is_space a = false ->
  Re.canon_run Re.InSep (String a r) = Re.canon_run (Re.InItem "option ") (String a r).
Proof. intros H. simpl. now rewrite H. Qed.

Lemma canonical_list_head (t : string) (cs : list ascii) :
  canonical_list t cs -> exists a r, t = String a r /\ PyChar.is_space a = false.
Proof.
  intros H. destruct H as [o c Ho Hc | o c ws t cs Ho Hc Hw Ht];
    destruct (option_word_facts o Ho) as (_ & _ & _ & _ & W5 & _);
    match goal with
    | |- exists a r, ?o ++ ?x = _ /\ _ =>
        destruct (W5 x) as (a & r' & E & Ha & _); exists a, r'; auto
    end.
Qed.

Lemma canonical_list_occurs (t : string) (cs : list ascii) :
  canonical_list t cs -> exists c, occurs_at t c.
Proof.
  intros H. destruct H as [o c Ho Hc | o c ws t cs Ho Hc Hw Ht]; exists c.
  - exists o, " ", "". auto.
  - exists o, " ", ("," ++ ws ++ t). auto.
Qed.

(** The automaton accepts every canonical list... *)
Lemma canonical_list_fullmatch (t : string) (cs : list ascii) :
  canonical_list t cs -> Re.fullmatch_canonical t = true.
Proof.
  unfold Re.fullmatch_canonical.
  induction 1 as [o c Ho Hc | o c ws t cs Ho Hc Hw Ht IH].
  - destruct (item_facts o c Ho Hc) as (_ & _ & _ & _ & R).
    change (o ++ " " ++ PyVal.chr c) with (o ++ " " ++ String c "").
    now rewrite R.
  - destruct (item_facts o c Ho Hc) as (_ & _ & _ & _ & R).
    change (o ++ " " ++ PyVal.chr c ++ "," ++ ws ++ t)
      with (o ++ " " ++ String c (String "," (ws ++ t))).
    rewrite R. simpl. rewrite (canon_sep_skip _ _ Hw).
    destruct (canonical_list_head _ _ Ht) as (a & r & -> & Ha).
    now rewrite (canon_sep_item _ _ Ha).
Qed.

Lemma canon_lit_inv (lit : string) :
  forall t,
    Re.canon_run (Re.InItem (lit ++ " ")) t = true ->
    exists o c rest,
      ci_equal o lit = true /\ PyChar.is_AE c = true /\
      t = o ++ " " ++ String c rest /\ Re.canon_run Re.AfterItem rest = true.
Proof.
  induction lit as [|p lit IH]; intros t H.
  - destruct t as [|a [|c rest]]; simpl in H; try discriminate;
      try (rewrite andb_false_r in H; discriminate).
    apply andb_prop in H. destruct H as [Ha H]. apply andb_prop in H. destruct H as [Hc Hr].
    apply ci_eq_space in Ha. subst a. exists "", c, rest. auto.
  - destruct t as [|a t]; simpl in H; [discriminate|].
    apply andb_prop in H. destruct H as [Ha H].
    destruct (IH _ H) as (o & c & rest & Ho & Hc & -> & Hr).
    exists (String a o), c, rest. simpl. rewrite Ha, Ho. auto.
Qed.

Lemma canon_sep_inv (s : string) :
  Re.canon_run Re.InSep s = true ->
  exists ws t,
    all_space ws = true /\ s = ws ++ t /\
    Re.canon_run (Re.InItem "option ") t = true.
Proof.
  induction s as [|a s IH]; [discriminate|].
  destruct (PyChar.is_space a) eqn:Ea.
  - simpl. rewrite Ea. intros H. destruct (IH H) as (ws & t & Hw & -> & Ht).
    exists (String a ws), t. simpl. rewrite Ea, Hw. auto.
  - rewrite (canon_sep_item _ _ Ea). intros H. exists "", (String a s). auto.
Qed.

Lemma length_append (a b : string) :
  String.length (a ++ b) = String.length a + String.length b.
Proof. induction a as [|x a IH]; simpl; [reflexivity | now rewrite IH]. Qed.

(** ... and nothing else. *)
Lemma fullmatch_canonical_list (t : string) :
  Re.fullmatch_canonical t = true -> exists cs, canonical_list t cs.
Proof.
  unfold Re.fullmatch_canonical.
  remember (String.length t) as n eqn:En.
  assert (Hn : String.length t <= n) by lia. clear En.
  revert t Hn. induction n as [|n IH]; intros t Hn H.
  - destruct t; [discriminate | simpl in Hn; lia].
  - destruct (canon_lit_inv "option" t H) as (o & c & rest & Ho & Hc & -> & Hr).
    destruct rest as [|a rest].
    + exists [c]. now apply canonical_one.
    + simpl in Hr. apply andb_prop in Hr. destruct Hr as [Ha Hr].
      apply Ascii.eqb_eq in Ha. subst a.
      destruct (canon_sep_inv _ Hr) as (ws & t' & Hw & -> & Ht').
      destruct (IH t') as (cs & Hcs); [|assumption|].
      * rewrite !length_append in Hn. simpl in Hn. rewrite length_append in Hn. lia.
      * exists (c :: cs).
        change (o ++ " " ++ String c (String "," (ws ++ t')))
          with (o ++ " " ++ PyVal.chr c ++ "," ++ ws ++ t').
        now apply canonical_more.
Qed.

Lemma split_char_space_prefix (ws t w : string) (r : list string) :
  all_space ws = true ->
  PyStr.split_char "," t = w :: r ->
  PyStr.split_char "," (ws ++ t) = (ws ++ w) :: r.
Proof.
  intros Hw Et. induction ws as [|a ws IH]; simpl; [assumption|].
  simpl in Hw. apply andb_prop in Hw. destruct Hw as [Ha Hw].
  rewrite (space_not_comma _ Ha), (IH Hw). reflexivity.
Qed.

Lemma strip_space_prefix (ws w : string) :
  all_space ws = true -> PyStr.strip (ws ++ w) = PyStr.strip w.
Proof. intros H. unfold PyStr.strip. now rewrite lstrip_app_space. Qed.

Lemma upper_chr (c : ascii) : PyStr.upper (PyVal.chr c) = PyVal.chr (PyChar.upper c).
Proof. reflexivity. Qed.

(** The parts of a canonical list, trimmed, give the labels of its
    letters. *)
Lemma canonical_list_parts (t : string) (cs : list ascii) :
  canonical_list t cs ->
  map (fun p => "option " ++ PyStr.upper (last_word p))
      (map PyStr.strip (PyStr.split_char "," t)) =
  map canonical_label cs.
Proof.
  induction 1 as [o c Ho Hc | o c ws t cs Ho Hc Hw Ht IH].
  - destruct (item_facts o c Ho Hc) as (_ & S2 & S3 & S4 & _).
    rewrite S2. cbn [map]. rewrite S3, S4. reflexivity.
  - destruct (item_facts o c Ho Hc) as (S1 & _ & S3 & S4 & _).
    change (o ++ " " ++ PyVal.chr c ++ "," ++ ws ++ t)
      with (o ++ " " ++ String c (String "," (ws ++ t))).
    rewrite S1.
    destruct (split_char_cons "," t) as (w & r & Et).
    rewrite (split_char_space_prefix _ _ _ _ Hw Et).
    rewrite Et in IH. cbn [map] in IH |- *. rewrite S3, S4.
    rewrite (strip_space_prefix _ _ Hw). rewrite IH. reflexivity.
Qed.

Lemma normalize_answer_str_canonical (t : string) (cs : list ascii) :
  canonical_list t cs ->
  normalize_answer_str t = PyStr.join ", " (map canonical_label cs).
Proof.
  intros H. unfold normalize_answer_str.
  rewrite (canonical_list_fullmatch _ _ H). now rewrite (canonical_list_parts _ _ H).
Qed.

Lemma occurs_not_letter (pre s : string) (c : ascii) :
  occurs_at s c -> Re.fullmatch_letter (pre ++ s) = false.
Proof.
  intros (o & ws & post & Ho & Hw & Hc & ->).
  destruct (option_word_facts o Ho) as (_ & _ & _ & _ & W5 & _ & W7).
  destruct pre as [|a pre]; [apply W7|].
  destruct (W5 (ws ++ String c post)) as (a' & r' & E & _).
  simpl. rewrite E. destruct pre; reflexivity.
Qed.

Lemma normalize_answer_str_occurrence (pre s : string) (c : ascii) :
  (forall cs, ~ canonical_list (pre ++ s) cs) ->
  occurs_at s c ->
  (forall p1 p2 c', pre = p1 ++ p2 -> p2 <> "" -> ~ occurs_at (p2 ++ s) c') ->
  normalize_answer_str (pre ++ s) = canonical_label c.
Proof.
  intros Hnc Hc Hleft. unfold normalize_answer_str.
  destruct (Re.fullmatch_canonical (pre ++ s)) eqn:E.
  - apply fullmatch_canonical_list in E. destruct E as (cs & Hcs). now destruct (Hnc cs).
  - rewrite (occurs_not_letter pre s c Hc).
    rewrite (search_option_leftmost pre s c Hc Hleft). reflexivity.
Qed.

Lemma normalize_answer_str_other (t : string) :
  (forall c, PyChar.is_AE c = true -> t <> PyVal.chr c) ->
  (forall pre s' c, t = pre ++ s' -> ~ occurs_at s' c) ->
  normalize_answer_str t = t.
Proof.
  intros Hl Hno. unfold normalize_answer_str.
  destruct (Re.fullmatch_canonical t) eqn:E.
  - apply fullmatch_canonical_list in E. destruct E as (cs & Hcs).
    destruct (canonical_list_occurs _ _ Hcs) as (c & Hc).
    now destruct (Hno "" t c eq_refl).
  - destruct (Re.fullmatch_letter t) eqn:El.
    + destruct t as [|c [|? ?]]; try discriminate. simpl in El.
      now destruct (Hl c El).
    + now rewrite (search_option_none t Hno).
Qed.

Lemma normalize_answer_str_letter (c : ascii) :
  PyChar.is_AE c = true -> normalize_answer_str (PyVal.chr c) = canonical_label c.
Proof.
  intros Hc. unfold normalize_answer_str.
  assert (E : Re.fullmatch_canonical (PyVal.chr c) = false).
  { unfold Re.fullmatch_canonical. simpl. apply andb_false_r. }
  rewrite E. simpl. rewrite Hc. reflexivity.
Qed.

Lemma normalize_answer_str_option (o ws : string) (c : ascii) :
  ci_equal o "option" = true -> all_space ws = true -> PyChar.is_AE c = true ->
  normalize_answer_str (o ++ ws ++ PyVal.chr c) = canonical_label c.
Proof.
  intros Ho Hw Hc.
  destruct (string_dec ws " ") as [->|Hne].
  - rewrite (normalize_answer_str_canonical _ [c]); [reflexivity|].
    now apply canonical_one.
  - destruct (option_word_facts o Ho) as (_ & _ & _ & _ & W5 & W6 & W7).
    unfold normalize_answer_str.
    assert (E : Re.fullmatch_canonical (o ++ ws ++ PyVal.chr c) = false).
    { unfold Re.fullmatch_canonical. rewrite W6.
      destruct ws as [|a [|b ws]]; simpl.
      - apply andb_false_r.
      - destruct (Re.ci_eq a " ") eqn:Ea; [|reflexivity].
        apply ci_eq_space in Ea. subst a. now destruct Hne.
      - simpl in Hw. apply andb_prop in Hw. destruct Hw as [_ Hw].
        apply andb_prop in Hw. destruct Hw as [Hb _].
        rewrite (space_not_AE _ Hb). apply andb_false_r. }
    rewrite E, W7.
    assert (Hm : Re.match_option_at (o ++ ws ++ PyVal.chr c) = Some c).
    { apply match_option_at_iff. exists o, ws, "". auto. }
    destruct (W5 (ws ++ PyVal.chr c)) as (a & r & Er & _).
    rewrite Er in *. rewrite search_option_cons, Hm. reflexivity.
Qed.


(** C8, as the code has it.  A list is normalized element by element and
    joined with a comma and a space.  A string is trimmed first; then
    (1) a bare letter A-E, (2) the word option, optional blanks and a
    letter, and (3) a comma-joined list of items (the word option, one
    space, a letter) are put in canonical form; (4) any other string
    that contains the word option, optional blanks and a letter is
    replaced by the label of the leftmost such occurrence, the rest of
    the string being dropped; (5) a string with no such occurrence that
    is not a bare letter is returned trimmed. *)
Theorem normalize_answer_spec (s : string) :
  let t := PyStr.strip s in
  (forall l, normalize_answer (VList l) = PyStr.join ", " (map normalize_answer l)) /\
  (s = "" -> normalize_answer (VStr s) = "") /\
  (s <> "" ->
   (forall c, PyChar.is_AE c = true -> t = PyVal.chr c ->
              normalize_answer (VStr s) = canonical_label c) /\
   (forall o ws c,
       ci_equal o "option" = true -> all_space ws = true -> PyChar.is_AE c = true ->
       t = o ++ ws ++ PyVal.chr c ->
       normalize_answer (VStr s) = canonical_label c) /\
   (forall cs, canonical_list t cs ->
               normalize_answer (VStr s) = PyStr.join ", " (map canonical_label cs)) /\
   (forall pre s' c,
       (forall cs, ~ canonical_list t cs) ->
       t = pre ++ s' -> occurs_at s' c ->
       (forall p1 p2 c', pre = p1 ++ p2 -> p2 <> "" -> ~ occurs_at (p2 ++ s') c') ->
       normalize_answer (VStr s) = canonical_label c) /\
   ((forall c, PyChar.is_AE c = true -> t <> PyVal.chr c) ->
    (forall pre s' c, t = pre ++ s' -> ~ occurs_at s' c) ->
    normalize_answer (VStr s) = t)).
Proof.
  intros t. split; [|split].
  - intros l. destruct l; reflexivity.
  - intros ->. reflexivity.
  - intros Hs.
    assert (E : normalize_answer (VStr s) = normalize_answer_str t).
    { destruct s; [congruence | reflexivity]. }
    rewrite E. clear E. split; [|split; [|split; [|split]]].
    + intros c Hc ->. now apply normalize_answer_str_letter.
    + intros o ws c Ho Hw Hc ->. now apply normalize_answer_str_option.
    + intros cs Hcs. now apply normalize_answer_str_canonical.
    + intros pre s' c Hnc Ht Hc Hleft. rewrite Ht in *.
      now apply normalize_answer_str_occurrence.
    + apply normalize_answer_str_other.
Qed.

(** C8 as worded fails: a string of none of the three shapes is not
    always returned verbatim.  It is trimmed, and when the word option
    followed by a letter occurs anywhere in it, it is replaced by the
    label of that letter. *)
Lemma normalize_answer_not_verbatim :
  spec_shape " xyz " = false /\
  normalize_answer (VStr " xyz ") = "xyz" /\
  spec_shape "optional" = false /\
  normalize_answer (VStr "optional") = "option A" /\
  spec_shape "not option b, but c" = false /\
  normalize_answer (VStr "not option b, but c") = "option B" /\
  normalize_answer (VStr "A, B") = "A, B".
Proof. repeat split; reflexivity. Qed.

Example normalize_answer_examples :
  normalize_answer (VStr "b") = "option B" /\
  normalize_answer (VList [VStr "a"; VStr "OPTION c"]) = "option A, option C" /\
  normalize_answer (VStr "option a,   Option C") = "option A, option C" /\
  normalize_answer (VStr " optionB ") = "option B" /\
  normalize_answer VNone = "".
Proof. repeat split; reflexivity. Qed.

(** ** Idempotence on canonical documents *)

Lemma digit_cases (c : ascii) : PyChar.is_digit c = true -> In c digit_chars.
Proof.
  intros H.
  assert (Hc : implb (PyChar.is_digit c) (existsb (Ascii.eqb c) digit_chars) = true).
  { apply (forall_ascii
             (fun a => implb (PyChar.is_digit a) (existsb (Ascii.eqb a) digit_chars))).
    vm_compute. reflexivity. }
  rewrite H in Hc. change (existsb (Ascii.eqb c) digit_chars = true) in Hc.
  apply existsb_exists in Hc. destruct Hc as (x & Hx & Ex).
  apply Ascii.eqb_eq in Ex. now subst.
Qed.

Lemma three_digit_id_ok_all :
  forallb (fun a => forallb (fun b => forallb (three_digit_id_ok a b) digit_chars)
                      digit_chars) digit_chars = true.
Proof. vm_compute. reflexivity. Qed.

(** A three-digit number is left as it is by the padding, and the
    quotes put around it are the ones stripped when it is written. *)
Lemma three_digits_id (s : string) :
  three_digits s ->
  pad_question_no (VStr s) = s /\
  PyStr.strip_char PyVal.dquote (quoted s) = s /\
  PyVal.truthy (VStr s) = true.
Proof.
  intros [Hl Hd].
  destruct s as [|a [|b [|c [|? ?]]]]; try discriminate.
  simpl in Hd. rewrite andb_true_r in Hd.
  apply andb_prop in Hd. destruct Hd as [Ha Hd]. apply andb_prop in Hd. destruct Hd as [Hb Hc].
  pose proof three_digit_id_ok_all as H. rewrite forallb_forall in H.
  specialize (H a (digit_cases a Ha)). rewrite forallb_forall in H.
  specialize (H b (digit_cases b Hb)). rewrite forallb_forall in H.
  specialize (H c (digit_cases c Hc)). unfold three_digit_id_ok in H.
  apply andb_prop in H. destruct H as [H1 H2].
  apply String.eqb_eq in H1, H2. auto.
Qed.

Lemma normalize_options_canonical (o : dict string) :
  canonical_options o ->
  normalize_options
    (PyVal.or_else (VDict (map (fun kv => (fst kv, VStr (snd kv))) o)) (VDict [])) = o.
Proof.
  intros (a & b & c & d & e & -> & H).
  repeat match goal with
         | H : Forall _ (_ :: _) |- _ => inversion H; subst; clear H
         end.
  destruct a as [a|], b as [b|], c as [c|], d as [d|], e as [e|];
    cbv beta iota in *; unfold trimmed in *;
    match goal with
    | |- normalize_options ?x = ?y =>
        transitivity (map (fun kv => (fst kv, PyStr.strip (snd kv))) y); [reflexivity|]
    end;
    unfold option_entries; simpl; congruence.
Qed.


Lemma upper_AE_facts (c : ascii) :
  upper_AE c = true -> PyChar.is_AE c = true /\ PyChar.upper c = c.
Proof.
  intros H.
  assert (Hc : implb (upper_AE c)
                 (PyChar.is_AE c && Ascii.eqb (PyChar.upper c) c) = true).
  { apply (forall_ascii
             (fun a => implb (upper_AE a) (PyChar.is_AE a && Ascii.eqb (PyChar.upper a) a))).
    vm_compute. reflexivity. }
  rewrite H in Hc. change (PyChar.is_AE c && Ascii.eqb (PyChar.upper c) c = true) in Hc.
  apply andb_prop in Hc. destruct Hc as [H1 H2]. apply Ascii.eqb_eq in H2. auto.
Qed.

Lemma join_cons2 (sep x y : string) (r : list string) :
  PyStr.join sep (x :: y :: r) = x ++ sep ++ PyStr.join sep (y :: r).
Proof. reflexivity. Qed.

(** A joined list of canonical labels is a canonical list of its own
    letters. *)
Lemma labels_canonical_list (cs : list ascii) :
  cs <> [] -> Forall (fun c => upper_AE c = true) cs ->
  canonical_list (PyStr.join ", " (map canonical_label cs)) cs.
Proof.
  induction cs as [|c cs IH]; [congruence|]. intros _ H.
  inversion H as [|? ? Hc Hcs]; subst.
  destruct (upper_AE_facts c Hc) as [Hae Hup].
  destruct cs as [|c' cs].
  - simpl. unfold canonical_label. rewrite Hup.
    change ("option " ++ PyVal.chr c) with ("option" ++ " " ++ PyVal.chr c).
    now apply canonical_one.
  - cbn [map]. rewrite join_cons2. unfold canonical_label at 1. rewrite Hup.
    change (("option " ++ PyVal.chr c) ++ ", " ++ PyStr.join ", " (canonical_label c' :: map canonical_label cs))
      with ("option" ++ " " ++ PyVal.chr c ++ "," ++ " " ++
            PyStr.join ", " (map canonical_label (c' :: cs))).
    apply canonical_more; try reflexivity; try assumption.
    apply IH; [discriminate | assumption].
Qed.

Lemma canonical_list_last (t : string) (cs : list ascii) :
  canonical_list t cs -> exists c, last_char t = Some c /\ PyChar.is_AE c = true.
Proof.
  induction 1 as [o c Ho Hc | o c ws t cs Ho Hc Hw Ht IH].
  - exists c. split; [|assumption].
    rewrite !last_char_app by discriminate. reflexivity.
  - destruct IH as (c' & Hl & Hc'). exists c'. split; [|assumption].
    assert (Hne : t <> "") by (destruct t; [discriminate Hl | discriminate]).
    assert (N : forall x, x ++ t <> "") by (intros x; destruct x; [exact Hne | discriminate]).
    rewrite last_char_app by (apply (N (" " ++ PyVal.chr c ++ "," ++ ws))).
    rewrite last_char_app by (apply (N (PyVal.chr c ++ "," ++ ws))).
    rewrite last_char_app by (apply (N ("," ++ ws))).
    rewrite last_char_app by (apply (N ws)).
    rewrite last_char_app by exact Hne. exact Hl.
Qed.

Lemma canonical_list_trimmed (t : string) (cs : list ascii) :
  canonical_list t cs -> trimmed t.
Proof.
  intros H. apply strip_id.
  - destruct (canonical_list_head _ _ H) as (a & r & -> & Ha). now intros c [= <-].
  - destruct (canonical_list_last _ _ H) as (c & Hl & Hc).
    intros c' Hc'. rewrite Hl in Hc'. injection Hc' as <-. now apply AE_not_space.
Qed.

Lemma normalize_answer_canonical (a : string) :
  canonical_answer a -> normalize_answer (VStr a) = a.
Proof.
  intros [->|(cs & Hne & Hcs & ->)]; [reflexivity|].
  pose proof (labels_canonical_list cs Hne Hcs) as Hl.
  destruct (canonical_list_head _ _ Hl) as (x & r & E & _).
  assert (Hn : normalize_answer (VStr (PyStr.join ", " (map canonical_label cs))) =
               normalize_answer_str (PyStr.strip (PyStr.join ", " (map canonical_label cs)))).
  { rewrite E. reflexivity. }
  rewrite Hn, (canonical_list_trimmed _ _ Hl).
  now apply normalize_answer_str_canonical.
Qed.

Lemma normalize_difficulty_canonical (d : string) :
  In d VALID_DIFFICULTIES -> normalize_difficulty (VStr d) = d.
Proof. simpl. intros [<-|[<-|[<-|[]]]]; reflexivity. Qed.

(** What the program computes along a canonical exam tag. *)
Lemma exam_tag_facts (tag : string) :
  In tag VALID_EXAMS ->
  (forall r w ws, PyStr.split_char "," r = w :: ws ->
                  PyStr.split_char "," (tag ++ r) = (tag ++ w) :: ws) /\
  PyStr.strip tag = tag /\
  find_exam VALID_EXAMS tag = Some tag /\
  PyStr.is_empty tag = false /\
  (forall r, PyStr.is_empty (tag ++ r) = false).
Proof.
  simpl. intros [<-|[<-|[<-|[<-|[]]]]];
    (split; [intros r w ws E; simpl; rewrite E; reflexivity|]);
    repeat split; reflexivity.
Qed.

Lemma exam_parts (tags : list string) :
  tags <> [] -> Forall (fun t => In t VALID_EXAMS) tags ->
  map PyStr.strip (PyStr.split_char "," (PyStr.join ", " tags)) = tags.
Proof.
  induction tags as [|t tags IH]; [congruence|]. intros _ H.
  inversion H as [|? ? Ht Hts]; subst.
  destruct (exam_tag_facts t Ht) as (S1 & S2 & _).
  destruct tags as [|t' tags].
  - simpl PyStr.join. rewrite <- (append_nil_r t) at 1.
    rewrite (S1 "" "" []) by reflexivity. simpl. now rewrite append_nil_r, S2.
  - rewrite join_cons2.
    destruct (split_char_cons "," (PyStr.join ", " (t' :: tags))) as (w & ws & E).
    assert (E2 : PyStr.split_char "," (", " ++ PyStr.join ", " (t' :: tags)) =
                 "" :: (" " ++ w) :: ws).
    { change (", " ++ PyStr.join ", " (t' :: tags))
        with (String "," (" " ++ PyStr.join ", " (t' :: tags))).
      cbn [PyStr.split_char]. simpl Ascii.eqb. cbv iota.
      now rewrite (split_char_space_prefix " " _ w ws eq_refl E). }
    rewrite (S1 _ _ _ E2). cbn [map]. rewrite append_nil_r, S2.
    rewrite (strip_space_prefix " " w eq_refl).
    specialize (IH ltac:(discriminate) Hts). rewrite E in IH. cbn [map] in IH.
    now rewrite IH.
Qed.

Lemma matched_exams_canonical (tags : list string) :
  Forall (fun t => In t VALID_EXAMS) tags -> matched_exams VALID_EXAMS tags = tags.
Proof.
  induction 1 as [|t tags Ht _ IH]; [reflexivity|].
  destruct (exam_tag_facts t Ht) as (_ & _ & S3 & S4 & _).
  cbn [matched_exams]. now rewrite S3, S4, IH.
Qed.

Lemma normalize_exam_canonical (e : string) :
  canonical_exam e -> normalize_exam (VStr e) = e.
Proof.
  intros (tags & Hne & Ht & ->).
  unfold normalize_exam, normalize_exam_in.
  assert (HT : PyVal.truthy (VStr (PyStr.join ", " tags)) = true).
  { destruct tags as [|t tags]; [congruence|].
    inversion Ht as [|? ? Ht1 _]; subst.
    destruct (exam_tag_facts t Ht1) as (_ & _ & _ & S4 & S5).
    destruct tags as [|t' tags]; unfold PyVal.truthy.
    - change (PyStr.join ", " [t]) with t. now rewrite S4.
    - rewrite join_cons2. now rewrite S5. }
  rewrite HT. simpl negb. cbv iota. simpl PyVal.str.
  rewrite (exam_parts tags Hne Ht), (matched_exams_canonical tags Ht).
  destruct tags; [congruence | reflexivity].
Qed.

Lemma or_else_text (s dflt : string) :
  trimmed s -> dflt = "" ->
  PyStr.strip (PyVal.str (PyVal.or_else (VStr s) (VStr dflt))) = s.
Proof.
  intros Hs ->. destruct s; [reflexivity|]. exact Hs.
Qed.


(** The fields of a canonical question are found under their canonical
    names. *)
Lemma question_fields (q : question) (d : dict value) :
  question_to_value q = VDict d ->
  _first_value d Q_NO_KEYS = VStr (q_no q) /\
  _first_value d Q_TEXT_KEYS = VStr (q_text q) /\
  _first_value d Q_OPTIONS_KEYS =
    VDict (map (fun kv => (fst kv, VStr (snd kv))) (q_options q)) /\
  _first_value d Q_ANSWER_KEYS = VStr (q_answer q) /\
  _first_value d Q_EXPL_KEYS = VStr (q_explanation q) /\
  _first_value d Q_DIFF_KEYS = VStr (q_difficulty q) /\
  _first_value d Q_TOPIC_KEYS = VStr (q_topic q) /\
  _first_value d Q_SUBTOPIC_KEYS = VStr (q_subtopic q) /\
  _first_value d Q_EXAM_KEYS = VStr (q_exam q).
Proof.
  unfold question_to_value. intros [= <-]. repeat split; reflexivity.
Qed.

Lemma standardize_question_canonical (q : question) (idx : nat) :
  canonical_question q ->
  standardize_question (question_to_value q) idx = Ok (quote_id q).
Proof.
  intros (Hno & Htext & Hopts & Hans & Hexp & Hdiff & Htopic & Hsub & Hexam).
  destruct (question_fields q _ eq_refl) as (F1 & F2 & F3 & F4 & F5 & F6 & F7 & F8 & F9).
  destruct (three_digits_id _ Hno) as (P1 & _ & P3).
  unfold standardize_question, question_to_value. cbn [mapping_fields bind].
  unfold q_no_source. rewrite F1, F2, F3, F4, F5, F6, F7, F8, F9.
  unfold PyVal.or_else at 1. rewrite P3, P1.
  rewrite (normalize_options_canonical _ Hopts).
  rewrite (normalize_answer_canonical _ Hans).
  rewrite (normalize_difficulty_canonical _ Hdiff).
  rewrite (normalize_exam_canonical _ Hexam).
  rewrite !or_else_text by (assumption || reflexivity).
  reflexivity.
Qed.

Lemma standardize_questions_canonical (qs : list question) :
  Forall canonical_question qs ->
  forall idx, standardize_questions (map question_to_value qs) idx = Ok (map quote_id qs).
Proof.
  induction 1 as [|q qs Hq _ IH]; intros idx; [reflexivity|].
  cbn [map standardize_questions].
  rewrite (standardize_question_canonical q idx Hq). cbn [bind].
  rewrite IH. reflexivity.
Qed.

Lemma format_quote_id (q : question) :
  three_digits (q_no q) -> format_question (quote_id q) = q.
Proof.
  intros H. destruct (three_digits_id _ H) as (_ & P2 & _).
  unfold format_question, quote_id. cbn [q_no q_text q_options q_answer q_explanation
    q_difficulty q_topic q_subtopic q_exam]. rewrite P2. now destruct q.
Qed.

(** C2, as the code has it.  On a document that is already canonical
    (canonical field names; a non-empty trimmed topic; three-digit
    question numbers; trimmed texts; options A to E in order with
    trimmed values; an answer that is empty or a joined list of
    canonical labels; a canonical difficulty; a joined list of canonical
    exam tags; a total count equal to the number of questions),
    [standardize] returns the same knowledge base except that every
    question number is put between double quotes, and [format_for_yaml],
    which strips them before the file is written, gives the input back:
    every field value is unchanged. *)
Theorem standardize_canonical_idempotent (std : kb) :
  canonical_kb std ->
  standardize (kb_to_document std) = Ok (quote_ids std) /\
  format_for_yaml (quote_ids std) = std.
Proof.
  intros (Hne & Htopic & Hsub & Htotal & Hqs). split.
  - unfold standardize.
    assert (F1 : _first_value (kb_to_document std) TOPIC_KEYS = VStr (kb_topic std)) by reflexivity.
    assert (F2 : _first_value (kb_to_document std) SUBTOPIC_KEYS = VStr (kb_subtopic std)) by reflexivity.
    assert (F3 : _first_value (kb_to_document std) QUESTIONS_KEYS =
                 VList (map question_to_value (kb_questions std))) by reflexivity.
    rewrite F1, F2, (or_else_list _ _ F3).
    rewrite (standardize_questions_canonical _ Hqs 0). cbn [bind].
    rewrite (or_else_text _ "" Hsub eq_refl).
    assert (E : PyVal.or_else (VStr (kb_topic std)) (VStr "Unknown Topic") = VStr (kb_topic std)).
    { destruct (kb_topic std); [congruence | reflexivity]. }
    rewrite E. simpl PyVal.str. rewrite Htopic.
    unfold quote_ids. rewrite length_map, <- Htotal. reflexivity.
  - unfold format_for_yaml, quote_ids. cbn [kb_topic kb_subtopic kb_total kb_questions].
    rewrite map_map.
    assert (E : map (fun x => format_question (quote_id x)) (kb_questions std) = kb_questions std).
    { clear -Hqs. induction Hqs as [|q qs Hq _ IH]; [reflexivity|].
      cbn [map]. rewrite IH. f_equal. apply format_quote_id. apply Hq. }
    rewrite E. now destruct std.
Qed.

Lemma standardize_canonical_idempotent_witness :
  let q := {| q_no := "001"; q_text := "1+1?";
              q_options := [("option A", "2"); ("option B", "3")];
              q_answer := "option A, option B"; q_explanation := "";
              q_difficulty := "Medium"; q_topic := ""; q_subtopic := "";
              q_exam := "Core, Architect" |} in
  let std := {| kb_topic := "X"; kb_subtopic := ""; kb_total := 1; kb_questions := [q] |} in
  standardize (kb_to_document std) = Ok (quote_ids std) /\
  format_for_yaml (quote_ids std) = std.
Proof.
  intros q std. apply (standardize_canonical_idempotent std).
  split; [discriminate|]. split; [reflexivity|]. split; [reflexivity|].
  split; [reflexivity|]. constructor; [|constructor].
  split; [split; reflexivity|]. split; [reflexivity|].
  split; [exists (Some "2"), (Some "3"), None, None, None;
          split; [reflexivity | repeat constructor]|].
  split; [right; exists ["A"; "B"]%char; split; [discriminate|];
          split; [repeat constructor | reflexivity]|].
  split; [reflexivity|]. split; [simpl; tauto|]. split; [reflexivity|].
  split; [reflexivity|].
  exists ["Core"; "Architect"]. split; [discriminate|].
  split; [repeat constructor; simpl; tauto | reflexivity].
Defined.

(** C2 as worded fails: on a canonical document the number of a
    question does not come back unchanged, it gains a pair of double
    quotes; and on its own output [standardize] adds a second pair. *)
Lemma standardize_quotes_accumulate :
  let q := {| q_no := "001"; q_text := "1+1?";
              q_options := [("option A", "2"); ("option B", "3")];
              q_answer := "option A"; q_explanation := "";
              q_difficulty := "Medium"; q_topic := ""; q_subtopic := "";
              q_exam := "Core" |} in
  let std := {| kb_topic := "X"; kb_subtopic := ""; kb_total := 1; kb_questions := [q] |} in
  map q_no (kb_questions std) = ["001"] /\
  standardize (kb_to_document std) = Ok (quote_ids std) /\
  question_ids (standardize (kb_to_document std)) = [quoted "001"] /\
  question_ids (standardize (kb_to_document (quote_ids std))) = [quoted (quoted "001")] /\
  quoted "001" <> "001".
Proof. repeat split; try reflexivity. discriminate. Qed.

(** ** The examples of the specification *)

Example strip_split_examples :
  PyStr.strip "  a b  " = "a b" /\
  PyStr.split_char "," "a,,b" = ["a"; ""; "b"] /\
  PyStr.split_ws " option   B " = ["option"; "B"] /\
  PyStr.remove_all "option" "opoptiontionA" = "optionA" /\
  PyStr.zfill 3 "-5" = "-05" /\ PyStr.zfill 3 "7" = "007" /\ PyStr.zfill 3 "1234" = "1234".
Proof. repeat split; reflexivity. Qed.

Example int_examples :
  PyStr.to_Z " 1_000 " = Some 1000%Z /\ PyStr.to_Z "1__0" = None /\
  PyStr.to_Z "-7" = Some (-7)%Z /\ PyStr.to_Z "" = None /\
  PyStr.to_Z "_1" = None /\ PyStr.to_Z "1_" = None /\ PyStr.to_Z "+ 1" = None /\
  PyStr.of_Z 0 = "0" /\ PyStr.of_Z (-12) = "-12" /\ PyStr.of_Z 305 = "305".
Proof. repeat split; reflexivity. Qed.

Example str_examples :
  PyVal.str (VList [VStr "Easy"; VInt 3; VNone; VBool true]) = "['Easy', 3, None, True]" /\
  PyVal.str (VDict [("a", VInt 1)]) = "{'a': 1}".
Proof. split; reflexivity. Qed.

Example normalize_exam_example :
  normalize_exam (VList [VStr "Core"; VStr "bogus"; VStr "ARCHITECT"]) = "Core, Architect".
Proof. reflexivity. Qed.

Example normalize_options_example :
  normalize_options (VDict [("OptionA", VStr "x"); ("b", VStr "y")]) =
    [("option A", "x"); ("option B", "y")] /\
  normalize_options (VDict [("b", VStr "y"); ("Option A", VStr "x")]) =
    [("option A", "x"); ("option B", "y")].
Proof. split; reflexivity. Qed.

Example pad_question_no_examples :
  pad_question_no (VStr "7") = "007" /\ pad_question_no (VStr "007") = "007" /\
  pad_question_no (VStr "abc") = "abc".
Proof. repeat split; reflexivity. Qed.

Example end_to_end_example :
  standardize
    [("Topic", VStr "X");
     ("questions",
      VList [VDict [("q", VStr "1+1?"); ("options", VList [VStr "2"; VStr "3"]);
                    ("answer", VStr "A"); ("difficulty", VStr "eZ")]])] =
  Ok {| kb_topic := "X"; kb_subtopic := ""; kb_total := 1;
        kb_questions :=
          [{| q_no := quoted "001"; q_text := "1+1?";
              q_options := [("option A", "2"); ("option B", "3")];
              q_answer := "option A"; q_explanation := "";
              q_difficulty := "Medium"; q_topic := ""; q_subtopic := "";
              q_exam := "Core" |}] |}.
Proof. reflexivity. Qed.

(** * Further properties of the normalizers, the transformer and the
      validator *)

(** ** Trimming is idempotent *)

Lemma lstrip_first (s : string) (c : ascii) :
  first_char (PyStr.lstrip s) = Some c -> PyChar.is_space c = false.
Proof.
  induction s as [|a s IH]; simpl; [discriminate|].
  destruct (PyChar.is_space a) eqn:Ea; [exact IH|].
  simpl. now intros [= <-].
Qed.

Lemma last_char_none (s : string) : last_char s = None -> s = "".
Proof.
  destruct s as [|a s]; [reflexivity|]. simpl. destruct (last_char s); discriminate.
Qed.

Lemma rstrip_last (s : string) (c : ascii) :
  last_char (PyStr.rstrip s) = Some c -> PyChar.is_space c = false.
Proof.
  induction s as [|a s IH]; simpl; [discriminate|].
  destruct (PyChar.is_space a && PyStr.is_empty (PyStr.rstrip s)) eqn:E; [discriminate|].
  simpl. destruct (last_char (PyStr.rstrip s)) as [d|] eqn:El.
  - intros [= <-]. now apply IH.
  - intros [= <-]. apply last_char_none in El. rewrite El in E. simpl in E.
    now rewrite andb_true_r in E.
Qed.

Lemma rstrip_first (s : string) (c : ascii) :
  first_char (PyStr.rstrip s) = Some c -> first_char s = Some c.
Proof.
  destruct s as [|a s]; simpl; [discriminate|].
  destruct (PyChar.is_space a && PyStr.is_empty (PyStr.rstrip s)); [discriminate | exact (fun H => H)].
Qed.

Lemma strip_trimmed (s : string) : trimmed (PyStr.strip s).
Proof.
  apply strip_id.
  - intros c H. unfold PyStr.strip in H. apply rstrip_first in H. now apply lstrip_first in H.
  - intros c H. now apply rstrip_last in H.
Qed.

(** ** Exam tags *)

Lemma find_exam_some (order : list string) (tag e : string) :
  find_exam order tag = Some e ->
  In e order /\ PyStr.lower e = PyStr.lower tag.
Proof.
  induction order as [|x order IH]; simpl; [discriminate|].
  destruct (String.eqb (PyStr.lower x) (PyStr.lower tag)) eqn:E.
  - intros [= <-]. apply String.eqb_eq in E. auto.
  - intros H. destruct (IH H). auto.
Qed.

Lemma find_exam_none (order : list string) (tag : string) :
  find_exam order tag = None ->
  forall e, In e order -> PyStr.lower e <> PyStr.lower tag.
Proof.
  induction order as [|x order IH]; simpl; [contradiction|].
  destruct (String.eqb (PyStr.lower x) (PyStr.lower tag)) eqn:E; [discriminate|].
  intros H e [<-|He]; [now apply String.eqb_neq | now apply IH].
Qed.

(** No two canonical exam tags agree up to letter case. *)
Lemma exam_match_unique (e e' : string) :
  In e VALID_EXAMS -> In e' VALID_EXAMS ->
  PyStr.lower e = PyStr.lower e' -> e = e'.
Proof.
  simpl. intros [<-|[<-|[<-|[<-|[]]]]] [<-|[<-|[<-|[<-|[]]]]]; simpl;
    intros H; try reflexivity; discriminate H.
Qed.

Lemma find_exam_order (order : list string) (tag : string) :
  (forall e, In e order <-> In e VALID_EXAMS) ->
  find_exam order tag = find_exam VALID_EXAMS tag.
Proof.
  intros Hset.
  destruct (find_exam order tag) as [e|] eqn:E1;
    destruct (find_exam VALID_EXAMS tag) as [e'|] eqn:E2; try reflexivity.
  - apply find_exam_some in E1, E2. destruct E1 as [I1 M1], E2 as [I2 M2].
    apply Hset in I1. f_equal. apply exam_match_unique; congruence.
  - apply find_exam_some in E1. destruct E1 as [I1 M1]. apply Hset in I1.
    now destruct (find_exam_none _ _ E2 e I1).
  - apply find_exam_some in E2. destruct E2 as [I2 M2]. apply Hset in I2.
    now destruct (find_exam_none _ _ E1 e' I2).
Qed.

Lemma matched_exams_valid (tags : list string) :
  Forall (fun t => In t VALID_EXAMS) (matched_exams VALID_EXAMS tags).
Proof.
  induction tags as [|t tags IH]; cbn [matched_exams]; [constructor|].
  destruct (find_exam VALID_EXAMS t) as [e|] eqn:E; [|exact IH].
  destruct (PyStr.is_empty e); [exact IH|].
  constructor; [now apply find_exam_some in E | exact IH].
Qed.

Lemma normalize_exam_is_canonical (raw : value) : canonical_exam (normalize_exam raw).
Proof.
  assert (Hcore : canonical_exam "Core").
  { exists ["Core"]. split; [discriminate|]. split; [|reflexivity].
    constructor; [simpl; tauto | constructor]. }
  unfold normalize_exam, normalize_exam_in.
  destruct (negb (PyVal.truthy raw)); [exact Hcore|].
  match goal with |- canonical_exam (match matched_exams _ ?t with _ => _ end) =>
    pose proof (matched_exams_valid t) as Hv;
    destruct (matched_exams VALID_EXAMS t) as [|x m] eqn:Em
  end; [exact Hcore|].
  exists (x :: m). split; [discriminate|]. split; [exact Hv | reflexivity].
Qed.

(** X1.  The exam field computed by [normalize_exam] is, for every
    input, a non-empty list of canonical exam tags joined by a comma and
    a space; a falsy input and an input without any known tag give Core. *)
Theorem normalize_exam_shape (raw : value) :
  (exists tags,
      tags <> [] /\ Forall (fun t => In t VALID_EXAMS) tags /\
      normalize_exam raw = PyStr.join ", " tags) /\
  (PyVal.truthy raw = false -> normalize_exam raw = "Core") /\
  (forall l,
      raw = VList l ->
      Forall (fun t => forall e, In e VALID_EXAMS ->
                PyStr.lower e <> PyStr.lower (PyStr.strip (PyVal.str t))) l ->
      normalize_exam raw = "Core").
Proof.
  split; [exact (normalize_exam_is_canonical raw)|]. split.
  - unfold normalize_exam, normalize_exam_in. now intros ->.
  - intros l -> H. unfold normalize_exam, normalize_exam_in.
    destruct (negb (PyVal.truthy (VList l))); [reflexivity|].
    assert (E : matched_exams VALID_EXAMS (map (fun t => PyStr.strip (PyVal.str t)) l) = []).
    { induction H as [|t l Ht _ IH]; [reflexivity|]. cbn [map matched_exams].
      destruct (find_exam VALID_EXAMS (PyStr.strip (PyVal.str t))) as [e|] eqn:E; [|exact IH].
      apply find_exam_some in E. destruct E as [I M]. now destruct (Ht e I). }
    now rewrite E.
Qed.

(** X2.  [normalize_exam] is idempotent: applied to its own result it
    returns it unchanged. *)
Theorem normalize_exam_idempotent (raw : value) :
  normalize_exam (VStr (normalize_exam raw)) = normalize_exam raw.
Proof. apply normalize_exam_canonical, normalize_exam_is_canonical. Qed.

(** X3.  The result of [normalize_exam] does not depend on the order in
    which the set [VALID_EXAMS] is iterated. *)
Theorem normalize_exam_order (order : list string) (raw : value) :
  (forall e, In e order <-> In e VALID_EXAMS) ->
  normalize_exam_in order raw = normalize_exam raw.
Proof.
  intros Hset. unfold normalize_exam, normalize_exam_in.
  destruct (negb (PyVal.truthy raw)); [reflexivity|].
  assert (E : forall tags, matched_exams order tags = matched_exams VALID_EXAMS tags).
  { induction tags as [|t tags IH]; [reflexivity|]. cbn [matched_exams].
    now rewrite (find_exam_order order t Hset), IH. }
  now rewrite E.
Qed.

Lemma normalize_exam_order_witness :
  normalize_exam_in ["Architect"; "DataAnalyst"; "DataEngineer"; "Core"]
    (VStr "core, ARCHITECT") =
  normalize_exam (VStr "core, ARCHITECT").
Proof.
  apply (normalize_exam_order ["Architect"; "DataAnalyst"; "DataEngineer"; "Core"]
           (VStr "core, ARCHITECT")).
  intros e. simpl. tauto.
Defined.

(** X4.  The result of [normalize_difficulty] does not depend on the
    order in which the set [VALID_DIFFICULTIES] is iterated: at most one
    canonical value is a prefix of a given text. *)
Theorem normalize_difficulty_any_order (order : list string) (raw : value) :
  (forall d, In d order <-> In d VALID_DIFFICULTIES) ->
  normalize_difficulty_in order raw = normalize_difficulty raw /\
  (forall d d',
      In d VALID_DIFFICULTIES -> In d' VALID_DIFFICULTIES ->
      ci_prefix d (processed_difficulty raw) = true ->
      ci_prefix d' (processed_difficulty raw) = true -> d = d').
Proof.
  intros H. split; [now apply normalize_difficulty_order|].
  intros d d'. apply difficulty_match_unique.
Qed.

Lemma normalize_difficulty_any_order_witness :
  normalize_difficulty_in ["Hard"; "Medium"; "Easy"] (VStr "hard!") =
    normalize_difficulty (VStr "hard!") /\
  (forall d d',
      In d VALID_DIFFICULTIES -> In d' VALID_DIFFICULTIES ->
      ci_prefix d (processed_difficulty (VStr "hard!")) = true ->
      ci_prefix d' (processed_difficulty (VStr "hard!")) = true -> d = d').
Proof.
  apply (normalize_difficulty_any_order ["Hard"; "Medium"; "Easy"] (VStr "hard!")).
  intros d. simpl. tauto.
Defined.


(** ** Options *)

Lemma normalize_options_labels (km : dict value) :
  fold_left
    (fun result label =>
       let letter := PyStr.lower (last_word label) in
       match PyDict.get km letter with
       | Some v => PyDict.set result label (PyStr.strip (PyVal.str v))
       | None => result
       end)
    OPTION_LABELS [] =
  option_entries
    (map (fun letter => option_map (fun v => PyStr.strip (PyVal.str v)) (PyDict.get km letter))
         ["a"; "b"; "c"; "d"; "e"]).
Proof.
  cbv [fold_left OPTION_LABELS map].
  change (PyStr.lower (last_word "option A")) with "a".
  change (PyStr.lower (last_word "option B")) with "b".
  change (PyStr.lower (last_word "option C")) with "c".
  change (PyStr.lower (last_word "option D")) with "d".
  change (PyStr.lower (last_word "option E")) with "e".
  destruct (PyDict.get km "a"), (PyDict.get km "b"), (PyDict.get km "c"),
    (PyDict.get km "d"), (PyDict.get km "e"); reflexivity.
Qed.

Lemma normalize_options_list_zip (l : list value) :
  normalize_options (VList l) =
  combine OPTION_LABELS (map (fun v => PyStr.strip (PyVal.str v)) l).
Proof.
  destruct l as [|v1 [|v2 [|v3 [|v4 [|v5 l]]]]]; reflexivity.
Qed.

Lemma option_entries_trimmed (vals : list (option value)) :
  Forall (fun v => match v with Some s => trimmed s | None => True end)
         (map (option_map (fun v => PyStr.strip (PyVal.str v))) vals).
Proof.
  induction vals as [|[v|] vals IH]; simpl; constructor; auto. apply strip_trimmed.
Qed.

Lemma normalize_options_is_canonical (raw : value) :
  canonical_options (normalize_options raw).
Proof.
  destruct raw as [| | | |l|d|m].
  1-4: exists None, None, None, None, None; split; [reflexivity | repeat constructor].
  - rewrite normalize_options_list_zip.
    destruct l as [|v1 [|v2 [|v3 [|v4 [|v5 l]]]]].
    + exists None, None, None, None, None; split; [reflexivity | repeat constructor].
    + exists (Some (PyStr.strip (PyVal.str v1))), None, None, None, None.
      split; [reflexivity|]. exact (option_entries_trimmed [Some v1; None; None; None; None]).
    + exists (Some (PyStr.strip (PyVal.str v1))), (Some (PyStr.strip (PyVal.str v2))), None, None, None.
      split; [reflexivity|]. exact (option_entries_trimmed [Some v1; Some v2; None; None; None]).
    + exists (Some (PyStr.strip (PyVal.str v1))), (Some (PyStr.strip (PyVal.str v2))),
        (Some (PyStr.strip (PyVal.str v3))), None, None.
      split; [reflexivity|]. exact (option_entries_trimmed [Some v1; Some v2; Some v3; None; None]).
    + exists (Some (PyStr.strip (PyVal.str v1))), (Some (PyStr.strip (PyVal.str v2))),
        (Some (PyStr.strip (PyVal.str v3))), (Some (PyStr.strip (PyVal.str v4))), None.
      split; [reflexivity|]. exact (option_entries_trimmed [Some v1; Some v2; Some v3; Some v4; None]).
    + exists (Some (PyStr.strip (PyVal.str v1))), (Some (PyStr.strip (PyVal.str v2))),
        (Some (PyStr.strip (PyVal.str v3))), (Some (PyStr.strip (PyVal.str v4))),
        (Some (PyStr.strip (PyVal.str v5))).
      split; [reflexivity|].
      exact (option_entries_trimmed [Some v1; Some v2; Some v3; Some v4; Some v5]).
  - unfold normalize_options. rewrite normalize_options_labels.
    set (km := option_key_map d).
    exists (option_map (fun v => PyStr.strip (PyVal.str v)) (PyDict.get km "a")),
      (option_map (fun v => PyStr.strip (PyVal.str v)) (PyDict.get km "b")),
      (option_map (fun v => PyStr.strip (PyVal.str v)) (PyDict.get km "c")),
      (option_map (fun v => PyStr.strip (PyVal.str v)) (PyDict.get km "d")),
      (option_map (fun v => PyStr.strip (PyVal.str v)) (PyDict.get km "e")).
    split; [reflexivity|].
    exact (option_entries_trimmed
             [PyDict.get km "a"; PyDict.get km "b"; PyDict.get km "c";
              PyDict.get km "d"; PyDict.get km "e"]).
  - unfold normalize_options. rewrite normalize_options_labels.
    set (km := option_key_map (map (fun kv => (PyVal.str_key (fst kv), snd kv)) m)).
    exists (option_map (fun v => PyStr.strip (PyVal.str v)) (PyDict.get km "a")),
      (option_map (fun v => PyStr.strip (PyVal.str v)) (PyDict.get km "b")),
      (option_map (fun v => PyStr.strip (PyVal.str v)) (PyDict.get km "c")),
      (option_map (fun v => PyStr.strip (PyVal.str v)) (PyDict.get km "d")),
      (option_map (fun v => PyStr.strip (PyVal.str v)) (PyDict.get km "e")).
    split; [reflexivity|].
    exact (option_entries_trimmed
             [PyDict.get km "a"; PyDict.get km "b"; PyDict.get km "c";
              PyDict.get km "d"; PyDict.get km "e"]).
Qed.

Lemma option_entries_sublist (vals : list (option string)) :
  exists keep : list bool,
    map fst (option_entries vals) =
    map fst (filter (fun lb => snd lb) (combine OPTION_LABELS keep)).
Proof.
  exists (map (fun v => match v with Some _ => true | None => false end) vals).
  unfold option_entries. generalize OPTION_LABELS. intros labels. revert vals.
  induction labels as [|x labels IH]; intros vals; [reflexivity|].
  destruct vals as [|[v|] vals]; simpl; [reflexivity| |]; rewrite IH; reflexivity.
Qed.

(** X5.  For every input, the labels of the mapping returned by
    [normalize_options] are labels of option A to option E taken in that
    order, each at most once (so at most five), and every value is
    trimmed. *)
Theorem normalize_options_shape (raw : value) :
  (exists keep : list bool,
      map fst (normalize_options raw) =
      map fst (filter (fun lb => snd lb) (combine OPTION_LABELS keep))) /\
  List.length (normalize_options raw) <= 5 /\
  Forall (fun kv => trimmed (snd kv)) (normalize_options raw).
Proof.
  destruct (normalize_options_is_canonical raw) as (a & b & c & d & e & -> & H).
  split; [apply option_entries_sublist|].
  repeat match goal with
         | H : Forall _ (_ :: _) |- _ => inversion H; subst; clear H
         end.
  destruct a, b, c, d, e; cbv beta iota in *;
    (split; [simpl; lia | repeat constructor; assumption]).
Qed.

Lemma or_else_dict (d : dict value) : PyVal.or_else (VDict d) (VDict []) = VDict d.
Proof. destruct d; reflexivity. Qed.

(** X6.  [normalize_options] is idempotent: the mapping it returns, read
    back as a mapping of strings, is returned unchanged. *)
Theorem normalize_options_idempotent (raw : value) :
  normalize_options
    (VDict (map (fun kv => (fst kv, VStr (snd kv))) (normalize_options raw))) =
  normalize_options raw.
Proof.
  rewrite <- (or_else_dict (map _ (normalize_options raw))).
  apply normalize_options_canonical, normalize_options_is_canonical.
Qed.

(** X7.  A sequence of options is assigned to the labels by position,
    each value being its text trimmed; the elements after the fifth are
    dropped. *)
Theorem normalize_options_positional (l : list value) :
  normalize_options (VList l) =
    combine OPTION_LABELS (map (fun v => PyStr.strip (PyVal.str v)) l) /\
  List.length (normalize_options (VList l)) = Nat.min 5 (List.length l) /\
  (forall extra, 5 <= List.length l ->
     normalize_options (VList (l ++ extra)) = normalize_options (VList l)).
Proof.
  split; [apply normalize_options_list_zip|]. split.
  - rewrite normalize_options_list_zip, length_combine, length_map. reflexivity.
  - intros extra Hl. rewrite !normalize_options_list_zip.
    destruct l as [|v1 [|v2 [|v3 [|v4 [|v5 l]]]]]; simpl in Hl; try lia. reflexivity.
Qed.

Lemma option_key_map_fold (d : dict value) (letter : string) :
  forall m,
    PyDict.get
      (fold_left
         (fun key_map kv =>
            let clean := clean_key (fst kv) in
            if is_letter_key clean then PyDict.set key_map clean (snd kv) else key_map)
         d m) letter =
    match last_cleaned d letter with
    | Some v => if is_letter_key letter then Some v else PyDict.get m letter
    | None => PyDict.get m letter
    end.
Proof.
  induction d as [|[k v] d IH]; intros m; [reflexivity|].
  cbn [fold_left last_cleaned fst snd]. rewrite IH.
  destruct (last_cleaned d letter) as [w|].
  - destruct (is_letter_key letter) eqn:El; [reflexivity|].
    destruct (is_letter_key (clean_key k)) eqn:Ek; [|reflexivity].
    destruct (String.eqb (clean_key k) letter) eqn:E.
    + apply String.eqb_eq in E. congruence.
    + apply String.eqb_neq in E. now apply get_set_other.
  - destruct (String.eqb (clean_key k) letter) eqn:E.
    + apply String.eqb_eq in E. subst letter.
      destruct (is_letter_key (clean_key k)); [apply get_set_same | reflexivity].
    + apply String.eqb_neq in E.
      destruct (is_letter_key (clean_key k)); [now apply get_set_other | reflexivity].
Qed.

(** X8.  For a mapping of options, option X is present in the result
    exactly when some key of the mapping reduces to the letter x (blanks
    removed, lower-cased, the word option removed); its value is the
    trimmed text of the last such entry.  Keys that reduce to anything
    else have no effect. *)
Theorem normalize_options_mapping (d : dict value) :
  normalize_options (VDict d) =
    option_entries
      (map (fun letter =>
              option_map (fun v => PyStr.strip (PyVal.str v)) (last_cleaned d letter))
           ["a"; "b"; "c"; "d"; "e"]) /\
  (forall d1 d2 k v,
      d = (d1 ++ (k, v) :: d2)%list ->
      is_letter_key (clean_key k) = false ->
      normalize_options (VDict d) = normalize_options (VDict (d1 ++ d2)%list)).
Proof.
  assert (E : forall d,
             normalize_options (VDict d) =
             option_entries
               (map (fun letter =>
                       option_map (fun v => PyStr.strip (PyVal.str v)) (last_cleaned d letter))
                    ["a"; "b"; "c"; "d"; "e"])).
  { intros d0. unfold normalize_options. rewrite normalize_options_labels.
    unfold option_key_map. cbn [map]. rewrite !option_key_map_fold.
    cbn [PyDict.get].
    destruct (last_cleaned d0 "a"), (last_cleaned d0 "b"), (last_cleaned d0 "c"),
      (last_cleaned d0 "d"), (last_cleaned d0 "e"); reflexivity. }
  split; [apply E|].
  intros d1 d2 k v -> Hk. rewrite !E.
  assert (L : forall letter, is_letter_key letter = true ->
                last_cleaned (d1 ++ (k, v) :: d2)%list letter =
                last_cleaned (d1 ++ d2)%list letter).
  { intros letter Hl. induction d1 as [|[k1 v1] d1 IH]; cbn [app last_cleaned].
    - destruct (last_cleaned d2 letter); [reflexivity|].
      destruct (String.eqb (clean_key k) letter) eqn:Ee; [|reflexivity].
      apply String.eqb_eq in Ee. congruence.
    - now rewrite IH. }
  cbn [map]. rewrite !L by reflexivity. reflexivity.
Qed.


(** ** Question numbers: reading back and padding again *)

Lemma int_digits_pos (p : positive) (b : bool) :
  PyStr.int_digits 0 b (NilEmpty.string_of_uint (Pos.to_uint p)) = Some (Z.pos p).
Proof.
  rewrite int_digits_uint by (left; apply DecimalPos.Unsigned.to_uint_nonnil).
  rewrite uint_val_spec, DecimalPos.Unsigned.of_to. reflexivity.
Qed.

Lemma int_digits_zeros (k : nat) (s : string) (b : bool) :
  PyStr.int_digits 0 b (PyStr.zeros k ++ s) =
  PyStr.int_digits 0 (b || (0 <? k)%nat) s.
Proof.
  revert b. induction k as [|k IH]; intros b; simpl append.
  - now rewrite orb_false_r.
  - change (PyStr.int_digits 0 b (String "0" (PyStr.zeros k ++ s)))
      with (PyStr.int_digits 0 true (PyStr.zeros k ++ s)).
    rewrite IH. now rewrite orb_true_r.
Qed.

Lemma lstrip_zeros (k : nat) (s : string) :
  PyStr.lstrip_char "0" (PyStr.zeros k ++ s) = PyStr.lstrip_char "0" s.
Proof. induction k as [|k IH]; simpl; [reflexivity | exact IH]. Qed.

Lemma all_digits_app (a b : string) :
  all_digits (a ++ b) = all_digits a && all_digits b.
Proof.
  induction a as [|c a IH]; simpl; [reflexivity|]. now rewrite IH, andb_assoc.
Qed.

Lemma all_digits_zeros (k : nat) : all_digits (PyStr.zeros k) = true.
Proof. induction k; simpl; auto. Qed.

(** The padded numeral of an integer: an optional minus sign, then
    digits; it reads back as the integer. *)
Lemma zfill_of_Z (z : Z) :
  exists sign body,
    PyStr.zfill 3 (PyStr.of_Z z) = sign ++ body /\
    (sign = "" \/ sign = "-") /\
    all_digits body = true /\ body <> "" /\
    question_int (VStr (PyStr.zfill 3 (PyStr.of_Z z))) = Some z.
Proof.
  destruct z as [|p|p].
  - exists "", "000". repeat split; try reflexivity; auto. discriminate.
  - unfold PyStr.of_Z. simpl Z.to_int. simpl NilZero.string_of_int.
    destruct (to_Z_pos p) as (H1 & H2 & H3 & H4 & H5 & H6 & H7 & H8).
    rewrite H8.
    pose proof (string_of_uint_digits (Pos.to_uint p)) as Hd.
    pose proof (int_digits_pos p) as Hi.
    remember (NilEmpty.string_of_uint (Pos.to_uint p)) as s eqn:Es.
    destruct s as [|c t]; [discriminate|].
    assert (Hc : Ascii.eqb c "+" || Ascii.eqb c "-" = false).
    { destruct (Ascii.eqb c "+") eqn:E1; [apply Ascii.eqb_eq in E1; subst c; now destruct (H6 t)|].
      destruct (Ascii.eqb c "-") eqn:E2; [apply Ascii.eqb_eq in E2; subst c; now destruct (H7 t)|].
      reflexivity. }
    assert (Hz : PyStr.zfill 3 (String c t) =
                 PyStr.zeros (3 - String.length (String c t)) ++ String c t).
    { unfold PyStr.zfill. now rewrite Hc. }
    rewrite Hz. set (k := 3 - String.length (String c t)).
    assert (Hall : all_digits (PyStr.zeros k ++ String c t) = true).
    { now rewrite all_digits_app, all_digits_zeros, Hd. }
    exists "", (PyStr.zeros k ++ String c t).
    split; [reflexivity|]. split; [now left|]. split; [exact Hall|].
    split; [destruct k; discriminate|].
    unfold question_int. simpl PyVal.str.
    rewrite (all_digits_trimmed _ Hall), lstrip_zeros, H2, H3.
    unfold PyStr.to_Z. rewrite H4.
    destruct (Ascii.ascii_dec c "+") as [->|Hp]; [now destruct (H6 t)|].
    destruct (Ascii.ascii_dec c "-") as [->|Hm]; [now destruct (H7 t)|].
    destruct c as [b0 b1 b2 b3 b4 b5 b6 b7].
    destruct b0, b1, b2, b3, b4, b5, b6, b7; try exact H5; congruence.
  - unfold PyStr.of_Z. simpl Z.to_int. simpl NilZero.string_of_int.
    destruct (to_Z_pos p) as (H1 & H2 & H3 & H4 & H5 & H6 & H7 & H8).
    rewrite H8.
    pose proof (string_of_uint_digits (Pos.to_uint p)) as Hd.
    pose proof (int_digits_pos p) as Hi.
    remember (NilEmpty.string_of_uint (Pos.to_uint p)) as s eqn:Es.
    assert (Hz : PyStr.zfill 3 (String "-" s) =
                 String "-" (PyStr.zeros (3 - String.length (String "-" s)) ++ s)).
    { reflexivity. }
    rewrite Hz. set (k := 3 - String.length (String "-" s)).
    assert (Hall : all_digits (PyStr.zeros k ++ s) = true).
    { now rewrite all_digits_app, all_digits_zeros, Hd. }
    assert (Hne : PyStr.zeros k ++ s <> "").
    { destruct k; [|discriminate]. simpl. destruct s; [discriminate H3 | discriminate]. }
    exists "-", (PyStr.zeros k ++ s).
    split; [reflexivity|]. split; [now right|]. split; [exact Hall|]. split; [exact Hne|].
    assert (Hs : PyStr.strip (String "-" (PyStr.zeros k ++ s)) = String "-" (PyStr.zeros k ++ s)).
    { apply strip_id.
      - intros c [= <-]. reflexivity.
      - intros c Hc. apply digit_not_space. simpl in Hc.
        destruct (last_char (PyStr.zeros k ++ s)) as [d|] eqn:El.
        + injection Hc as <-. eapply all_digits_last; [exact Hall | exact El].
        + apply last_char_none in El. contradiction. }
    unfold question_int. simpl PyVal.str. rewrite Hs.
    change (PyStr.lstrip_char "0" (String "-" (PyStr.zeros k ++ s)))
      with (String "-" (PyStr.zeros k ++ s)).
    cbn [PyStr.is_empty]. unfold PyStr.to_Z.
    change (PyStr.skip_cspace (String "-" (PyStr.zeros k ++ s)))
      with (String "-" (PyStr.zeros k ++ s)).
    cbv iota. change (option_map Z.opp (PyStr.int_digits 0 false (PyStr.zeros k ++ s)) = Some (Z.neg p)).
    rewrite int_digits_zeros, Hi. reflexivity.
Qed.

(** X9.  For every integer, [pad_question_no] returns its decimal
    numeral filled with zeros to at least three characters, and that
    text reads back as the same integer. *)
Theorem pad_question_no_integer (z : Z) :
  pad_question_no (VInt z) = PyStr.zfill 3 (PyStr.of_Z z) /\
  3 <= String.length (pad_question_no (VInt z)) /\
  question_int (VStr (pad_question_no (VInt z))) = Some z.
Proof.
  assert (H : pad_question_no (VInt z) = PyStr.zfill 3 (PyStr.of_Z z)).
  { unfold pad_question_no. now rewrite question_int_of_Z. }
  rewrite H. split; [reflexivity|]. split.
  - unfold PyStr.zfill.
    assert (L : forall k s, String.length (PyStr.zeros k ++ s) = k + String.length s).
    { intros k s. induction k; simpl; auto. }
    destruct (PyStr.of_Z z) as [|c t].
    + simpl. lia.
    + destruct (Ascii.eqb c "+" || Ascii.eqb c "-"); cbn [String.length]; rewrite L;
        cbn [String.length]; lia.
  - now destruct (zfill_of_Z z) as (_ & _ & _ & _ & _ & _ & R).
Qed.

(** X10.  [pad_question_no] is idempotent on every value. *)
Theorem pad_question_no_idempotent (v : value) :
  pad_question_no (VStr (pad_question_no v)) = pad_question_no v.
Proof.
  unfold pad_question_no at 2 3.
  destruct (question_int v) as [z|] eqn:E.
  - unfold pad_question_no.
    destruct (zfill_of_Z z) as (_ & _ & _ & _ & _ & _ & R). now rewrite R.
  - unfold pad_question_no.
    assert (R : question_int (VStr (PyStr.strip (PyVal.str v))) = None).
    { unfold question_int in *. simpl PyVal.str. now rewrite strip_trimmed. }
    rewrite R. simpl PyVal.str. apply strip_trimmed.
Qed.

(** ** Writing the question number: the quotes put on are taken off *)

Lemma rstrip_char_snoc (ch : ascii) (p : string) :
  PyStr.rstrip_char ch (p ++ PyVal.chr ch) = PyStr.rstrip_char ch p.
Proof.
  induction p as [|a p IH]; simpl.
  - now rewrite Ascii.eqb_refl.
  - now rewrite IH.
Qed.

Lemma strip_char_quoted (p : string) :
  PyStr.strip_char PyVal.dquote (quoted p) = PyStr.strip_char PyVal.dquote p.
Proof.
  unfold PyStr.strip_char, quoted.
  change (PyStr.lstrip_char PyVal.dquote (String PyVal.dquote (p ++ PyVal.chr PyVal.dquote)))
    with (PyStr.lstrip_char PyVal.dquote (p ++ PyVal.chr PyVal.dquote)).
  induction p as [|a p IH]; [reflexivity|].
  simpl append. cbn [PyStr.lstrip_char].
  destruct (Ascii.eqb a PyVal.dquote); [exact IH|].
  exact (rstrip_char_snoc PyVal.dquote (String a p)).
Qed.

Lemma lstrip_char_first (ch : ascii) (s : string) (c : ascii) :
  first_char (PyStr.lstrip_char ch s) = Some c -> c <> ch.
Proof.
  induction s as [|a s IH]; simpl; [discriminate|].
  destruct (Ascii.eqb a ch) eqn:Ea; [exact IH|].
  simpl. intros [= <-]. now apply Ascii.eqb_neq.
Qed.

Lemma rstrip_char_last (ch : ascii) (s : string) (c : ascii) :
  last_char (PyStr.rstrip_char ch s) = Some c -> c <> ch.
Proof.
  induction s as [|a s IH]; simpl; [discriminate|].
  destruct (Ascii.eqb a ch && PyStr.is_empty (PyStr.rstrip_char ch s)) eqn:E; [discriminate|].
  simpl. destruct (last_char (PyStr.rstrip_char ch s)) as [d|] eqn:El.
  - intros [= <-]. now apply IH.
  - intros [= <-]. apply last_char_none in El. rewrite El in E. simpl in E.
    rewrite andb_true_r in E. now apply Ascii.eqb_neq.
Qed.

Lemma rstrip_char_first (ch : ascii) (s : string) (c : ascii) :
  first_char (PyStr.rstrip_char ch s) = Some c -> first_char s = Some c.
Proof.
  destruct s as [|a s]; simpl; [discriminate|].
  destruct (Ascii.eqb a ch && PyStr.is_empty (PyStr.rstrip_char ch s));
    [discriminate | exact (fun H => H)].
Qed.

Lemma strip_char_id (ch : ascii) (s : string) :
  (forall c, first_char s = Some c -> c <> ch) ->
  (forall c, last_char s = Some c -> c <> ch) ->
  PyStr.strip_char ch s = s.
Proof.
  intros Hf Hl. unfold PyStr.strip_char.
  assert (E : PyStr.lstrip_char ch s = s).
  { destruct s as [|a s]; [reflexivity|]. simpl.
    destruct (Ascii.eqb a ch) eqn:Ea; [|reflexivity].
    apply Ascii.eqb_eq in Ea. now destruct (Hf a eq_refl). }
  rewrite E. clear E Hf. induction s as [|a s IH]; [reflexivity|]. simpl.
  destruct (last_char s) as [d|] eqn:El.
  - rewrite IH.
    + destruct s; [discriminate|]. simpl. now rewrite andb_false_r.
    + intros c Hc. apply Hl. simpl. rewrite El. congruence.
  - apply last_char_none in El. subst s. simpl.
    destruct (Ascii.eqb a ch) eqn:Ea; [|reflexivity].
    apply Ascii.eqb_eq in Ea. now destruct (Hl a eq_refl).
Qed.

Lemma strip_char_idempotent (ch : ascii) (s : string) :
  PyStr.strip_char ch (PyStr.strip_char ch s) = PyStr.strip_char ch s.
Proof.
  apply strip_char_id.
  - intros c H. unfold PyStr.strip_char in H. apply rstrip_char_first in H.
    now apply lstrip_char_first in H.
  - intros c H. now apply rstrip_char_last in H.
Qed.

Lemma zfill_no_quote (z : Z) :
  PyStr.strip_char PyVal.dquote (PyStr.zfill 3 (PyStr.of_Z z)) = PyStr.zfill 3 (PyStr.of_Z z).
Proof.
  destruct (zfill_of_Z z) as (sign & body & -> & Hs & Hd & Hne & _).
  assert (Hlast : forall c, last_char (sign ++ body) = Some c -> c <> PyVal.dquote).
  { intros c Hc. rewrite last_char_app in Hc by exact Hne.
    pose proof (all_digits_last _ _ Hd Hc) as Hdig. intros ->. discriminate Hdig. }
  apply strip_char_id; [|exact Hlast].
  destruct Hs as [->| ->].
  - destruct body as [|a body]; [congruence|]. simpl. intros c [= <-].
    simpl in Hd. apply andb_prop in Hd. destruct Hd as [Ha _]. intros ->. discriminate Ha.
  - simpl. intros c [= <-]. discriminate.
Qed.

(** X11.  The question number that [format_for_yaml] hands to the
    writer is the padded number with the double quotes at its two ends
    removed: for an identifier that reads as an integer it is exactly the
    zero-filled numeral, without quotes. *)
Theorem format_question_number (raw_q : value) (idx : nat) (q : question) :
  standardize_question raw_q idx = Ok q ->
  exists d,
    mapping_fields raw_q = Ok d /\
    q_no (format_question q) =
      PyStr.strip_char PyVal.dquote (pad_question_no (q_no_source d idx)) /\
    (forall n, question_int (q_no_source d idx) = Some n ->
               q_no (format_question q) = PyStr.zfill 3 (PyStr.of_Z n)).
Proof.
  unfold standardize_question. destruct (mapping_fields raw_q) as [d|e]; simpl; [|discriminate].
  intros [= <-]. exists d. split; [reflexivity|]. cbn [format_question q_no].
  split; [apply strip_char_quoted|].
  intros n Hn. rewrite strip_char_quoted. unfold pad_question_no. rewrite Hn.
  apply zfill_no_quote.
Qed.

Lemma format_question_number_witness :
  exists d,
    mapping_fields (VDict [("Question No", VStr " 42 ")]) = Ok d /\
    q_no (format_question
            {| q_no := quoted "042"; q_text := ""; q_options := []; q_answer := "";
               q_explanation := ""; q_difficulty := "Medium"; q_topic := "";
               q_subtopic := ""; q_exam := "Core" |}) =
      PyStr.strip_char PyVal.dquote (pad_question_no (q_no_source d 0)) /\
    (forall n, question_int (q_no_source d 0) = Some n ->
               q_no (format_question
                       {| q_no := quoted "042"; q_text := ""; q_options := []; q_answer := "";
                          q_explanation := ""; q_difficulty := "Medium"; q_topic := "";
                          q_subtopic := ""; q_exam := "Core" |}) =
               PyStr.zfill 3 (PyStr.of_Z n)).
Proof.
  apply (format_question_number (VDict [("Question No", VStr " 42 ")]) 0).
  reflexivity.
Defined.

(** X12.  [format_for_yaml] is idempotent, keeps the number and the order
    of the questions, and changes no field but the question number. *)
Theorem format_for_yaml_idempotent (std : kb) :
  format_for_yaml (format_for_yaml std) = format_for_yaml std /\
  List.length (kb_questions (format_for_yaml std)) = List.length (kb_questions std) /\
  map (fun q => (q_text q, q_options q, q_answer q, q_explanation q,
                 q_difficulty q, q_topic q, q_subtopic q, q_exam q))
      (kb_questions (format_for_yaml std)) =
  map (fun q => (q_text q, q_options q, q_answer q, q_explanation q,
                 q_difficulty q, q_topic q, q_subtopic q, q_exam q))
      (kb_questions std).
Proof.
  unfold format_for_yaml. cbn [kb_topic kb_subtopic kb_total kb_questions].
  split; [|split].
  - f_equal. rewrite map_map. apply map_ext. intros q.
    unfold format_question. cbn [q_no q_text q_options q_answer q_explanation
      q_difficulty q_topic q_subtopic q_exam]. now rewrite strip_char_idempotent.
  - apply length_map.
  - rewrite map_map. reflexivity.
Qed.


(** ** Keys that are no alias are never read *)

Lemma last_bound_remove (d1 d2 : dict value) (k x : string) (v : value) :
  x <> fold_key k ->
  last_bound (d1 ++ (k, v) :: d2)%list x = last_bound (d1 ++ d2)%list x.
Proof.
  intros Hx. induction d1 as [|[k1 v1] d1 IH]; cbn [app last_bound].
  - destruct (last_bound d2 x); [reflexivity|].
    destruct (String.eqb (fold_key k) x) eqn:E; [|reflexivity].
    apply String.eqb_eq in E. congruence.
  - now rewrite IH.
Qed.

Lemma first_value_remove (d1 d2 : dict value) (k : string) (v : value) (keys : list string) :
  (forall a, In a keys -> fold_key a <> fold_key k) ->
  _first_value (d1 ++ (k, v) :: d2)%list keys = _first_value (d1 ++ d2)%list keys.
Proof.
  unfold _first_value. induction keys as [|a keys IH]; intros H; [reflexivity|].
  cbn [first_in]. unfold get_or_none. rewrite !get_lower_map.
  rewrite (last_bound_remove d1 d2 k (fold_key a) v) by (apply H; now left).
  rewrite IH by (intros b Hb; apply H; now right). reflexivity.
Qed.

(** X13.  An entry whose key matches no alias of the list, letter case
    and surrounding blanks apart, has no effect on what the resolver
    returns. *)
Theorem first_value_ignores_other_keys
        (d1 d2 : dict value) (k : string) (v : value) (keys : list string) :
  (forall a, In a keys -> fold_key a <> fold_key k) ->
  _first_value (d1 ++ (k, v) :: d2)%list keys = _first_value (d1 ++ d2)%list keys.
Proof. apply first_value_remove. Qed.

Lemma first_value_ignores_other_keys_witness :
  _first_value ([("Topic", VStr "X")] ++ (" TOTAL question count ", VInt 9) :: [])%list
    TOPIC_KEYS =
  _first_value ([("Topic", VStr "X")] ++ [])%list TOPIC_KEYS.
Proof.
  apply (first_value_ignores_other_keys [("Topic", VStr "X")] []
           " TOTAL question count " (VInt 9) TOPIC_KEYS).
  intros a Ha. simpl in Ha.
  repeat (destruct Ha as [<-|Ha]; [discriminate|]). contradiction.
Defined.

Lemma in_app_l3 {A} (x : A) (a b c : list A) : In x a -> In x (a ++ b ++ c)%list.
Proof. intros H. apply in_or_app. now left. Qed.

Lemma standardize_remove (d1 d2 : dict value) (k : string) (v : value) :
  (forall a, In a DOCUMENT_ALIASES -> fold_key a <> fold_key k) ->
  standardize (d1 ++ (k, v) :: d2)%list = standardize (d1 ++ d2)%list.
Proof.
  intros H. unfold standardize.
  rewrite !(first_value_remove d1 d2 k v);
    try (intros a Ha; apply H; unfold DOCUMENT_ALIASES;
         repeat (apply in_or_app; first [left; exact Ha | right]); exact Ha).
  reflexivity.
Qed.

Lemma str_keys_app (m1 m2 : list (key * value)) :
  str_keys (m1 ++ m2)%list =
  (d1 <- str_keys m1 ;; d2 <- str_keys m2 ;; Ok (d1 ++ d2)%list).
Proof.
  induction m1 as [|[k v] m1 IH]; simpl.
  - destruct (str_keys m2); reflexivity.
  - destruct k; try reflexivity. rewrite IH.
    destruct (str_keys m1); simpl; [|reflexivity].
    destruct (str_keys m2); reflexivity.
Qed.

(** Taking an entry with a string key out of a mapping takes it out of
    its fields, and changes nothing to the exception of a key that is no
    string. *)
Lemma mapping_fields_remove (m1 m2 : list (key * value)) (s : string) (v : value) :
  (exists d1 d2,
      mapping_fields (VMap (m1 ++ (KStr s, v) :: m2)%list) = Ok (d1 ++ (s, v) :: d2)%list /\
      mapping_fields (VMap (m1 ++ m2)%list) = Ok (d1 ++ d2)%list) \/
  (exists e,
      mapping_fields (VMap (m1 ++ (KStr s, v) :: m2)%list) = Raise e /\
      mapping_fields (VMap (m1 ++ m2)%list) = Raise e).
Proof.
  cbn [mapping_fields]. rewrite !str_keys_app. cbn [str_keys].
  destruct (str_keys m1) as [d1|e1]; cbn [bind]; [|right; eauto].
  destruct (str_keys m2) as [d2|e2]; cbn [bind]; [left | right]; eauto.
Qed.

(** An entry whose key is no string makes the lookup of any field fail. *)
Lemma mapping_fields_other_key (m1 m2 : list (key * value)) (k : key) (v : value) :
  PyVal.is_str_key k = false ->
  exists e, mapping_fields (VMap (m1 ++ (k, v) :: m2)%list) = Raise e /\
            (string_keyed (VMap m1) = true -> e = no_lower k).
Proof.
  intros Hk. cbn [mapping_fields string_keyed]. rewrite str_keys_app.
  destruct (str_keys m1) as [d1|e1] eqn:E1; cbn [bind].
  - destruct k; try discriminate Hk; cbn [str_keys bind]; eauto.
  - exists e1. split; [reflexivity|]. intros H. apply str_keys_ok in H.
    destruct H as [d H]. congruence.
Qed.

(** X14.  [standardize] never reads the total count of its input, nor
    any other top-level entry whose key is a string that is no alias of
    the topic, the sub-topic or the question list: with or without such
    an entry, the outcome (the knowledge base or the exception) is the
    same.  A top-level entry whose key is not a string is not ignored: it
    makes the call raise, and when it is the first such entry the
    exception is the attribute error of its key. *)
Theorem standardize_ignores_other_keys
        (m1 m2 : list (key * value)) (d1 d2 : dict value) (s : string) (v : value) :
  (In s TOTAL_KEYS \/ forall a, In a DOCUMENT_ALIASES -> fold_key a <> fold_key s) ->
  standardize_value (VMap (m1 ++ (KStr s, v) :: m2)%list) =
    standardize_value (VMap (m1 ++ m2)%list) /\
  standardize_value (VDict (d1 ++ (s, v) :: d2)%list) =
    standardize_value (VDict (d1 ++ d2)%list) /\
  (forall k, PyVal.is_str_key k = false ->
     exists e, standardize_value (VMap (m1 ++ (k, v) :: m2)%list) = Raise e /\
               (string_keyed (VMap m1) = true -> e = no_lower k)).
Proof.
  intros Hs.
  assert (H : forall a, In a DOCUMENT_ALIASES -> fold_key a <> fold_key s).
  { destruct Hs as [Hk|H]; [|exact H]. intros a Ha. simpl in Hk. simpl in Ha.
    repeat (destruct Hk as [<-|Hk];
            [repeat (destruct Ha as [<-|Ha]; [discriminate|]); contradiction|]).
    contradiction. }
  unfold standardize_value. split; [|split].
  - destruct (mapping_fields_remove m1 m2 s v) as [(e1 & e2 & -> & ->) | (e & -> & ->)];
      cbn [bind]; [now apply standardize_remove | reflexivity].
  - cbn [mapping_fields bind]. now apply standardize_remove.
  - intros k Hk. destruct (mapping_fields_other_key m1 m2 k v Hk) as (e & -> & He).
    exists e. split; [reflexivity | exact He].
Qed.

Lemma standardize_ignores_other_keys_witness :
  standardize_value
    (VMap ([(KStr "Topic", VStr "X")] ++ (KStr "Total Question Count", VInt 99) ::
           [(KStr "questions", VList [VDict [("q", VStr "1+1?")]])])%list) =
    standardize_value
      (VMap ([(KStr "Topic", VStr "X")] ++
             [(KStr "questions", VList [VDict [("q", VStr "1+1?")]])])%list) /\
  standardize_value
    (VDict ([("Topic", VStr "X")] ++ ("Total Question Count", VInt 99) ::
            [("questions", VList [VDict [("q", VStr "1+1?")]])])%list) =
    standardize_value
      (VDict ([("Topic", VStr "X")] ++
              [("questions", VList [VDict [("q", VStr "1+1?")]])])%list) /\
  (forall k, PyVal.is_str_key k = false ->
     exists e,
       standardize_value
         (VMap ([(KStr "Topic", VStr "X")] ++ (k, VInt 99) ::
                [(KStr "questions", VList [VDict [("q", VStr "1+1?")]])])%list) = Raise e /\
       (string_keyed (VMap [(KStr "Topic", VStr "X")]) = true -> e = no_lower k)).
Proof.
  apply (standardize_ignores_other_keys
           [(KStr "Topic", VStr "X")]
           [(KStr "questions", VList [VDict [("q", VStr "1+1?")]])]
           [("Topic", VStr "X")]
           [("questions", VList [VDict [("q", VStr "1+1?")]])]
           "Total Question Count" (VInt 99)).
  left. simpl. tauto.
Defined.

(** X15.  [standardize_question] reads no entry of a record whose key
    is a string that is no alias of one of its nine fields: with or
    without such an entry, the outcome (the question or the exception)
    is the same.  An entry whose key is not a string is not ignored: it
    makes the call raise, and when it is the first such entry the
    exception is the attribute error of its key. *)
Theorem standardize_question_ignores_other_keys
        (m1 m2 : list (key * value)) (d1 d2 : dict value) (s : string) (v : value)
        (idx : nat) :
  (forall a, In a QUESTION_ALIASES -> fold_key a <> fold_key s) ->
  standardize_question (VMap (m1 ++ (KStr s, v) :: m2)%list) idx =
    standardize_question (VMap (m1 ++ m2)%list) idx /\
  standardize_question (VDict (d1 ++ (s, v) :: d2)%list) idx =
    standardize_question (VDict (d1 ++ d2)%list) idx /\
  (forall k, PyVal.is_str_key k = false ->
     exists e, standardize_question (VMap (m1 ++ (k, v) :: m2)%list) idx = Raise e /\
               (string_keyed (VMap m1) = true -> e = no_lower k)).
Proof.
  intros H.
  assert (Hd : forall e1 e2 : dict value,
             standardize_question (VDict (e1 ++ (s, v) :: e2)%list) idx =
             standardize_question (VDict (e1 ++ e2)%list) idx).
  { intros e1 e2. unfold standardize_question. cbn [mapping_fields bind]. unfold q_no_source.
    rewrite !(first_value_remove e1 e2 s v);
      try (intros a Ha; apply H; unfold QUESTION_ALIASES;
           repeat (apply in_or_app; first [left; exact Ha | right]); exact Ha).
    reflexivity. }
  split; [|split].
  - specialize Hd. unfold standardize_question in *.
    destruct (mapping_fields_remove m1 m2 s v) as [(e1 & e2 & -> & ->) | (e & -> & ->)];
      [exact (Hd e1 e2) | reflexivity].
  - apply Hd.
  - intros k Hk. unfold standardize_question.
    destruct (mapping_fields_other_key m1 m2 k v Hk) as (e & -> & He).
    exists e. split; [reflexivity | exact He].
Qed.

Lemma standardize_question_ignores_other_keys_witness :
  standardize_question
    (VMap ([(KStr "q", VStr "1+1?")] ++ (KStr "notes", VStr "n") :: [])%list) 3 =
    standardize_question (VMap ([(KStr "q", VStr "1+1?")] ++ [])%list) 3 /\
  standardize_question (VDict ([("q", VStr "1+1?")] ++ ("notes", VStr "n") :: [])%list) 3 =
    standardize_question (VDict ([("q", VStr "1+1?")] ++ [])%list) 3 /\
  (forall k, PyVal.is_str_key k = false ->
     exists e,
       standardize_question
         (VMap ([(KStr "q", VStr "1+1?")] ++ (k, VStr "n") :: [])%list) 3 = Raise e /\
       (string_keyed (VMap [(KStr "q", VStr "1+1?")]) = true -> e = no_lower k)).
Proof.
  apply (standardize_question_ignores_other_keys
           [(KStr "q", VStr "1+1?")] [] [("q", VStr "1+1?")] [] "notes" (VStr "n") 3).
  intros a Ha. simpl in Ha.
  repeat (destruct Ha as [<-|Ha]; [discriminate|]). contradiction.
Defined.

(** ** Order and shape of the result of [standardize] *)

(** X16.  The questions of the result are the input records in the same
    order: the question at position [i] is the record at position [i],
    standardized with index [i]; nothing is reordered, merged or
    dropped. *)
Theorem standardize_preserves_order (data : dict value) (std : kb) :
  standardize data = Ok std ->
  exists l,
    PyVal.or_else (_first_value data QUESTIONS_KEYS) (VList []) = VList l /\
    List.length (kb_questions std) = List.length l /\
    forall i v, nth_error l i = Some v ->
      exists q, nth_error (kb_questions std) i = Some q /\
                standardize_question v i = Ok q.
Proof.
  intros H. destruct (standardize_ok_inv _ _ H) as (l & Hl & Hqs & _).
  exists l. split; [exact Hl|]. split.
  - eapply standardize_questions_length; eassumption.
  - intros i v Hi. exact (standardize_questions_nth l 0 _ i v Hqs Hi).
Qed.

Lemma standardize_preserves_order_witness :
  let std := {| kb_topic := "Unknown Topic"; kb_subtopic := ""; kb_total := 1;
                kb_questions :=
                  [{| q_no := quoted "007"; q_text := "x"; q_options := [];
                      q_answer := ""; q_explanation := ""; q_difficulty := "Medium";
                      q_topic := ""; q_subtopic := ""; q_exam := "Core" |}] |} in
  exists l,
    PyVal.or_else
      (_first_value [("questions", VList [VDict [("id", VInt 7); ("q", VStr "x")]])]
         QUESTIONS_KEYS) (VList []) = VList l /\
    List.length (kb_questions std) = List.length l /\
    forall i v, nth_error l i = Some v ->
      exists q, nth_error (kb_questions std) i = Some q /\
                standardize_question v i = Ok q.
Proof.
  intros std.
  apply (standardize_preserves_order
           [("questions", VList [VDict [("id", VInt 7); ("q", VStr "x")]])] std).
  reflexivity.
Defined.

Lemma standardize_question_fields (v : value) (idx : nat) (q : question) :
  standardize_question v idx = Ok q ->
  (exists p, q_no q = quoted p) /\
  trimmed (q_text q) /\ trimmed (q_explanation q) /\
  trimmed (q_topic q) /\ trimmed (q_subtopic q) /\
  canonical_options (q_options q) /\ canonical_exam (q_exam q).
Proof.
  unfold standardize_question. destruct (mapping_fields v) as [d|e]; cbn [bind]; [|discriminate].
  intros [= <-]. cbn [q_no q_text q_explanation q_topic q_subtopic q_options q_exam].
  split; [eexists; reflexivity|].
  repeat (split; [apply strip_trimmed|]).
  split; [apply normalize_options_is_canonical | apply normalize_exam_is_canonical].
Qed.

(** X17.  In every knowledge base returned by [standardize], the topic
    and the sub-topic are trimmed, and every question has a number
    between double quotes, trimmed text, explanation, topic and
    sub-topic, options labelled among option A to option E in order with
    trimmed values, and an exam field that is a joined non-empty list of
    canonical tags. *)
Theorem standardize_output_shape (data : dict value) (std : kb) :
  standardize data = Ok std ->
  trimmed (kb_topic std) /\ trimmed (kb_subtopic std) /\
  Forall (fun q =>
            (exists p, q_no q = quoted p) /\
            trimmed (q_text q) /\ trimmed (q_explanation q) /\
            trimmed (q_topic q) /\ trimmed (q_subtopic q) /\
            canonical_options (q_options q) /\ canonical_exam (q_exam q))
         (kb_questions std).
Proof.
  intros H. destruct (standardize_ok_inv _ _ H) as (l & _ & Hqs & _).
  assert (HF := standardize_questions_forall _ standardize_question_fields l 0 _ Hqs).
  unfold standardize in H.
  destruct (PyVal.or_else (_first_value data QUESTIONS_KEYS) (VList [])); try discriminate.
  destruct (standardize_questions l0 0); cbn [bind] in H; [|discriminate].
  injection H as <-. cbn [kb_topic kb_subtopic kb_questions] in *.
  split; [apply strip_trimmed|]. split; [apply strip_trimmed | exact HF].
Qed.

Lemma standardize_output_shape_witness :
  let std := {| kb_topic := "T"; kb_subtopic := ""; kb_total := 1;
                kb_questions :=
                  [{| q_no := quoted "001"; q_text := "x"; q_options := [("option A", "2")];
                      q_answer := ""; q_explanation := ""; q_difficulty := "Medium";
                      q_topic := ""; q_subtopic := ""; q_exam := "Core" |}] |} in
  trimmed (kb_topic std) /\ trimmed (kb_subtopic std) /\
  Forall (fun q =>
            (exists p, q_no q = quoted p) /\
            trimmed (q_text q) /\ trimmed (q_explanation q) /\
            trimmed (q_topic q) /\ trimmed (q_subtopic q) /\
            canonical_options (q_options q) /\ canonical_exam (q_exam q))
         (kb_questions std).
Proof.
  intros std.
  apply (standardize_output_shape
           [("topic", VStr " T "); ("Questions", VList [VDict [("Q", VStr " x"); ("options", VList [VInt 2])]])]
           std).
  reflexivity.
Defined.

Lemma first_value_unbound (d : dict value) (keys : list string) :
  (forall a, In a keys -> unbound d a) -> _first_value d keys = VNone.
Proof.
  intros H. unfold _first_value. rewrite <- (app_nil_r keys).
  rewrite first_in_skip; [reflexivity|]. intros a Ha. left. now apply H.
Qed.

(** X18.  A record that is a mapping whose keys are all strings, and in
    which none of the known fields is present, becomes the all-default
    question: its number is its position counted from one, its texts are
    empty, it has no option and no answer, its difficulty is Medium and
    its exam Core.  A document that is a mapping whose keys are all
    strings, and in which no known key is present, becomes the knowledge
    base of the unknown topic with no question. *)
Theorem standardize_defaults (v : value) (d : dict value) (idx : nat) :
  mapping_fields v = Ok d ->
  ((forall a, In a QUESTION_ALIASES -> unbound d a) ->
   standardize_question v idx =
     Ok {| q_no := quoted (PyStr.zfill 3 (PyStr.of_Z (Z.of_nat idx + 1)));
           q_text := ""; q_options := []; q_answer := ""; q_explanation := "";
           q_difficulty := "Medium"; q_topic := ""; q_subtopic := "";
           q_exam := "Core" |}) /\
  ((forall a, In a DOCUMENT_ALIASES -> unbound d a) ->
   standardize_value v =
     Ok {| kb_topic := "Unknown Topic"; kb_subtopic := ""; kb_total := 0;
           kb_questions := [] |}).
Proof.
  intros Hd. split; intros H.
  - unfold standardize_question. rewrite Hd. cbn [bind]. unfold q_no_source.
    rewrite !first_value_unbound;
      try (intros a Ha; apply H; unfold QUESTION_ALIASES;
           repeat (apply in_or_app; first [left; exact Ha | right]); exact Ha).
    cbn [PyVal.or_else PyVal.truthy].
    destruct (pad_question_no_int (Z.of_nat idx + 1)) as [_ ->]. reflexivity.
  - unfold standardize_value. rewrite Hd. cbn [bind]. unfold standardize.
    rewrite !first_value_unbound;
      try (intros a Ha; apply H; unfold DOCUMENT_ALIASES;
           repeat (apply in_or_app; first [left; exact Ha | right]); exact Ha).
    reflexivity.
Qed.

Lemma standardize_defaults_witness :
  ((forall a, In a QUESTION_ALIASES -> unbound [("notes", VStr "n")] a) ->
   standardize_question (VMap [(KStr "notes", VStr "n")]) 3 =
     Ok {| q_no := quoted (PyStr.zfill 3 (PyStr.of_Z (Z.of_nat 3 + 1)));
           q_text := ""; q_options := []; q_answer := ""; q_explanation := "";
           q_difficulty := "Medium"; q_topic := ""; q_subtopic := "";
           q_exam := "Core" |}) /\
  ((forall a, In a DOCUMENT_ALIASES -> unbound [("notes", VStr "n")] a) ->
   standardize_value (VMap [(KStr "notes", VStr "n")]) =
     Ok {| kb_topic := "Unknown Topic"; kb_subtopic := ""; kb_total := 0;
           kb_questions := [] |}).
Proof.
  apply (standardize_defaults (VMap [(KStr "notes", VStr "n")]) [("notes", VStr "n")] 3).
  reflexivity.
Defined.


(** ** The validator, question by question *)

Lemma valid_difficulty_iff (d : string) :
  valid_difficulty d = true <-> In d VALID_DIFFICULTIES.
Proof.
  unfold valid_difficulty. rewrite existsb_exists. split.
  - intros (x & Hx & E). apply String.eqb_eq in E. now subst.
  - intros H. exists d. split; [assumption | apply String.eqb_refl].
Qed.

Lemma validate_question_nil (q : question) :
  validate_question [] q = [] <-> complete_question q.
Proof.
  unfold validate_question, complete_question, append_issue.
  pose proof (valid_difficulty_iff (q_difficulty q)) as Hv.
  destruct (q_text q) as [|a t], (q_options q) as [|o os], (q_answer q) as [|b w],
    (valid_difficulty (q_difficulty q)); cbn [PyStr.is_empty negb app];
    split; try discriminate;
    try (intros (H1 & H2 & H3 & H4); try congruence;
         apply Hv in H4; discriminate).
  intros _. repeat split; try discriminate. now apply Hv.
Qed.

Lemma validate_questions_concat (qs : list question) :
  validate_questions qs = List.concat (map (validate_question []) qs).
Proof.
  induction qs as [|q qs IH]; [reflexivity|].
  rewrite validate_questions_cons, IH. reflexivity.
Qed.

Lemma validate_question_length (q : question) :
  List.length (validate_question [] q) <= 4 /\
  (valid_difficulty (q_difficulty q) = true -> List.length (validate_question [] q) <= 3).
Proof.
  unfold validate_question, append_issue.
  destruct (PyStr.is_empty (q_text q)), (q_options q), (PyStr.is_empty (q_answer q)),
    (valid_difficulty (q_difficulty q)); cbn [negb app List.length];
    split; try lia; intros; try lia; discriminate.
Qed.

(** X19.  [validate] reports nothing exactly when every question has a
    text, at least one option, an answer and a canonical difficulty. *)
Theorem validate_empty_iff (std : kb) :
  validate std = [] <-> Forall complete_question (kb_questions std).
Proof.
  unfold validate, validate_st. cbn [fst].
  change (fold_left validate_question (kb_questions std) [])
    with (validate_questions (kb_questions std)).
  induction (kb_questions std) as [|q qs IH].
  - split; [constructor | reflexivity].
  - rewrite validate_questions_cons. split.
    + intros H. apply app_eq_nil in H. destruct H as [H1 H2].
      constructor; [now apply validate_question_nil | now apply IH].
    + intros H. inversion H as [|? ? Hq Hqs]; subst.
      rewrite (proj2 (validate_question_nil q) Hq), (proj2 IH Hqs). reflexivity.
Qed.

(** X20.  The issues come out question by question, in the order of the
    questions, each question contributing at most four; every issue
    starts with the letter Q and the number of its question. *)
Theorem validate_by_question (std : kb) :
  validate std = List.concat (map (validate_question []) (kb_questions std)) /\
  List.length (validate std) <= 4 * List.length (kb_questions std) /\
  (forall issue, In issue (validate std) ->
     exists q rest, In q (kb_questions std) /\ issue = "Q" ++ q_no q ++ ": " ++ rest).
Proof.
  unfold validate, validate_st. cbn [fst].
  change (fold_left validate_question (kb_questions std) [])
    with (validate_questions (kb_questions std)).
  split; [apply validate_questions_concat|]. split.
  - induction (kb_questions std) as [|q qs IH]; [simpl; lia|].
    rewrite validate_questions_cons, length_app. cbn [List.length].
    pose proof (proj1 (validate_question_length q)). lia.
  - intros issue Hin. apply validate_questions_in in Hin.
    destruct Hin as (q & Hq & Hi). exists q.
    revert Hi. unfold validate_question, append_issue.
    destruct (PyStr.is_empty (q_text q)), (q_options q), (PyStr.is_empty (q_answer q)),
      (negb (valid_difficulty (q_difficulty q))); cbn [app In]; intros Hi;
      repeat (destruct Hi as [<-|Hi];
              [eexists; split; [exact Hq | reflexivity]|]); contradiction.
Qed.

(** X21.  On a knowledge base returned by [standardize], [validate]
    reports at most three issues per question. *)
Theorem validate_after_standardize (data : dict value) (std : kb) :
  standardize data = Ok std ->
  List.length (validate std) <= 3 * kb_total std.
Proof.
  intros H. destruct (standardize_ok_inv _ _ H) as (l & _ & Hqs & ->).
  assert (HF : Forall (fun q => In (q_difficulty q) VALID_DIFFICULTIES) (kb_questions std)).
  { eapply standardize_questions_forall; [|exact Hqs].
    intros v idx q. apply standardize_question_difficulty. }
  unfold validate, validate_st. cbn [fst].
  change (fold_left validate_question (kb_questions std) [])
    with (validate_questions (kb_questions std)).
  clear -HF. induction HF as [|q qs Hq _ IH]; [simpl; lia|].
  rewrite validate_questions_cons, length_app. cbn [List.length].
  pose proof (proj2 (validate_question_length q) (valid_difficulty_in _ Hq)). lia.
Qed.

Lemma validate_after_standardize_witness :
  let std := {| kb_topic := "Unknown Topic"; kb_subtopic := ""; kb_total := 1;
                kb_questions :=
                  [{| q_no := quoted "001"; q_text := ""; q_options := [];
                      q_answer := ""; q_explanation := ""; q_difficulty := "Medium";
                      q_topic := ""; q_subtopic := ""; q_exam := "Core" |}] |} in
  List.length (validate std) <= 3 * kb_total std.
Proof.
  intros std.
  apply (validate_after_standardize [("questions", VList [VDict []])] std).
  reflexivity.
Defined.

(** ** Answers and difficulties: normalizing twice *)

Lemma AE_upper (c : ascii) :
  PyChar.is_AE c = true -> upper_AE (PyChar.upper c) = true.
Proof.
  intros H. apply AE_cases in H. simpl in H.
  repeat (destruct H as [<-|H]; [reflexivity|]). contradiction.
Qed.

Lemma canonical_label_upper (c : ascii) :
  PyChar.is_AE c = true -> canonical_label (PyChar.upper c) = canonical_label c.
Proof.
  intros H. apply AE_cases in H. simpl in H.
  repeat (destruct H as [<-|H]; [reflexivity|]). contradiction.
Qed.

Lemma canonical_list_letters (t : string) (cs : list ascii) :
  canonical_list t cs -> cs <> [] /\ Forall (fun c => PyChar.is_AE c = true) cs.
Proof.
  induction 1 as [o c Ho Hc | o c ws t cs Ho Hc Hw Ht IH].
  - split; [discriminate | repeat constructor; assumption].
  - split; [discriminate|]. constructor; [assumption | apply IH].
Qed.

Lemma labels_canonical_answer (cs : list ascii) :
  cs <> [] -> Forall (fun c => PyChar.is_AE c = true) cs ->
  canonical_answer (PyStr.join ", " (map canonical_label cs)).
Proof.
  intros Hne H. right. exists (map PyChar.upper cs). split; [|split].
  - destruct cs; [congruence | discriminate].
  - clear Hne. induction H as [|c cs Hc _ IH]; constructor; [now apply AE_upper | exact IH].
  - f_equal. rewrite map_map. clear Hne.
    induction H as [|c cs Hc _ IH]; [reflexivity|]. cbn [map].
    now rewrite (canonical_label_upper c Hc), IH.
Qed.

Lemma search_option_AE (s : string) (c : ascii) :
  Re.search_option s = Some c -> PyChar.is_AE c = true.
Proof.
  intros H. destruct (search_option_some _ _ H) as (pre & s' & _ & (o & ws & post & _ & _ & Hc & _)).
  exact Hc.
Qed.

Lemma normalize_answer_str_result (t : string) :
  canonical_answer (normalize_answer_str t) \/ normalize_answer_str t = t.
Proof.
  unfold normalize_answer_str.
  destruct (Re.fullmatch_canonical t) eqn:E.
  - left. destruct (fullmatch_canonical_list t E) as (cs & Hcs).
    rewrite (canonical_list_parts _ _ Hcs).
    destruct (canonical_list_letters _ _ Hcs). now apply labels_canonical_answer.
  - destruct (Re.fullmatch_letter t) eqn:El.
    + left. destruct t as [|c [|? ?]]; try discriminate. simpl in El.
      apply (labels_canonical_answer [c]); [discriminate | repeat constructor; assumption].
    + destruct (Re.search_option t) as [c|] eqn:Es; [|now right].
      left. apply search_option_AE in Es.
      apply (labels_canonical_answer [c]); [discriminate | repeat constructor; assumption].
Qed.

Lemma normalize_answer_scalar (raw : value) :
  PyVal.is_list raw = false ->
  normalize_answer raw =
  if PyVal.truthy raw then normalize_answer_str (PyStr.strip (PyVal.str raw)) else "".
Proof.
  destruct raw as [|b|z|s|l|d|m]; try discriminate; intros _.
  - reflexivity.
  - destruct b; reflexivity.
  - simpl. destruct (z =? 0)%Z; reflexivity.
  - destruct s; reflexivity.
  - destruct d; reflexivity.
  - destruct m; reflexivity.
Qed.

(** X22.  For an input that is not a list, the result of
    [normalize_answer] is either a canonical answer (empty, or canonical
    labels joined by a comma and a space) or the text of the input with
    its surrounding blanks removed and nothing else changed. *)
Theorem normalize_answer_scalar_result (raw : value) :
  PyVal.is_list raw = false ->
  canonical_answer (normalize_answer raw) \/
  normalize_answer raw = PyStr.strip (PyVal.str raw).
Proof.
  intros H. rewrite (normalize_answer_scalar raw H).
  destruct (PyVal.truthy raw); [|left; now left].
  apply normalize_answer_str_result.
Qed.

Lemma normalize_answer_scalar_result_witness :
  canonical_answer (normalize_answer (VInt 12)) \/
  normalize_answer (VInt 12) = PyStr.strip (PyVal.str (VInt 12)).
Proof. apply (normalize_answer_scalar_result (VInt 12)). reflexivity. Defined.

(** X23.  On an input that is not a list, [normalize_answer] is
    idempotent. *)
Theorem normalize_answer_idempotent (raw : value) :
  PyVal.is_list raw = false ->
  normalize_answer (VStr (normalize_answer raw)) = normalize_answer raw.
Proof.
  intros H. rewrite (normalize_answer_scalar raw H).
  destruct (PyVal.truthy raw); [|reflexivity].
  set (t := PyStr.strip (PyVal.str raw)).
  destruct (normalize_answer_str_result t) as [Hc|Ht].
  - now apply normalize_answer_canonical.
  - rewrite Ht. rewrite (normalize_answer_scalar (VStr t) eq_refl).
    destruct (PyVal.truthy (VStr t)) eqn:Et.
    + simpl PyVal.str. unfold t at 1. rewrite strip_trimmed. exact Ht.
    + destruct t; [reflexivity | discriminate].
Qed.

Lemma normalize_answer_idempotent_witness :
  normalize_answer (VStr (normalize_answer (VStr " see option b "))) =
  normalize_answer (VStr " see option b ").
Proof. apply (normalize_answer_idempotent (VStr " see option b ")). reflexivity. Defined.

(** X24.  [normalize_difficulty] is idempotent. *)
Theorem normalize_difficulty_idempotent (raw : value) :
  normalize_difficulty (VStr (normalize_difficulty raw)) = normalize_difficulty raw.
Proof. apply normalize_difficulty_canonical, normalize_difficulty_valid. Qed.


(** ** Conversion before writing *)

Lemma set_fresh {A} (m : dict A) (k : string) (v : A) :
  ~ In k (map fst m) -> PyDict.set m k v = (m ++ [(k, v)])%list.
Proof.
  induction m as [|[k' v'] m IH]; intros H; [reflexivity|].
  cbn [PyDict.set app]. simpl in H.
  destruct (String.eqb k' k) eqn:E.
  - apply String.eqb_eq in E. tauto.
  - rewrite IH by tauto. reflexivity.
Qed.

Lemma fold_set_unique {A B} (g : string * A -> B) (d : dict A) :
  forall acc : dict B,
    NoDup (map fst acc ++ map fst d) ->
    fold_left (fun m kv => PyDict.set m (fst kv) (g kv)) d acc =
    (acc ++ map (fun kv => (fst kv, g kv)) d)%list.
Proof.
  induction d as [|[k v] d IH]; intros acc H; cbn [fold_left map fst].
  - now rewrite app_nil_r.
  - cbn [map fst] in H.
    assert (Hk : ~ In k (map fst acc)).
    { intros Hin. apply NoDup_remove_2 in H. apply H. apply in_or_app. now left. }
    rewrite (set_fresh acc k (g (k, v)) Hk). rewrite IH.
    + rewrite <- app_assoc. reflexivity.
    + rewrite map_app. cbn [map fst]. rewrite <- app_assoc. exact H.
Qed.

Lemma kset_fresh {A} (m : list (key * A)) (k : key) (v : A) :
  Forall (fun k' => PyKey.eqb k' k = false) (map fst m) ->
  PyKey.set m k v = (m ++ [(k, v)])%list.
Proof.
  induction m as [|[k' v'] m IH]; intros H; [reflexivity|].
  cbn [PyKey.set app]. cbn [map fst] in H. inversion H as [|? ? Hk Hm]; subst.
  rewrite Hk, (IH Hm). reflexivity.
Qed.

Lemma distinct_keys_before (a r : list key) (k : key) :
  distinct_keys (a ++ k :: r) -> Forall (fun k' => PyKey.eqb k' k = false) a.
Proof.
  induction a as [|x a IH]; cbn [app distinct_keys]; intros H; [constructor|].
  destruct H as [Hx Ha]. constructor; [|exact (IH Ha)].
  rewrite Forall_forall in Hx. apply Hx. apply in_or_app. right. now left.
Qed.

Lemma fold_kset_unique {A B} (g : key * A -> B) (d : list (key * A)) :
  forall acc : list (key * B),
    distinct_keys (map fst acc ++ map fst d) ->
    fold_left (fun m kv => PyKey.set m (fst kv) (g kv)) d acc =
    (acc ++ map (fun kv => (fst kv, g kv)) d)%list.
Proof.
  induction d as [|[k v] d IH]; intros acc H; cbn [fold_left map fst].
  - now rewrite app_nil_r.
  - cbn [map fst] in H.
    rewrite (kset_fresh acc k (g (k, v)) (distinct_keys_before _ _ _ H)). rewrite IH.
    + rewrite <- app_assoc. reflexivity.
    + rewrite map_app. cbn [map fst]. rewrite <- app_assoc. exact H.
Qed.

(** X25.  [to_serializable] returns a value equal to its argument,
    whatever the nesting of mappings and lists. *)
Theorem to_serializable_identity :
  forall v : value, unique_keys v -> to_serializable v = v.
Proof.
  fix IH 1. intros v. destruct v as [|b|z|s|l|d|m]; try reflexivity.
  - intros H. cbn [to_serializable]. f_equal.
    induction l as [|x l IHl]; [reflexivity|].
    cbn [unique_keys fold_right] in H. destruct H as [Hx Hl].
    cbn [map]. rewrite (IH x Hx). f_equal. apply IHl. exact Hl.
  - intros [Hnd H]. cbn [to_serializable]. f_equal.
    rewrite (fold_set_unique (fun kv => to_serializable (snd kv)) d []) by exact Hnd.
    cbn [app]. clear Hnd.
    induction d as [|[k x] d IHd]; [reflexivity|].
    cbn [fold_right snd] in H. destruct H as [Hx Hd].
    cbn [map fst snd]. rewrite (IH x Hx). f_equal. apply IHd. exact Hd.
  - intros [Hnd H]. cbn [to_serializable]. f_equal.
    rewrite (fold_kset_unique (fun kv => to_serializable (snd kv)) m []) by exact Hnd.
    cbn [app]. clear Hnd.
    induction m as [|[k x] m IHm]; [reflexivity|].
    cbn [fold_right snd] in H. destruct H as [Hx Hm].
    cbn [map fst snd]. rewrite (IH x Hx). f_equal. apply IHm. exact Hm.
Qed.

Lemma to_serializable_identity_witness :
  to_serializable (VDict [("a", VList [VInt 1; VDict [("b", VNone)]]); ("c", VStr "x")]) =
  VDict [("a", VList [VInt 1; VDict [("b", VNone)]]); ("c", VStr "x")].
Proof.
  apply (to_serializable_identity
           (VDict [("a", VList [VInt 1; VDict [("b", VNone)]]); ("c", VStr "x")])).
  simpl. repeat split; repeat constructor; simpl; intuition discriminate.
Defined.


Lemma canonical_options_nodup (o : dict string) :
  canonical_options o -> NoDup (map fst o).
Proof.
  intros (a & b & c & d & e & -> & _).
  destruct a, b, c, d, e; unfold option_entries; cbn;
    repeat constructor; cbn; intuition discriminate.
Qed.

Lemma unique_keys_question (q : question) :
  NoDup (map fst (q_options q)) -> unique_keys (question_to_value q).
Proof.
  intros H. unfold question_to_value.
  cbn [unique_keys fold_right snd]. split.
  - cbv [map fst OUT_Q_NO OUT_Q_TEXT OUT_Q_OPTIONS OUT_Q_ANSWER OUT_Q_EXPLANATION
           OUT_Q_DIFFICULTY OUT_Q_TOPIC OUT_Q_SUBTOPIC OUT_Q_EXAM].
    repeat constructor; cbn; intuition discriminate.
  - repeat split; try exact I.
    + rewrite map_map. cbn [fst]. exact H.
    + clear H. induction (q_options q) as [|kv o IH]; [exact I|].
      cbn [map fold_right snd unique_keys]. split; [exact I | exact IH].
Qed.

Lemma unique_keys_document (std : kb) :
  Forall (fun q => NoDup (map fst (q_options q))) (kb_questions std) ->
  unique_keys (VDict (kb_to_document std)).
Proof.
  intros H. unfold kb_to_document. cbn [unique_keys fold_right snd]. split.
  - cbv [map fst OUT_TOPIC OUT_SUBTOPIC OUT_TOTAL OUT_QUESTIONS].
    repeat constructor; cbn; intuition discriminate.
  - repeat split; try exact I.
    induction H as [|q qs Hq _ IH]; cbn [map fold_right]; [exact I|].
    split; [now apply unique_keys_question | exact IH].
Qed.

(** X26.  What [main] hands to the writer, [to_serializable] of the
    formatted result of [standardize], is equal to the formatted result
    itself: the conversion loses and reorders nothing. *)
Theorem to_serializable_after_standardize (data : dict value) (std : kb) :
  standardize data = Ok std ->
  to_serializable (VDict (kb_to_document (format_for_yaml std))) =
  VDict (kb_to_document (format_for_yaml std)).
Proof.
  intros H. apply to_serializable_identity, unique_keys_document.
  destruct (standardize_ok_inv _ _ H) as (l & _ & Hqs & _).
  assert (HF := standardize_questions_forall _ standardize_question_fields l 0 _ Hqs).
  unfold format_for_yaml. cbn [kb_questions].
  rewrite Forall_map. revert HF. apply Forall_impl.
  intros q (_ & _ & _ & _ & _ & Ho & _). cbn [format_question q_options].
  now apply canonical_options_nodup.
Qed.

Lemma to_serializable_after_standardize_witness :
  let std := {| kb_topic := "T"; kb_subtopic := ""; kb_total := 1;
                kb_questions :=
                  [{| q_no := quoted "001"; q_text := "x"; q_options := [("option A", "2")];
                      q_answer := ""; q_explanation := ""; q_difficulty := "Medium";
                      q_topic := ""; q_subtopic := ""; q_exam := "Core" |}] |} in
  to_serializable (VDict (kb_to_document (format_for_yaml std))) =
  VDict (kb_to_document (format_for_yaml std)).
Proof.
  intros std.
  apply (to_serializable_after_standardize
           [("topic", VStr "T"); ("questions", VList [VDict [("q", VStr "x"); ("options", VList [VInt 2])]])]
           std).
  reflexivity.
Defined.

(** X27.  [standardize] returns a knowledge base exactly when its
    argument is a mapping whose keys are all strings and whose questions
    field is absent or falsy, or is a list all of whose elements are
    mappings whose keys are all strings. *)
Theorem standardize_succeeds_iff (data : value) :
  (exists std, standardize_value data = Ok std) <->
  (string_keyed data = true /\
   exists d l,
     mapping_fields data = Ok d /\
     PyVal.or_else (_first_value d QUESTIONS_KEYS) (VList []) = VList l /\
     Forall (fun v => string_keyed v = true) l).
Proof.
  unfold standardize_value. split.
  - intros (std & H).
    destruct (mapping_fields data) as [d|e] eqn:Hd; cbn [bind] in H; [|discriminate].
    destruct (standardize_ok_inv _ _ H) as (l & Hl & Hqs & _).
    split; [apply string_keyed_fields; eauto|].
    exists d, l. split; [reflexivity|]. split; [exact Hl|].
    eapply standardize_questions_ok; exact Hqs.
  - intros (_ & d & l & -> & Hl & Hmap). cbn [bind]. unfold standardize. rewrite Hl.
    destruct (standardize_questions_total l Hmap 0) as [qs ->]. cbn [bind]. eauto.
Qed.
